(** * Transit scheduling: a shallow embedding of [apps/schedule_app.py]

    The class [Schedule_Algorithm] of [apps/schedule_app.py] and the class
    [Node] of [apps/node.py] are embedded function by function.

    - Python integers are [Z]; strings are [string] (a string of bytes).
    - A list indexed by a constant ([row[4]]) is a [list] read with stdpp's
      lookup [!!]; a read out of range raises [IndexError].
    - A dict whose iteration order is observed (a trip, the trips of one
      route, the rank buckets) is an insertion-ordered association list
      ([pydict]); a dict only read by key is a [gmap].
    - Exceptions are the constructor [Raise] of [result]; [while] loops take
      fuel and answer [OutOfFuel] when it runs out.
    - [int()] and [strptime] are embedded on ASCII text. On text with a
      character above 127 they depend on the Unicode tables of the
      interpreter; there the embedding answers [Unmodelled], which is
      neither a result nor an exception and propagates like one.
    - Methods that mutate the object are functions [Self -> result A * Self]:
      the state reached at the point of a [Raise] is kept, as in Python. *)

From Stdlib Require Import ZArith Ascii String List Lia Sorting.Sorted Sorting.Permutation.
From stdpp Require Import base option list strings gmap pretty sorting.

Local Open Scope Z_scope.

(** ** Exceptions and results *)

Inductive exn : Set :=
  | IndexError | KeyError | ValueError | TypeError | AttributeError | OverflowError.

Inductive result (A : Type) : Type :=
  | Done (a : A)
  | Raise (e : exn)
  | OutOfFuel
  | Unmodelled.
Arguments Done {A} a.
Arguments Raise {A} e.
Arguments OutOfFuel {A}.
Arguments Unmodelled {A}.

#[global] Instance result_ret : MRet result := @Done.
#[global] Instance result_bind : MBind result := fun A B f m =>
  match m with
  | Done a => f a
  | Raise e => Raise e
  | OutOfFuel => OutOfFuel
  | Unmodelled => Unmodelled
  end.

(** [l[i]] for a non-negative index. *)
Definition getitem {A} (l : list A) (i : nat) : result A :=
  match l !! i with
  | Some x => Done x
  | None => Raise IndexError
  end.

(** ** Strings, [int()] and [%] formatting *)

(** Text without a character above 127. *)
Definition ascii_text (s : string) : bool :=
  forallb (fun c => (N_of_ascii c <? 128)%N) (list_ascii_of_string s).

(** The white space that [int()] skips around an ASCII literal: the
    characters 9 to 13 and the blank. *)
Definition is_space (c : ascii) : bool :=
  let n := N_of_ascii c in
  ((9 <=? n) && (n <=? 13) || (n =? 32))%N.

Definition digit_val (c : ascii) : option Z :=
  let n := Z.of_N (N_of_ascii c) in
  if (48 <=? n) && (n <=? 57) then Some (n - 48) else None.

Fixpoint lstrip (l : list ascii) : list ascii :=
  match l with
  | c :: l' => if is_space c then lstrip l' else l
  | [] => []
  end.

Definition strip (l : list ascii) : list ascii := rev (lstrip (rev (lstrip l))).

(** Digits after the first one; a single underscore may separate two digits. *)
Fixpoint int_digits (acc : Z) (l : list ascii) : option Z :=
  match l with
  | [] => Some acc
  | c :: l' =>
      match digit_val c with
      | Some d => int_digits (acc * 10 + d) l'
      | None =>
          if decide (c = "_"%char) then
            match l' with
            | c' :: l'' =>
                match digit_val c' with
                | Some d => int_digits (acc * 10 + d) l''
                | None => None
                end
            | [] => None
            end
          else None
      end
  end.

Definition int_unsigned (l : list ascii) : option Z :=
  match l with
  | c :: l' =>
      match digit_val c with
      | Some d => int_digits d l'
      | None => None
      end
  | [] => None
  end.

(** The number of digits of a literal, leading zeros included. *)
Definition digit_count (l : list ascii) : nat :=
  length (filter (fun c => is_Some (digit_val c)) l).

(** The most digits that [int()] converts (the default of
    [sys.get_int_max_str_digits()]). *)
Definition MAX_STR_DIGITS : nat := 4300.

(** [int(s)] for an ASCII string [s] in base ten: surrounding white space,
    an optional sign, decimal digits with single underscores between them,
    at most [MAX_STR_DIGITS] digits. Anything else raises [ValueError]. *)
Definition py_int (s : string) : result Z :=
  if negb (ascii_text s) then Unmodelled
  else
    let l := strip (list_ascii_of_string s) in
    let v :=
      match l with
      | c :: l' =>
          if decide (c = "-"%char) then Z.opp <$> int_unsigned l'
          else if decide (c = "+"%char) then int_unsigned l'
          else int_unsigned l
      | [] => None
      end in
    match v with
    | Some z => if (MAX_STR_DIGITS <? digit_count l)%nat then Raise ValueError else Done z
    | None => Raise ValueError
    end.

Fixpoint zeros (n : nat) : string :=
  match n with
  | O => EmptyString
  | S n' => String "0" (zeros n')
  end.

(** [s.rjust(width, "0")] *)
Definition zfill (width : nat) (s : string) : string :=
  zeros (width - String.length s) +:+ s.

(** ["%04d" % n] *)
Definition fmt_04d (n : Z) : string :=
  if n <? 0 then "-" +:+ zfill 3 (pretty (- n)) else zfill 4 (pretty n).

(** ["%02d" % n], as [time.__str__] prints each field. *)
Definition fmt_02d (n : Z) : string :=
  if n <? 0 then "-" +:+ zfill 1 (pretty (- n)) else zfill 2 (pretty n).

(** ** Insertion-ordered dictionaries

    A Python dict keeps its keys in insertion order; assigning to a key that
    is present replaces the value and keeps the position. *)

Definition pydict (K V : Type) : Type := list (K * V).

Section pydict.
Context {K V : Type} `{EqDecision K}.

Fixpoint dict_get (k : K) (d : pydict K V) : option V :=
  match d with
  | [] => None
  | (k', v) :: d' => if decide (k' = k) then Some v else dict_get k d'
  end.

Fixpoint dict_set (k : K) (v : V) (d : pydict K V) : pydict K V :=
  match d with
  | [] => [(k, v)]
  | (k', v') :: d' =>
      if decide (k' = k) then (k, v) :: d' else (k', v') :: dict_set k v d'
  end.

Definition dict_keys (d : pydict K V) : list K := d.*1.
Definition dict_values (d : pydict K V) : list V := d.*2.

(** [d[k]] *)
Definition dict_getitem (k : K) (d : pydict K V) : result V :=
  match dict_get k d with
  | Some v => Done v
  | None => Raise KeyError
  end.
End pydict.

(** ** [datetime], [timedelta] and [strptime]

    A [datetime] with no sub-second part is the number of seconds since
    the midnight before 0001-01-01, the day of ordinal 1 (so that
    [dt / 86400] is [toordinal()] and [dt mod 86400] the time of day). *)

Definition MAXYEAR : Z := 9999.

Definition days_before_year (year : Z) : Z :=
  let y := year - 1 in
  y * 365 + y / 4 - y / 100 + y / 400.

Definition MAXORDINAL : Z := days_before_year (MAXYEAR + 1).

(** An integer that fits the C [int] into which [datetime()] converts each
    of its arguments. *)
Definition c_int (z : Z) : bool := (- 2 ^ 31 <=? z) && (z <? 2 ^ 31).

(** [datetime(year, 1, 1, hour, minute, second)]: [OverflowError] for an
    argument that does not fit a C [int], [ValueError] for one that is out
    of range. *)
Definition datetime_jan1 (year hour minute second : Z) : result Z :=
  if negb (c_int year && c_int hour && c_int minute && c_int second)
  then Raise OverflowError
  else if (1 <=? year) && (year <=? MAXYEAR)
     && (0 <=? hour) && (hour <=? 23)
     && (0 <=? minute) && (minute <=? 59)
     && (0 <=? second) && (second <=? 59)
  then Done ((days_before_year year + 1) * 86400 + hour * 3600 + minute * 60 + second)
  else Raise ValueError.

(** [dt + timedelta(seconds=n)]: [OverflowError] when the sum leaves the
    years 1..9999 (a [timedelta] of more than 999999999 days, itself an
    [OverflowError], always does). *)
Definition datetime_add_seconds (dt n : Z) : result Z :=
  let r := dt + n in
  if (86400 <=? r) && (r <? (MAXORDINAL + 1) * 86400) then Done r
  else Raise OverflowError.

(** [dt.hour] *)
Definition datetime_hour (dt : Z) : Z := dt mod 86400 / 3600.

(** [str(dt.time())] *)
Definition time_str (dt : Z) : string :=
  let s := dt mod 86400 in
  fmt_02d (s / 3600) +:+ ":" +:+ fmt_02d (s / 60 mod 60) +:+ ":" +:+ fmt_02d (s mod 60).

(** One field of [%H], [%M] or [%S]: two digits when two follow, else one. *)
Definition take_field (l : list ascii) : option (Z * list ascii) :=
  match l with
  | c1 :: rest =>
      match digit_val c1 with
      | Some a =>
          match rest with
          | c2 :: rest' =>
              match digit_val c2 with
              | Some b => Some (10 * a + b, rest')
              | None => Some (a, rest)
              end
          | [] => Some (a, [])
          end
      | None => None
      end
  | [] => None
  end.

Definition expect_colon (l : list ascii) : option (list ascii) :=
  match l with
  | c :: rest => if decide (c = ":"%char) then Some rest else None
  | [] => None
  end.

(** [datetime.strptime(s, "%H:%M:%S")] for an ASCII string [s]: the date
    is 1900-01-01. *)
Definition strptime_HMS (s : string) : result Z :=
  if negb (ascii_text s) then Unmodelled
  else
    let parsed :=
      '(h, l1) ← take_field (list_ascii_of_string s);
      l2 ← expect_colon l1;
      '(m, l3) ← take_field l2;
      l4 ← expect_colon l3;
      '(sec, l5) ← take_field l4;
      match l5 with
      | [] => Some (h, m, sec)
      | _ => None
      end in
    match parsed with
    | Some (h, m, sec) => datetime_jan1 1900 h m sec
    | None => Raise ValueError
    end.

(** ** [calculateFrequencyMinutes] *)

(** The loop [while current_min < 60: minutes.append(current_min);
    current_min += frequency]. *)
Fixpoint minutes_loop (fuel : nat) (frequency current_min : Z) (minutes : list Z)
  : result (list Z) :=
  if current_min <? 60 then
    match fuel with
    | O => OutOfFuel
    | S fuel' =>
        minutes_loop fuel' frequency (current_min + frequency) (minutes ++ [current_min])
    end
  else Done minutes.

(** The frequency expander; [None] is Python's [None], the no-service value. *)
Definition calculateFrequencyMinutes (fuel : nat) (frequency shift_min : Z)
  : result (option (list Z)) :=
  if (frequency >? 60) || (frequency <? 1) then Done None
  else
    minutes ← minutes_loop fuel frequency shift_min [];
    Done (Some minutes).


(** ** Built-ins on lists *)

(** [min(l)] *)
Definition py_min (l : list Z) : result Z :=
  match l with
  | [] => Raise ValueError
  | x :: l' => Done (foldl Z.min x l')
  end.

(** The position of the first element equal to [x], if any. *)
Fixpoint index_of {A} `{EqDecision A} (x : A) (l : list A) : option nat :=
  match l with
  | [] => None
  | y :: l' => if decide (y = x) then Some O else S <$> index_of x l'
  end.

(** [l.index(x)] *)
Definition py_index {A} `{EqDecision A} (x : A) (l : list A) : result nat :=
  match index_of x l with
  | Some i => Done i
  | None => Raise ValueError
  end.

(** [l[a:b]] for non-negative [a] and [b] *)
Definition py_slice {A} (a b : nat) (l : list A) : list A := take (b - a) (drop a l).

(** ** [apps/node.py] *)

Record Node : Type := mkNode {
  node_id : string;
  node_name : string;
  node_stops : list (string * string)  (* (route id, stop id) *)
}.

(** [list(permutations(node_stops, 2))], computed by [generateConnections]
    when a [Node] is constructed. *)
Definition generateConnections (n : Node) : list ((string * string) * (string * string)) :=
  let indexed := imap (fun i x => (i, x)) (node_stops n) in
  '(i, x) ← indexed;
  '(j, y) ← indexed;
  if decide (i = j) then [] else [(x, y)].

(** ** The object state *)

Definition START_DAY_HOUR : Z := 3.

Definition stop_list : Type := list (string * string).   (* [stop id, travel time] *)
Definition trip : Type := pydict string string.          (* stop id -> "HH:MM:SS" *)
Definition route_trips : Type := pydict string trip.     (* trip id -> trip *)

Record Self : Type := mkSelf {
  routes : list (list string);
  buses : list (list string);
  nodes : list Node;
  frequency : list (list string);
  priority : list (list string);
  routes_stops : gmap string stop_list;
  routes_schedules : gmap string route_trips;
  routes_schedules_finalized : gmap string bool;
  routes_order : option (list string);  (* unset until [arrangeRoutes] runs *)
  stdout : list string                  (* the lines printed so far *)
}.

Definition set_priority (v : list (list string)) (s : Self) : Self :=
  mkSelf (routes s) (buses s) (nodes s) (frequency s) v (routes_stops s)
         (routes_schedules s) (routes_schedules_finalized s) (routes_order s) (stdout s).
Definition set_routes_stops (v : gmap string stop_list) (s : Self) : Self :=
  mkSelf (routes s) (buses s) (nodes s) (frequency s) (priority s) v
         (routes_schedules s) (routes_schedules_finalized s) (routes_order s) (stdout s).
Definition set_routes_schedules (v : gmap string route_trips) (s : Self) : Self :=
  mkSelf (routes s) (buses s) (nodes s) (frequency s) (priority s) (routes_stops s)
         v (routes_schedules_finalized s) (routes_order s) (stdout s).
Definition set_routes_schedules_finalized (v : gmap string bool) (s : Self) : Self :=
  mkSelf (routes s) (buses s) (nodes s) (frequency s) (priority s) (routes_stops s)
         (routes_schedules s) v (routes_order s) (stdout s).
Definition set_routes_order (v : option (list string)) (s : Self) : Self :=
  mkSelf (routes s) (buses s) (nodes s) (frequency s) (priority s) (routes_stops s)
         (routes_schedules s) (routes_schedules_finalized s) v (stdout s).
Definition set_stdout (v : list string) (s : Self) : Self :=
  mkSelf (routes s) (buses s) (nodes s) (frequency s) (priority s) (routes_stops s)
         (routes_schedules s) (routes_schedules_finalized s) (routes_order s) v.

(** ** Methods: state and exceptions *)

Definition M (A : Type) : Type := Self -> result A * Self.

#[global] Instance M_ret : MRet M := fun A a s => (Done a, s).
#[global] Instance M_bind : MBind M := fun A B f m s =>
  match m s with
  | (Done a, s') => f a s'
  | (Raise e, s') => (Raise e, s')
  | (OutOfFuel, s') => (OutOfFuel, s')
  | (Unmodelled, s') => (Unmodelled, s')
  end.

Definition get_self : M Self := fun s => (Done s, s).
Definition modify (f : Self -> Self) : M unit := fun s => (Done tt, f s).
Definition lift {A} (r : result A) : M A := fun s => (r, s).
Definition raise {A} (e : exn) : M A := fun s => (Raise e, s).
Definition print (line : string) : M unit :=
  modify (fun s => set_stdout (stdout s ++ [line]) s).

(** [for x in l: body x] *)
Fixpoint for_each {A} (l : list A) (body : A -> M unit) : M unit :=
  match l with
  | [] => mret tt
  | x :: l' => body x;; for_each l' body
  end.

(** [d[k]] for a [gmap] *)
Definition map_getitem {V} (k : string) (d : gmap string V) : result V :=
  match d !! k with
  | Some v => Done v
  | None => Raise KeyError
  end.

(** ** [arrangeRoutes] *)

(** The comprehension
    [[[rp[4], rp[5]] for rp in self.routes if rp[0]==priority[0] and rp[4]!=EmptyString]]. *)
Fixpoint route_stops_of (priority_row : list string) (route_points : list (list string))
  : result stop_list :=
  match route_points with
  | [] => Done []
  | route_point :: rest =>
      r0 ← getitem route_point 0;
      p0 ← getitem priority_row 0;
      keep ← (if decide (r0 = p0)
              then r4 ← getitem route_point 4; Done (negb (bool_decide (r4 = EmptyString)))
              else Done false);
      if keep : bool then
        r4 ← getitem route_point 4;
        r5 ← getitem route_point 5;
        stops ← route_stops_of priority_row rest;
        Done ((r4, r5) :: stops)
      else route_stops_of priority_row rest
  end.

(** [[int(priority[1]) for priority in priority_routes]] *)
Fixpoint ranks_of (priority_routes : list (list string)) : result (list Z) :=
  match priority_routes with
  | [] => Done []
  | priority_row :: rest =>
      p1 ← getitem priority_row 1;
      rank ← py_int p1;
      ranks ← ranks_of rest;
      Done (rank :: ranks)
  end.

(** [self.routes_order.append(x)] *)
Definition routes_order_append (x : string) : M unit :=
  self ← get_self;
  match routes_order self with
  | Some order => modify (set_routes_order (Some (order ++ [x])))
  | None => raise AttributeError
  end.

(** The selection loop [for i in range(len(priority_routes))]. *)
Fixpoint order_loop (n : nat) (priority_routes_loop : list Z) : M unit :=
  match n with
  | O => mret tt
  | S n' =>
      least ← lift (py_min priority_routes_loop);
      priority_min_index ← lift (py_index least priority_routes_loop);
      self ← get_self;
      priority_row ← lift (getitem (priority self) priority_min_index);
      route ← lift (getitem priority_row 0);
      routes_order_append route;;
      order_loop n' (<[priority_min_index := 20]> priority_routes_loop)
  end.

(** The body of the loop [for priority in self.priority]. *)
Definition arrange_route (priority_row : list string) : M unit :=
  self ← get_self;
  stops ← lift (route_stops_of priority_row (routes self));
  p0 ← lift (getitem priority_row 0);
  modify (fun s => set_routes_stops (<[p0 := stops]> (routes_stops s)) s);;
  p0 ← lift (getitem priority_row 0);
  modify (fun s => set_routes_schedules (<[p0 := []]> (routes_schedules s)) s).

Definition arrangeRoutes : M unit :=
  self ← get_self;
  match priority self with
  | [] => raise IndexError   (* del self.priority[0] *)
  | _ :: rows =>
      modify (set_priority rows);;
      for_each rows arrange_route;;
      let priority_routes := rows in
      modify (set_routes_order (Some []));;
      priority_routes_loop ← lift (ranks_of priority_routes);
      order_loop (length priority_routes) priority_routes_loop
  end.

(** ** [generateTrip] and [generateRouteSchedule] *)

(** The loop [for route_stop in self.routes_stops[current_route]]. *)
Fixpoint trip_stops_loop (current_route trip_id : string) (stops : stop_list) (trip_time : Z)
  : M unit :=
  match stops with
  | [] => mret tt
  | route_stop :: rest =>
      seconds ← lift (py_int route_stop.2);
      trip_time ← lift (datetime_add_seconds trip_time seconds);
      self ← get_self;
      trips ← lift (map_getitem current_route (routes_schedules self));
      t ← lift (dict_getitem trip_id trips);
      let t := dict_set route_stop.1 (time_str trip_time) t in
      modify (fun s =>
        set_routes_schedules (<[current_route := dict_set trip_id t trips]> (routes_schedules s)) s);;
      trip_stops_loop current_route trip_id rest trip_time
  end.

Definition generateTrip (current_route trip_id : string) (current_hour trip_minute : Z)
  : M unit :=
  self ← get_self;
  trips ← lift (map_getitem current_route (routes_schedules self));
  modify (fun s =>
    set_routes_schedules (<[current_route := dict_set trip_id [] trips]> (routes_schedules s)) s);;
  trip_time ← lift (datetime_jan1 2000 current_hour trip_minute 0);
  self ← get_self;
  stops ← lift (map_getitem current_route (routes_stops self));
  trip_stops_loop current_route trip_id stops trip_time.

(** The loop [for trip_minute in freq_minutes]; answers the last [trip_id_num]. *)
Fixpoint trips_loop (current_route : string) (current_hour : Z) (freq_minutes : list Z)
    (trip_id_num : Z) : M Z :=
  match freq_minutes with
  | [] => mret trip_id_num
  | trip_minute :: rest =>
      let trip_id_num := trip_id_num + 1 in
      let trip_id := current_route +:+ fmt_04d trip_id_num in
      generateTrip current_route trip_id current_hour trip_minute;;
      trips_loop current_route current_hour rest trip_id_num
  end.

(** The loop [for current_hour_freq in current_route_frequency], with its
    [continue] and [break]. *)
Fixpoint schedule_loop (fuel : nat) (current_route : string)
    (current_route_frequency : list string) (current_hour count trip_id_num : Z) : M unit :=
  match current_route_frequency with
  | [] => mret tt
  | current_hour_freq :: rest =>
      let current_hour := if current_hour =? 24 then 0 else current_hour in
      f ← lift (py_int current_hour_freq);
      freq_minutes ← lift (calculateFrequencyMinutes fuel f 0);
      match freq_minutes with
      | None =>
          schedule_loop fuel current_route rest (current_hour + 1) (count + 1) trip_id_num
      | Some freq_minutes =>
          trip_id_num ← trips_loop current_route current_hour freq_minutes trip_id_num;
          if count =? 23 then mret tt
          else schedule_loop fuel current_route rest (current_hour + 1) (count + 1) trip_id_num
      end
  end.

(** [[route[0] for route in self.frequency]] *)
Fixpoint first_column (rows : list (list string)) : result (list string) :=
  match rows with
  | [] => Done []
  | row :: rest =>
      x ← getitem row 0;
      xs ← first_column rest;
      Done (x :: xs)
  end.

Definition generateRouteSchedule (fuel : nat) (route period : string) : M unit :=
  let current_route := route in
  self ← get_self;
  ids ← lift (first_column (frequency self));
  row_index ← lift (py_index current_route ids);
  current_route_frequency ← lift (getitem (frequency self) row_index);
  header ← lift (getitem (frequency self) 0);
  header_start_index ← lift (py_index (period +:+ "00") header);
  header ← lift (getitem (frequency self) 0);
  header_fin_index ← lift (py_index (period +:+ "23") header);
  let current_route_frequency :=
    py_slice header_start_index (header_fin_index + 1) current_route_frequency in
  let current_route_frequency :=
    drop (Z.to_nat START_DAY_HOUR) current_route_frequency
    ++ take (Z.to_nat START_DAY_HOUR) current_route_frequency in
  schedule_loop fuel current_route current_route_frequency START_DAY_HOUR 0 0.

(** [generateSchedules(period)] *)
Definition generateSchedules (fuel : nat) (period : string) : M unit :=
  self ← get_self;
  match routes_order self with
  | None => raise AttributeError
  | Some order =>
      for_each order (fun route =>
        modify (fun s =>
          set_routes_schedules_finalized (<[route := false]> (routes_schedules_finalized s)) s);;
        generateRouteSchedule fuel route period;;
        self ← get_self;
        trips ← lift (map_getitem route (routes_schedules self));
        print ("Route: " +:+ route +:+ " -- Trips: " +:+ pretty (Z.of_nat (length trips))));;
      print "Schedules created."
  end.

(** ** [shiftTripTime] and [shiftHourlyTripTimes] *)

(** The loop [for stop in trip] over the keys of the dict it updates. *)
Fixpoint shift_loop (stops : list string) (seconds : Z) (t : trip) : result trip :=
  match stops with
  | [] => Done t
  | stop :: rest =>
      value ← dict_getitem stop t;
      timeStart ← strptime_HMS value;
      timeFinish ← datetime_add_seconds timeStart seconds;
      shift_loop rest seconds (dict_set stop (time_str timeFinish) t)
  end.

(** [shiftTripTime(trip, seconds)], [seconds] an [int]: the dict it returns
    is the argument, updated in place. *)
Definition shiftTripTime (t : trip) (seconds : Z) : result trip :=
  shift_loop (dict_keys t) seconds t.

(** The body of [shiftHourlyTripTimes] is its docstring. *)
Definition shiftHourlyTripTimes (trips : gmap string route_trips) (route : string)
    (hour seconds : Z) : M unit :=
  mret tt.

(** ** [getOrderedRoutes] *)

(** The loop [for priority in priority_routes] that fills one bucket. *)
Fixpoint bucket_loop (priority_routes : list (list string)) (priority_num : Z)
    (single_priority : pydict Z (list string)) : result (pydict Z (list string)) :=
  match priority_routes with
  | [] => Done single_priority
  | priority_row :: rest =>
      p1 ← getitem priority_row 1;
      rank ← py_int p1;
      if rank =? priority_num then
        p0 ← getitem priority_row 0;
        bucket ← dict_getitem priority_num single_priority;
        if decide (p0 ∈ bucket) then bucket_loop rest priority_num single_priority
        else
          bucket ← dict_getitem priority_num single_priority;
          bucket_loop rest priority_num (dict_set priority_num (bucket ++ [p0]) single_priority)
      else bucket_loop rest priority_num single_priority
  end.

(** The loop [while True] with its [break] at [priority_num == 20]. *)
Fixpoint ordered_routes_loop (fuel : nat) (priority_routes : list (list string))
    (priority_num : Z) (single_priority : pydict Z (list string))
  : result (pydict Z (list string)) :=
  match fuel with
  | O => OutOfFuel
  | S fuel' =>
      let single_priority := dict_set priority_num [] single_priority in
      single_priority ← bucket_loop priority_routes priority_num single_priority;
      let priority_num := priority_num + 1 in
      if priority_num =? 20 then Done single_priority
      else ordered_routes_loop fuel' priority_routes priority_num single_priority
  end.

Definition getOrderedRoutes (fuel : nat) (priority_routes : list (list string))
  : result (pydict Z (list string)) :=
  ordered_routes_loop fuel priority_routes 1 [].

(** ** The optimizer *)

(** [calculateNodeNumber()] *)
Definition calculateNodeNumber : M (gmap string Z) :=
  self ← get_self;
  mret ((fun stops : stop_list =>
           foldl (fun node_num stop =>
             foldl (fun node_num node =>
               if decide (stop.1 ∈ (node_stops node).*2) then node_num + 1 else node_num)
               node_num (nodes self))
             0 stops) <$> routes_stops self).

(** [Node.evaluateConnectionTime(self, trips)] of [apps/node.py] has no
    parameter [route]: the call
    [node.evaluateConnectionTime(self.routes_schedules, route=route)] raises
    [TypeError] when the arguments are bound, and the method body never runs. *)
Definition call_evaluateConnectionTime (node : Node) (trips : gmap string route_trips)
    (route : string) : M (pydict ((string * string) * (string * string)) Z) :=
  raise TypeError.

(** [evaluateNodeConnections(route)] *)
Fixpoint node_conn_loop (node_list : list Node) (route : string) (route_conn_time : Z) : M Z :=
  match node_list with
  | [] => mret route_conn_time
  | node :: rest =>
      self ← get_self;
      conn_times ← call_evaluateConnectionTime node (routes_schedules self) route;
      let route_conn_time :=
        foldl (fun acc connection => acc + default 0 (dict_get connection conn_times))
              route_conn_time (dict_keys conn_times) in
      node_conn_loop rest route route_conn_time
  end.

Definition evaluateNodeConnections (route : string) : M Z :=
  self ← get_self;
  node_conn_loop (nodes self) route 0.

(** The loop [for i in range(24)] of [minimizeRouteWaitTime]. *)
Fixpoint hours_loop (n : nat) (route : string) (current_hour : Z) : M unit :=
  match n with
  | O => mret tt
  | S n' =>
      let current_hour := if current_hour =? 24 then 0 else current_hour in
      self ← get_self;
      trips ← lift (map_getitem route (routes_schedules self));
      for_each (dict_keys trips) (fun trip_id =>
        self ← get_self;
        trips ← lift (map_getitem route (routes_schedules self));
        t ← lift (dict_getitem trip_id trips);
        first ← lift (getitem (dict_values t) 0);
        trip_start_time ← lift (strptime_HMS first);
        print (pretty (datetime_hour trip_start_time)));;
      hours_loop n' route (current_hour + 1)
  end.

Definition minimizeRouteWaitTime (route : string) : M unit :=
  hours_loop 24 route START_DAY_HOUR.

Definition optimizeNodeConnections (fuel : nat) : M unit :=
  route_node_numbers ← calculateNodeNumber;
  self ← get_self;
  let priority_routes := priority self in
  prioritized_routes ← lift (getOrderedRoutes fuel priority_routes);
  for_each (dict_keys prioritized_routes) (fun priority_category =>
    bucket ← lift (dict_getitem priority_category prioritized_routes);
    for_each bucket (fun route =>
      route_conn_time ← evaluateNodeConnections route;
      print ("Route " +:+ route +:+ " wait time: " +:+ pretty route_conn_time +:+ "s");;
      minimizeRouteWaitTime route)).

(** * Specification-side definitions *)

(** The arithmetic progression [S, S+F, ..., S+(n-1)F]. *)
Definition progression (F S : Z) (n : nat) : list Z :=
  (fun k : nat => S + Z.of_nat k * F) <$> seq 0 n.

(** How many terms of the progression stay below 60. *)
Definition terms_below_60 (F S : Z) : nat := Z.to_nat ((59 - S + F) / F).

(** A priority row [[route id, rank]] and the entry it reads as: the rank
    is the integer that [int()] gives for the second field. *)
Definition priority_entry (row : list string) (e : string * Z) : Prop :=
  row !! 0%nat = Some e.1 /\ exists s, row !! 1%nat = Some s /\ py_int s = Done e.2.

(** The bucket of rank [r] after one more entry: its route is appended when
    its rank is [r] and the bucket does not hold it yet. *)
Definition add_to_bucket (r : Z) (bucket : list string) (e : string * Z) : list string :=
  if decide (e.2 = r /\ e.1 ∉ bucket) then bucket ++ [e.1] else bucket.

(** The bucket of rank [r] for a list of entries. *)
Definition bucket_of (entries : list (string * Z)) (r : Z) : list string :=
  foldl (add_to_bucket r) [] entries.

(** A field of a table row, blank when the row is too short. *)
Definition field (i : nat) (row : list string) : string := default EmptyString (row !! i).

(** The rows of a route with a stop id, as (stop id, travel time) pairs. *)
Definition stops_for (route_points : list (list string)) (rid : string) : stop_list :=
  (fun rp => (field 4 rp, field 5 rp))
    <$> filter (fun rp => field 0 rp = rid /\ field 4 rp <> EmptyString) route_points.

(** The same selection as the specification words it: the rows of a route
    with a travel time. *)
Definition stops_claimed (route_points : list (list string)) (rid : string) : stop_list :=
  (fun rp => (field 4 rp, field 5 rp))
    <$> filter (fun rp => field 0 rp = rid /\ field 5 rp <> EmptyString) route_points.

(** The state after the loop body of [arrangeRoutes] for one route id. *)
Definition register_route (route_points : list (list string)) (s : Self) (rid : string) : Self :=
  set_routes_schedules (<[rid := []]> (routes_schedules s))
    (set_routes_stops (<[rid := stops_for route_points rid]> (routes_stops s)) s).

(** The rank at a position of the priority table. *)
Definition rank_at (ranks : list Z) (i : nat) : Z := default 0 (ranks !! i).

(** Position [i] comes before position [j]: a lower rank, or the same rank
    and an earlier row. *)
Definition picked_before (ranks : list Z) (i j : nat) : Prop :=
  rank_at ranks i < rank_at ranks j \/ (rank_at ranks i = rank_at ranks j /\ (i < j)%nat).

(** The route id at a position of the priority table. *)
Definition route_at (entries : list (string * Z)) (i : nat) : string :=
  default EmptyString (entries.*1 !! i).

(** The positions that the selection loop of [arrangeRoutes] picks, in
    order: each time the first position of the least remaining rank, which
    is then overwritten with 20. *)
Fixpoint select (n : nat) (L : list Z) : list nat :=
  match n with
  | O => []
  | S n' =>
      match py_min L with
      | Done least =>
          match index_of least L with
          | Some i => i :: select n' (<[i := 20]> L)
          | None => []
          end
      | _ => []
      end
  end.

(** A rank that has not been overwritten with 20. *)
Definition live (x : Z) : Prop := x <> 20.

(** A route table with a first stop whose travel time is blank. *)
Definition blank_first_stop : Self :=
  mkSelf [["27"; "0"; "1"; "1"; "A"; EmptyString]; ["27"; "0"; "1"; "2"; "B"; "120"]]
         [] [] [] [["route"; "priority"]; ["27"; "1"]] ∅ ∅ ∅ None [].

(** A priority table of three routes, two of them of equal rank. *)
Definition three_routes : Self :=
  mkSelf [["10"; "0"; "1"; "1"; "P"; "0"]; ["11"; "0"; "1"; "1"; "Q"; "0"]]
         [] [] []
         [["route"; "priority"]; ["12"; "3"]; ["10"; "1"]; ["11"; "1"]] ∅ ∅ ∅ None [].

(** The character of a decimal digit. *)
Definition digit_char (d : Z) : ascii := ascii_of_N (Z.to_N (48 + d)).

(** The string ["HH:MM:SS"] of an hour, a minute and a second. *)
Definition hms (h m s : Z) : string :=
  fmt_02d h +:+ ":" +:+ fmt_02d m +:+ ":" +:+ fmt_02d s.

(** A stop time as the system writes it: two digits per field, a time of day. *)
Definition HMS_string (v : string) : Prop :=
  exists h m s, 0 <= h <= 23 /\ 0 <= m <= 59 /\ 0 <= s <= 59 /\ v = hms h m s.

(** The time of day, in seconds, that a stop time denotes. *)
Definition time_of_day (v : string) : option Z :=
  match strptime_HMS v with
  | Done dt => Some (dt mod 86400)
  | _ => None
  end.

(** Midnight of 1900-01-01 and of 2000-01-01, in seconds. *)
Definition epoch_1900 : Z := (days_before_year 1900 + 1) * 86400.
Definition epoch_2000 : Z := (days_before_year 2000 + 1) * 86400.

(** One entry of a trip before and after [shiftTripTime]'s loop body. *)
Definition shifted (seconds : Z) (kv kv' : string * string) : Prop :=
  kv'.1 = kv.1
  /\ exists timeStart timeFinish,
       strptime_HMS kv.2 = Done timeStart
       /\ datetime_add_seconds timeStart seconds = Done timeFinish
       /\ kv'.2 = time_str timeFinish.

(** A trip that ends just before midnight. *)
Definition late_trip : trip := [("A", "23:58:45"); ("B", "23:59:10")].

(** A method that leaves [routes_schedules] as it found it, whatever it
    returns or raises. *)
Definition keeps_schedules {A} (m : M A) : Prop :=
  forall s, routes_schedules (m s).2 = routes_schedules s.

(** The sum of a list of integers. *)
Definition total (l : list Z) : Z := foldr Z.add 0 l.

(** The instants at which the stops of a trip are reached: the start plus
    the travel times accumulated so far. *)
Fixpoint stop_instants (start : Z) (travel_times : list Z) : list Z :=
  match travel_times with
  | [] => []
  | x :: rest => (start + x) :: stop_instants (start + x) rest
  end.

(** What [generateTrip]'s loop writes into the trip [t]: for each stop, in
    order, its time of day under its stop id. *)
Definition record_stops (t : trip) (stops : stop_list) (instants : list Z) : trip :=
  foldl (fun t '(stop, instant) => dict_set stop.1 (time_str instant) t) t
        (zip stops instants).

(** A route that runs past midnight, and a loop route that ends where it
    starts. *)
Definition midnight_route : Self :=
  mkSelf [] [] [] [] [] {[ "27" := [("A", "0"); ("B", "3600")] ]} {[ "27" := [] ]} ∅ None [].
Definition loop_route : Self :=
  mkSelf [] [] [] [] [] {[ "27" := [("A", "0"); ("B", "120"); ("A", "90")] ]}
         {[ "27" := [] ]} ∅ None [].

(** Four decimal digits. *)
Definition digits4 (n : Z) : string :=
  String (digit_char (n / 1000))
    (String (digit_char (n / 100 mod 10))
       (String (digit_char (n / 10 mod 10))
          (String (digit_char (n mod 10)) EmptyString))).

(** The trip ids of the counters 1 to [n], in order. *)
Definition trip_ids (route : string) (n : Z) : list string :=
  (fun k => route +:+ fmt_04d k) <$> seqZ 1 n.

(** Strictly before, in the order of Python's [<] on strings. *)
Definition string_lt (a b : string) : Prop := (a ?= b)%string = Lt.


(** The scenario of route "27": the header of the frequency table for the
    period "MF", the stops of the route and its first trip. *)
Definition MF_header : list string :=
  ["route"; "MF00"; "MF01"; "MF02"; "MF03"; "MF04"; "MF05"; "MF06"; "MF07"; "MF08";
   "MF09"; "MF10"; "MF11"; "MF12"; "MF13"; "MF14"; "MF15"; "MF16"; "MF17"; "MF18";
   "MF19"; "MF20"; "MF21"; "MF22"; "MF23"].

Definition stops_27 : stop_list := [("A", "0"); ("B", "120"); ("C", "90")].

Definition first_trip_27 : trip :=
  [("A", "03:00:00"); ("B", "03:02:00"); ("C", "03:03:30")].

(** No service before 03:00, then a trip every 30 minutes until 06:00 and
    every hour for the rest of the day. *)
Definition scenario_27 : Self :=
  mkSelf [] [] []
    [MF_header;
     ["27"; "0"; "0"; "0"; "30"; "30"; "30"; "60"; "60"; "60"; "60"; "60"; "60"; "60";
      "60"; "60"; "60"; "60"; "60"; "60"; "60"; "60"; "60"; "60"; "60"]]
    [] {[ "27" := stops_27 ]} {[ "27" := [] ]} ∅ None [].

(** A method whose final state is related by [R] to the state it starts
    from, whatever it returns or raises. *)
Definition respects (R : Self -> Self -> Prop) {A} (m : M A) : Prop :=
  forall s, R s (m s).2.

(** The input tables are the same in both states. *)
Definition same_tables (s s' : Self) : Prop :=
  routes s' = routes s /\ buses s' = buses s /\ nodes s' = nodes s
  /\ frequency s' = frequency s.

(** What [arrangeRoutes] sets up is the same in both states. *)
Definition same_plan (s s' : Self) : Prop :=
  priority s' = priority s /\ routes_stops s' = routes_stops s
  /\ routes_order s' = routes_order s.

(** No route is marked as finalized in [s'] that was not in [s]. *)
Definition none_finalized (s s' : Self) : Prop :=
  forall route,
    routes_schedules_finalized s' !! route = Some true ->
    routes_schedules_finalized s !! route = Some true.

(** The lines printed in [s] are still the first lines printed in [s']. *)
Definition output_kept (s s' : Self) : Prop := stdout s `prefix_of` stdout s'.

(** A priority table with a rank above 19. *)
Definition rank_out_of_range : Self :=
  mkSelf [] [] [] []
         [["route"; "priority"]; ["27"; "1"]; ["28"; "1"]; ["29"; "25"]] ∅ ∅ ∅ None [].

(** A state that holds a schedule and a stop list from an earlier run. *)
Definition earlier_run : Self :=
  mkSelf [["10"; "0"; "1"; "1"; "P"; "0"]] [] [] []
         [["route"; "priority"]; ["10"; "1"]]
         {[ "10" := [("Q", "5")]; "99" := [("Z", "7")] ]}
         {[ "10" := [("100001", [("Q", "03:00:05")])];
            "99" := [("990001", [("Z", "03:00:07")])] ]}
         ∅ None [].

(** A route whose first stop has a blank travel time, as [arrangeRoutes]
    registers it from a table with such a row. *)
Definition blank_travel_time : Self :=
  mkSelf [] [] [] [] [] {[ "27" := [("A", EmptyString); ("B", "120")] ]} {[ "27" := [] ]}
         ∅ None [].

(** A stop time moved by [n] seconds, as the loop body of [shiftTripTime]
    does it, and a trip with every stop time moved. *)
Definition shift_value (n : Z) (v : string) : string :=
  match strptime_HMS v with
  | Done dt => time_str (dt + n)
  | _ => v
  end.

Definition shift_values (n : Z) (t : trip) : trip :=
  (fun kv => (kv.1, shift_value n kv.2)) <$> t.

(** Shifts of up to 50 000 000 000 seconds, some 1500 years, keep a date
    of the year 1900 within the years 1..9999. *)
Definition shift_bound : Z := 50000000000.

(** A state with one transfer node and a priority table without its header,
    as [arrangeRoutes] leaves it. *)
Definition one_node : Self :=
  mkSelf [] [] [mkNode "1" "Downtown" [("27", "A"); ("28", "A")]] []
         [["27"; "1"]; ["28"; "2"]] ∅ {[ "27" := []; "28" := [] ]} ∅ (Some ["27"; "28"]) [].

(** The trip that leaves at [h]:[m]: every stop, in order, with its time of
    day, the travel times [secs] accumulated from the departure. *)
Definition trip_at (stops : stop_list) (secs : list Z) (h m : Z) : trip :=
  record_stops [] stops (stop_instants (epoch_2000 + h * 3600 + m * 60) secs).

(** The departures of the hour [h] at the frequency [F]: the minutes 0, F,
    2F, ... below 60, and none for a frequency outside [1,60]. *)
Definition departures_of (h F : Z) : list (Z * Z) :=
  if decide (1 <= F <= 60)
  then (fun m => (h, m)) <$> progression F 0 (terms_below_60 F 0)
  else [].

(** The hours of [n] consecutive cells when the counter of the first one is
    [h]: a counter of 24 is read as 0. *)
Fixpoint hours_from (h : Z) (n : nat) : list Z :=
  match n with
  | O => []
  | S n => let h := if h =? 24 then 0 else h in h :: hours_from (h + 1) n
  end.

(** The hours of a service day in the order they are scheduled: from the
    day-start hour 3 to 23, then 0, 1 and 2. *)
Definition service_hours : list Z := seqZ 3 21 ++ seqZ 0 3.

(** The departures of a service day, [Fs] holding the frequency of the hour
    [h] at position [h]. *)
Definition service_day (Fs : list Z) : list (Z * Z) :=
  mjoin ((fun h => departures_of h (Fs !!! Z.to_nat h)) <$> service_hours).

(** The trips of the departures [deps], numbered from the counter [num + 1]. *)
Fixpoint numbered (route : string) (stops : stop_list) (secs : list Z) (num : Z)
    (deps : list (Z * Z)) : route_trips :=
  match deps with
  | [] => []
  | d :: rest =>
      (route +:+ fmt_04d (num + 1), trip_at stops secs d.1 d.2)
      :: numbered route stops secs (num + 1) rest
  end.

(** The seconds from the end of 2000-01-01 to the end of the year 9999. *)
Definition calendar_left : Z := (MAXORDINAL + 1) * 86400 - epoch_2000 - 86400.

(** The frequencies of route "27" in [scenario_27], hour by hour. *)
Definition frequencies_27 : list Z :=
  [0; 0; 0; 30; 30; 30; 60; 60; 60; 60; 60; 60; 60; 60; 60; 60; 60; 60; 60; 60; 60; 60; 60; 60].

(** The frequency table gives the route the frequencies [Fs] of a day: it
    has a row for the route, its header holds [period+"00"] and, 23 columns
    further, [period+"23"], and the 24 cells of the row under these columns
    read as the integers [Fs]. *)
Definition day_row (freq : list (list string)) (period route : string) (Fs : list Z) : Prop :=
  (exists ids r i row header,
     first_column freq = Done ids
     /\ index_of route ids = Some r
     /\ freq !! r = Some row
     /\ freq !! 0%nat = Some header
     /\ index_of (period +:+ "00") header = Some i
     /\ index_of (period +:+ "23") header = Some (i + 23)%nat
     /\ Forall2 (fun c F => py_int c = Done F) (take 24 (drop i row)) Fs)
  /\ length Fs = 24%nat.

(** The travel times of the stops read as the non-negative integers [secs],
    and their sum stays in the calendar. *)
Definition travel_times (stops : stop_list) (secs : list Z) : Prop :=
  Forall2 (fun st sec => py_int st.2 = Done sec) stops secs
  /\ Forall (fun x => 0 <= x) secs
  /\ total secs < calendar_left.

(** What the tables must hold for a route to get the schedule of a day. *)
Definition day_plan (freq : list (list string)) (all_stops : gmap string stop_list)
    (period route : string) (Fs : list Z) (stops : stop_list) (secs : list Z) : Prop :=
  day_row freq period route Fs
  /\ all_stops !! route = Some stops
  /\ travel_times stops secs.

(** The state after [generateSchedules] has handled the route [p.1] with
    the frequencies, stops and travel times [p.2]: the flag of the route is
    [False], its trips are those of the service day and one line is printed. *)
Definition schedule_of (s : Self) (p : string * (list Z * stop_list * list Z)) : Self :=
  let trips := numbered p.1 p.2.1.2 p.2.2 0 (service_day p.2.1.1) in
  set_stdout
    (stdout s ++ ["Route: " +:+ p.1 +:+ " -- Trips: " +:+ pretty (Z.of_nat (length trips))])
    (set_routes_schedules (<[p.1 := trips]> (routes_schedules s))
       (set_routes_schedules_finalized (<[p.1 := false]> (routes_schedules_finalized s)) s)).

(** [scenario_27] once [arrangeRoutes] has set the order of the routes. *)
Definition scenario_27_arranged : Self := set_routes_order (Some ["27"]) scenario_27.

(** The tables of a city with the single route "27". *)
Definition city_27 : Self :=
  mkSelf [["27"; "0"; "1"; "1"; "A"; "0"]; ["27"; "0"; "1"; "2"; "B"; "120"];
          ["27"; "0"; "1"; "3"; "C"; "90"]]
         [] [] (frequency scenario_27) [["route"; "priority"]; ["27"; "1"]] ∅ ∅ ∅ None [].

(** The hour counter of [generateRouteSchedule] after one cell. *)
Definition next_hour (h : Z) : Z := (if h =? 24 then 0 else h) + 1.

(** [scenario_27] with a cell of the hour 05 that is not a number. *)
Definition scenario_27_blank_cell : Self :=
  mkSelf [] [] []
    [MF_header;
     ["27"; "0"; "0"; "0"; "30"; "30"; "-"; "60"; "60"; "60"; "60"; "60"; "60"; "60";
      "60"; "60"; "60"; "60"; "60"; "60"; "60"; "60"; "60"; "60"; "60"]]
    [] {[ "27" := stops_27 ]} {[ "27" := [] ]} ∅ None [].

(** The hour at which a trip starts: the hour of its first stop time. *)
Definition start_hour (t : trip) : option Z :=
  match head (dict_values t) with
  | Some v =>
      match strptime_HMS v with
      | Done dt => Some (datetime_hour dt)
      | _ => None
      end
  | None => None
  end.

(** What [optimizeNodeConnections] prints for one route when there are no
    nodes: a wait time of 0 seconds, then 24 times the start hours of the
    trips of the route. *)
Definition route_report (route : string) (hours : list Z) : list string :=
  ("Route " +:+ route +:+ " wait time: 0s") :: mjoin (replicate 24 (pretty <$> hours)).

(** The routes in the order in which [optimizeNodeConnections] visits them:
    rank by rank from 1 to 19. *)
Definition visit_order (entries : list (string * Z)) : list string :=
  mjoin (bucket_of entries <$> seqZ 1 19).

(** Two routes with a schedule and no transfer node. *)
Definition no_nodes : Self :=
  mkSelf [] [] [] [] [["28"; "2"]; ["27"; "1"]] ∅
         {[ "27" := [("270001", [("A", "03:00:00"); ("B", "03:02:00")]);
                     ("270002", [("A", "04:00:00"); ("B", "04:02:00")])];
            "28" := [("280001", [("C", "23:59:00")])] ]}
         ∅ (Some ["27"; "28"]) [].

(** The positions of the priority table that hold the rank [r], in table
    order. *)
Definition positions (ranks : list Z) (r : Z) : list nat :=
  filter (fun i => rank_at ranks i = r) (seq 0 (length ranks)).

(** A priority table with a rank that is not a number. *)
Definition rank_not_a_number : Self :=
  mkSelf [["27"; "0"; "1"; "1"; "A"; "0"]] [] [] []
         [["route"; "priority"]; ["27"; "high"]; ["28"; "2"]] ∅ ∅ ∅ None [].

(** The pairs of a stop of the route and a node that lists its stop id, one
    node per pair. *)
Definition node_visits (stops : stop_list) (node_list : list Node) : list Node :=
  stop ← stops; filter (fun node => stop.1 ∈ (node_stops node).*2) node_list.

(** Two routes that meet at the stop "A" of one node. *)
Definition two_routes_one_node : Self :=
  mkSelf [] [] [mkNode "1" "Downtown" [("27", "A"); ("28", "A")]] [] []
         {[ "27" := [("A", "0"); ("B", "120")]; "28" := [("C", "0")] ]} ∅ ∅ None [].




(** * Properties *)

(** ** The frequency expander *)

Lemma progression_S F S n :
  progression F S (Datatypes.S n) = S :: progression F (S + F) n.
Proof.
  unfold progression. cbn [seq fmap list_fmap]. f_equal; [lia|].
  rewrite <- seq_shift, <- list_fmap_compose.
  apply list_fmap_ext. intros _ k _. cbn. lia.
Qed.

Lemma minutes_loop_progression n : forall fuel F cur acc,
  0 < F -> (n <= fuel)%nat ->
  (forall k : nat, (k < n)%nat -> cur + Z.of_nat k * F < 60) ->
  60 <= cur + Z.of_nat n * F ->
  minutes_loop fuel F cur acc = Done (acc ++ progression F cur n).
Proof.
  induction n as [|n IH]; intros fuel F cur acc HF Hfuel Hlt Hge.
  - assert ((cur <? 60) = false) as E by (apply Z.ltb_ge; lia).
    unfold progression. cbn [seq fmap list_fmap]. rewrite app_nil_r.
    destruct fuel; cbn [minutes_loop]; rewrite E; reflexivity.
  - destruct fuel as [|fuel]; [lia|].
    assert ((cur <? 60) = true) as E.
    { apply Z.ltb_lt. specialize (Hlt O). lia. }
    rewrite progression_S. cbn [minutes_loop]. rewrite E.
    rewrite (IH fuel F (cur + F) (acc ++ [cur])); try lia.
    + rewrite <- app_assoc. reflexivity.
    + intros k Hk. specialize (Hlt (Datatypes.S k)). lia.
Qed.

Lemma terms_below_60_spec F S :
  0 < F ->
  (forall k : nat, (k < terms_below_60 F S)%nat -> S + Z.of_nat k * F < 60)
  /\ 60 <= S + Z.of_nat (terms_below_60 F S) * F.
Proof.
  intros HF. unfold terms_below_60.
  pose proof (Z.div_mod (59 - S + F) F ltac:(lia)) as Hdm.
  pose proof (Z.mod_pos_bound (59 - S + F) F HF) as Hm.
  set (q := (59 - S + F) / F) in *.
  destruct (Z.le_gt_cases q 0) as [Hq|Hq].
  - rewrite Z2Nat.nonpos by done. split; [lia|]. cbn. nia.
  - split.
    + intros k Hk. assert (Z.of_nat k <= q - 1) by lia. nia.
    + rewrite Z2Nat.id by lia. nia.
Qed.

Lemma terms_below_60_le F S : 0 < F -> 0 <= S -> (terms_below_60 F S <= 60)%nat.
Proof.
  intros HF HS. unfold terms_below_60.
  assert ((59 - S + F) / F <= 60); [|lia].
  apply Z.div_le_upper_bound; lia.
Qed.

Lemma calculateFrequencyMinutes_in_range fuel F S :
  1 <= F <= 60 -> 0 <= S -> (60 <= fuel)%nat ->
  calculateFrequencyMinutes fuel F S = Done (Some (progression F S (terms_below_60 F S))).
Proof.
  intros HF HS Hfuel. unfold calculateFrequencyMinutes.
  assert (((F >? 60) || (F <? 1)) = false) as ->.
  { rewrite Z.gtb_ltb. apply orb_false_iff. split; apply Z.ltb_ge; lia. }
  destruct (terms_below_60_spec F S ltac:(lia)) as [Hlt Hge].
  pose proof (terms_below_60_le F S ltac:(lia) HS).
  rewrite (minutes_loop_progression (terms_below_60 F S)); [reflexivity|lia|lia|done|done].
Qed.

(** C3. For an integer frequency [F] and a shift [0 <= S]:
    outside [1,60] the expander answers the no-service value [None],
    whatever the fuel; inside, with fuel for the at most 60 turns of its
    loop, it answers the list [S, S+F, S+2F, ...] of exactly the terms below
    60 (the [n] first terms are below 60 and the next one is not).
    In particular [expand(15,0) = [0,15,30,45]], [expand(60,0) = [0]],
    [expand(61,0)] and [expand(0,0)] are [None], and [S >= 60] gives []. *)
Theorem calculateFrequencyMinutes_expand (F S : Z) :
  0 <= S ->
  ((F < 1 \/ 60 < F) -> forall fuel, calculateFrequencyMinutes fuel F S = Done None)
  /\ (1 <= F <= 60 ->
      exists n : nat,
        (forall fuel, (60 <= fuel)%nat ->
           calculateFrequencyMinutes fuel F S = Done (Some (progression F S n)))
        /\ (forall k : nat, (k < n)%nat -> S + Z.of_nat k * F < 60)
        /\ 60 <= S + Z.of_nat n * F
        /\ (60 <= S -> n = O))
  /\ (forall fuel, (60 <= fuel)%nat ->
        calculateFrequencyMinutes fuel 15 0 = Done (Some [0; 15; 30; 45])
        /\ calculateFrequencyMinutes fuel 60 0 = Done (Some [0])
        /\ calculateFrequencyMinutes fuel 61 0 = Done None
        /\ calculateFrequencyMinutes fuel 0 0 = Done None).
Proof.
  intros HS. split; [|split].
  - intros HF fuel. unfold calculateFrequencyMinutes.
    assert (((F >? 60) || (F <? 1)) = true) as ->; [|reflexivity].
    rewrite Z.gtb_ltb. apply orb_true_iff.
    destruct HF; [right | left]; apply Z.ltb_lt; lia.
  - intros HF. exists (terms_below_60 F S).
    destruct (terms_below_60_spec F S ltac:(lia)) as [Hlt Hge].
    repeat split; try done.
    + intros fuel Hfuel. by apply calculateFrequencyMinutes_in_range.
    + intros HS60. destruct (terms_below_60 F S) as [|n]; [done|].
      specialize (Hlt O ltac:(lia)). lia.
  - intros fuel Hfuel.
    rewrite !calculateFrequencyMinutes_in_range by lia.
    repeat split.
Qed.

Lemma calculateFrequencyMinutes_expand_witness :
  0 <= 0 /\ exists n : nat,
    (forall fuel, (60 <= fuel)%nat ->
       calculateFrequencyMinutes fuel 15 0 = Done (Some (progression 15 0 n)))
    /\ 60 <= 0 + Z.of_nat n * 15.
Proof.
  split; [lia|].
  destruct (calculateFrequencyMinutes_expand 15 0 ltac:(lia)) as (_ & H & _).
  destruct (H ltac:(lia)) as (n & Hn & _ & Hge & _).
  exists n. split; assumption.
Defined.

Section pydict_facts.
Context {K V : Type} `{EqDecision K}.
Implicit Types (d : pydict K V) (k : K) (v : V).

Lemma dict_get_None k d : dict_get k d = None <-> k ∉ dict_keys d.
Proof.
  unfold dict_keys. induction d as [|[k' v'] d IH]; cbn.
  - split; [intros _; apply not_elem_of_nil | done].
  - rewrite not_elem_of_cons. destruct (decide (k' = k)) as [->|Hne].
    + split; [done | intros [? _]; done].
    + rewrite IH. split; [intros ?; split; [congruence | done] | intros [_ ?]; done].
Qed.

Lemma dict_get_set_eq k v d : dict_get k (dict_set k v d) = Some v.
Proof.
  induction d as [|[k' v'] d IH]; cbn.
  - by rewrite decide_True.
  - destruct (decide (k' = k)) as [->|Hne]; cbn.
    + by rewrite decide_True.
    + by rewrite decide_False.
Qed.

Lemma dict_get_set_ne k k' v d : k <> k' -> dict_get k' (dict_set k v d) = dict_get k' d.
Proof.
  intros Hne. induction d as [|[k0 v0] d IH]; cbn.
  - by rewrite decide_False.
  - destruct (decide (k0 = k)) as [->|Hne0]; cbn.
    + by rewrite !decide_False.
    + destruct (decide (k0 = k')); [done | apply IH].
Qed.

Lemma dict_set_fresh k v d : k ∉ dict_keys d -> dict_set k v d = d ++ [(k, v)].
Proof.
  unfold dict_keys. induction d as [|[k' v'] d IH]; cbn; [done|].
  rewrite not_elem_of_cons. intros [Hne Hnin].
  rewrite decide_False by congruence. by rewrite IH.
Qed.

Lemma dict_set_last k v v' d :
  k ∉ dict_keys d -> dict_set k v (d ++ [(k, v')]) = d ++ [(k, v)].
Proof.
  unfold dict_keys. induction d as [|[k0 v0] d IH]; cbn.
  - intros _. by rewrite decide_True.
  - rewrite not_elem_of_cons. intros [Hne Hnin].
    rewrite decide_False by congruence. by rewrite IH.
Qed.

Lemma dict_get_last k v d : k ∉ dict_keys d -> dict_get k (d ++ [(k, v)]) = Some v.
Proof.
  intros Hnin. rewrite <- (dict_set_fresh k v d Hnin). apply dict_get_set_eq.
Qed.

Lemma dict_keys_set_present k v d :
  k ∈ dict_keys d -> dict_keys (dict_set k v d) = dict_keys d.
Proof.
  unfold dict_keys. induction d as [|[k' v'] d IH]; cbn.
  - intros Hin. by apply elem_of_nil in Hin.
  - intros Hin. destruct (decide (k' = k)) as [->|Hne]; cbn; [done|].
    apply elem_of_cons in Hin as [->|Hin]; [done|]. by rewrite IH.
Qed.

Lemma dict_keys_set_fresh k v d :
  k ∉ dict_keys d -> dict_keys (dict_set k v d) = dict_keys d ++ [k].
Proof.
  intros Hnin. rewrite dict_set_fresh by done. unfold dict_keys. by rewrite fmap_app.
Qed.

Lemma dict_get_app_l k d d' :
  k ∈ dict_keys d -> dict_get k (d ++ d') = dict_get k d.
Proof.
  unfold dict_keys. induction d as [|[k' v'] d IH]; cbn.
  - intros Hin. by apply elem_of_nil in Hin.
  - intros Hin. destruct (decide (k' = k)); [done|].
    apply elem_of_cons in Hin as [->|Hin]; [done | by apply IH].
Qed.

Lemma dict_get_app_r k d d' :
  k ∉ dict_keys d -> dict_get k (d ++ d') = dict_get k d'.
Proof.
  unfold dict_keys. induction d as [|[k' v'] d IH]; cbn; [done|].
  rewrite not_elem_of_cons. intros [Hne Hnin].
  rewrite decide_False by congruence. by apply IH.
Qed.
End pydict_facts.

Lemma getitem_Some {A} (l : list A) i x : l !! i = Some x -> getitem l i = Done x.
Proof. unfold getitem. by intros ->. Qed.

Lemma getitem_Done {A} (l : list A) i x : getitem l i = Done x -> l !! i = Some x.
Proof. unfold getitem. destruct (l !! i); [congruence | done]. Qed.

Lemma dict_getitem_Some {K V} `{EqDecision K} (k : K) (d : pydict K V) v :
  dict_get k d = Some v -> dict_getitem k d = Done v.
Proof. unfold dict_getitem. by intros ->. Qed.

Ltac rbind := cbn [mbind result_bind mret result_ret].

(** ** The rank buckets *)

Lemma bucket_loop_entries rows entries num : forall sp b,
  Forall2 priority_entry rows entries ->
  num ∉ dict_keys sp ->
  bucket_loop rows num (sp ++ [(num, b)])
  = Done (sp ++ [(num, foldl (add_to_bucket num) b entries)]).
Proof.
  intros sp b Hrows. revert b.
  induction Hrows as [|row e rows entries [H0 (s & H1 & Hs)] _ IH]; intros b Hnin; [done|].
  cbn [bucket_loop foldl]. rewrite (getitem_Some _ _ _ H1). rbind.
  rewrite Hs. rbind. unfold add_to_bucket at 2.
  destruct (Z.eqb_spec e.2 num) as [Heq|Hne].
  - rewrite (getitem_Some _ _ _ H0). rbind.
    rewrite !(dict_getitem_Some num _ b) by (by apply dict_get_last). rbind.
    destruct (decide (e.1 ∈ b)) as [Hin|Hnotin].
    + rewrite decide_False by (intros [_ ?]; done). by apply IH.
    + rewrite decide_True by done. rewrite dict_set_last by done. by apply IH.
  - rewrite decide_False by (intros [? _]; done). by apply IH.
Qed.

Lemma ordered_routes_loop_entries rows entries :
  Forall2 priority_entry rows entries ->
  forall fuel num sp,
  1 <= num <= 19 -> 20 - num <= Z.of_nat fuel ->
  (forall r, num <= r -> r ∉ dict_keys sp) ->
  ordered_routes_loop fuel rows num sp
  = Done (sp ++ ((fun r => (r, bucket_of entries r)) <$> seqZ num (20 - num))).
Proof.
  intros Hrows. induction fuel as [|fuel IH]; intros num sp Hnum Hfuel Hfresh; [lia|].
  cbn [ordered_routes_loop].
  rewrite dict_set_fresh by (apply Hfresh; lia).
  rewrite (bucket_loop_entries rows entries) by (done || apply Hfresh; lia).
  cbn [mbind result_bind]. fold (bucket_of entries num).
  rewrite (seqZ_cons num) by lia. cbn [fmap list_fmap].
  destruct (Z.eqb_spec (num + 1) 20) as [Heq|Hne].
  - replace (Z.pred (20 - num)) with 0 by lia. done.
  - replace (Z.succ num) with (num + 1) by lia.
    replace (Z.pred (20 - num)) with (20 - (num + 1)) by lia.
    rewrite IH; try lia.
    + rewrite <- app_assoc. reflexivity.
    + intros r Hr. unfold dict_keys. rewrite fmap_app. cbn.
      rewrite elem_of_app, list_elem_of_singleton.
      intros [Hin| ->]; [by apply (Hfresh r ltac:(lia)) | lia].
Qed.

Lemma getOrderedRoutes_entries rows entries fuel :
  Forall2 priority_entry rows entries -> (19 <= fuel)%nat ->
  getOrderedRoutes fuel rows = Done ((fun r => (r, bucket_of entries r)) <$> seqZ 1 19).
Proof.
  intros Hrows Hfuel. unfold getOrderedRoutes.
  rewrite (ordered_routes_loop_entries rows entries Hrows); [done|lia|lia|].
  intros r _. apply not_elem_of_nil.
Qed.

Lemma add_to_bucket_NoDup r entries : forall b,
  NoDup b -> NoDup (foldl (add_to_bucket r) b entries).
Proof.
  induction entries as [|e entries IH]; intros b Hb; [done|].
  cbn. apply IH. unfold add_to_bucket. case_decide as Hd; [|done].
  destruct Hd as [_ Hnin]. apply NoDup_app. split; [done|]. split.
  - intros x Hx ->%list_elem_of_singleton. done.
  - apply NoDup_singleton.
Qed.

Lemma add_to_bucket_elem r x entries : forall b,
  x ∈ foldl (add_to_bucket r) b entries <-> x ∈ b \/ (x, r) ∈ entries.
Proof.
  induction entries as [|e entries IH]; intros b; cbn.
  - split; [by left | intros [?|Hin]; [done | by apply elem_of_nil in Hin]].
  - rewrite IH, elem_of_cons. unfold add_to_bucket. destruct e as [y ry]. cbn.
    case_decide as Hd.
    + destruct Hd as [-> Hnin]. rewrite elem_of_app, list_elem_of_singleton.
      split; [intros [[?| ->]|?] | intros [?|[[= -> ]|?]]]; eauto.
    + split; [intros [?|?]; eauto|]. intros [?|[[= -> ->]|?]]; eauto.
      left. destruct (decide (y ∈ b)); [done|]. exfalso. apply Hd. done.
Qed.

Lemma bucket_of_NoDup entries r : NoDup (bucket_of entries r).
Proof. apply add_to_bucket_NoDup, NoDup_nil_2. Qed.

Lemma bucket_of_elem entries r x : x ∈ bucket_of entries r <-> (x, r) ∈ entries.
Proof.
  unfold bucket_of. rewrite add_to_bucket_elem. split; [intros [Hin|?]|by right]; [|done].
  by apply elem_of_nil in Hin.
Qed.

(** *** Termination of the bucket construction *)

Lemma bind_fueled {A B} (m : result A) (f : A -> result B) :
  m <> OutOfFuel -> (forall a, m = Done a -> f a <> OutOfFuel) -> m ≫= f <> OutOfFuel.
Proof. destruct m; rbind; [eauto | done | done | done]. Qed.

Lemma getitem_fueled {A} (l : list A) i : getitem l i <> OutOfFuel.
Proof. unfold getitem. by destruct (l !! i). Qed.

Lemma py_int_fueled s : py_int s <> OutOfFuel.
Proof.
  unfold py_int. destruct (negb (ascii_text s)); [done|]. cbn zeta.
  destruct (match strip _ with [] => _ | _ => _ end); [|done].
  by destruct (_ <? _)%nat.
Qed.

Lemma dict_getitem_fueled {K V} `{EqDecision K} (k : K) (d : pydict K V) :
  dict_getitem k d <> OutOfFuel.
Proof. unfold dict_getitem. by destruct (dict_get k d). Qed.

Lemma bucket_loop_fueled rows num : forall sp, bucket_loop rows num sp <> OutOfFuel.
Proof.
  induction rows as [|row rows IH]; intros sp; [done|].
  cbn [bucket_loop].
  apply bind_fueled; [apply getitem_fueled | intros p1 _].
  apply bind_fueled; [apply py_int_fueled | intros rank _].
  destruct (rank =? num); [|apply IH].
  apply bind_fueled; [apply getitem_fueled | intros p0 _].
  apply bind_fueled; [apply dict_getitem_fueled | intros bucket _].
  destruct (decide (p0 ∈ bucket)); [apply IH|].
  apply bind_fueled; [apply dict_getitem_fueled | intros bucket' _]. apply IH.
Qed.

Lemma ordered_routes_loop_fueled rows : forall fuel num sp,
  1 <= num <= 19 -> 20 - num <= Z.of_nat fuel ->
  ordered_routes_loop fuel rows num sp <> OutOfFuel.
Proof.
  induction fuel as [|fuel IH]; intros num sp Hnum Hfuel; [lia|].
  cbn [ordered_routes_loop].
  apply bind_fueled; [apply bucket_loop_fueled | intros sp' _].
  destruct (Z.eqb_spec (num + 1) 20); [done | apply IH; lia].
Qed.

Lemma getOrderedRoutes_fueled rows fuel :
  (19 <= fuel)%nat -> getOrderedRoutes fuel rows <> OutOfFuel.
Proof. intros Hfuel. apply ordered_routes_loop_fueled; lia. Qed.

(** A table on which a bucket scan returns has well-formed rows. *)
Lemma bucket_loop_Done_entries rows num : forall sp sp',
  bucket_loop rows num sp = Done sp' -> exists entries, Forall2 priority_entry rows entries.
Proof.
  induction rows as [|row rows IH]; intros sp sp'; [by exists []|].
  cbn [bucket_loop].
  destruct (getitem row 1) as [p1| | |] eqn:H1; rbind; [|done|done|done].
  apply getitem_Done in H1.
  destruct (py_int p1) as [rank| | |] eqn:Hrank; rbind; [|done|done|done].
  assert (exists p0, row !! 0%nat = Some p0) as [p0 H0].
  { destruct row as [|p0 row]; [done | by exists p0]. }
  intros Hrest.
  assert (exists sp1 sp2, bucket_loop rows num sp1 = Done sp2) as (sp1 & sp2 & Hrec).
  { destruct (rank =? num); [|eauto].
    rewrite (getitem_Some _ _ _ H0) in Hrest. revert Hrest. rbind.
    destruct (dict_getitem num sp) as [bucket| | |]; rbind; [|done|done|done].
    destruct (decide (p0 ∈ bucket)); eauto. }
  destruct (IH _ _ Hrec) as [entries Hentries].
  exists ((p0, rank) :: entries). constructor; [|done].
  split; [done | by exists p1].
Qed.

Lemma getOrderedRoutes_Done_entries rows fuel d :
  getOrderedRoutes fuel rows = Done d -> exists entries, Forall2 priority_entry rows entries.
Proof.
  unfold getOrderedRoutes. destruct fuel as [|fuel]; [done|].
  cbn [ordered_routes_loop].
  destruct (bucket_loop rows 1 _) as [sp'| | |] eqn:Hsp; rbind; [|done|done|done].
  intros _. by eapply bucket_loop_Done_entries.
Qed.

Lemma dict_get_buckets (f : Z -> list string) r b :
  dict_get r ((fun r => (r, f r)) <$> seqZ 1 19) = Some b -> 1 <= r <= 19 /\ b = f r.
Proof.
  intros Hget.
  assert (r ∈ dict_keys ((fun r => (r, f r)) <$> seqZ 1 19)) as Hin.
  { apply dec_stable. intros Hnin. apply dict_get_None in Hnin. congruence. }
  unfold dict_keys in Hin. rewrite <- list_fmap_compose in Hin.
  apply list_elem_of_fmap in Hin as (r' & -> & Hr'). cbn in *.
  apply elem_of_seqZ in Hr'. split; [lia|].
  assert (forall l : list Z, r' ∈ l -> dict_get r' ((fun r => (r, f r)) <$> l) = Some (f r')) as Hl.
  { clear. induction l as [|x l IH]; cbn; [intros H; by apply elem_of_nil in H|].
    intros Hin. destruct (decide (x = r')) as [->|Hne]; [done|].
    apply elem_of_cons in Hin as [->|Hin]; [done | by apply IH]. }
  rewrite Hl in Hget by (apply elem_of_seqZ; lia). congruence.
Qed.

Lemma dict_keys_buckets (f : Z -> list string) :
  dict_keys ((fun r => (r, f r)) <$> seqZ 1 19) = seqZ 1 19.
Proof.
  unfold dict_keys. rewrite <- list_fmap_compose. apply list_fmap_id.
Qed.

(** C2, as stated (refuted). No priority table makes [getOrderedRoutes]
    run for ever: fuel for 19 turns of its loop is always enough. A table
    with the rank 25 gives the 19 buckets, all of them empty. *)
Lemma getOrderedRoutes_always_returns :
  getOrderedRoutes 19 [["29"; "25"]] = Done ((fun r => (r, [])) <$> seqZ 1 19)
  /\ ~ exists rows : list (list string),
        (exists row s z, row ∈ rows /\ row !! 1%nat = Some s /\ py_int s = Done z
                         /\ ~ 1 <= z <= 19)
        /\ forall fuel, getOrderedRoutes fuel rows = OutOfFuel.
Proof.
  split; [by vm_compute|].
  intros (rows & _ & Hloop). by apply (getOrderedRoutes_fueled rows 19 ltac:(lia)).
Qed.

(** C2, amended. On every priority table, ranks outside [1,19] included,
    [getOrderedRoutes] stops after the 19 turns of its loop: it never runs
    out of fuel given 19 or more. When every row reads as (route id, integer
    rank) it returns the buckets of ranks 1 to 19, and an entry with a rank
    outside [1,19] puts its route in no bucket: a route is in bucket [r]
    only through an entry of rank [r], with [1 <= r <= 19]. *)
Theorem getOrderedRoutes_terminates (rows : list (list string)) (fuel : nat) :
  (19 <= fuel)%nat ->
  getOrderedRoutes fuel rows <> OutOfFuel
  /\ forall entries, Forall2 priority_entry rows entries ->
       exists d, getOrderedRoutes fuel rows = Done d
         /\ dict_keys d = seqZ 1 19
         /\ forall r b rid, dict_get r d = Some b -> rid ∈ b ->
              1 <= r <= 19 /\ (rid, r) ∈ entries.
Proof.
  intros Hfuel. split; [by apply getOrderedRoutes_fueled|].
  intros entries Hrows. eexists. split; [by apply getOrderedRoutes_entries|].
  split; [apply dict_keys_buckets|].
  intros r b rid [Hr ->]%dict_get_buckets Hin. split; [done|].
  by apply bucket_of_elem.
Qed.

Lemma getOrderedRoutes_terminates_witness :
  exists d, getOrderedRoutes 19 [["10"; "1"]; ["29"; "25"]] = Done d
            /\ dict_keys d = seqZ 1 19.
Proof.
  destruct (getOrderedRoutes_terminates [["10"; "1"]; ["29"; "25"]] 19 ltac:(lia))
    as [_ H].
  destruct (H [("10", 1); ("29", 25)]) as (d & Hd & Hkeys & _).
  - repeat constructor; cbn; eexists; (split; [reflexivity | by vm_compute]).
  - by exists d.
Defined.

(** C8, as stated (refuted). A route id listed with two ranks is put in
    two buckets. *)
Lemma getOrderedRoutes_two_buckets :
  exists d, getOrderedRoutes 19 [["10"; "1"]; ["10"; "2"]] = Done d
            /\ dict_get 1 d = Some ["10"] /\ dict_get 2 d = Some ["10"].
Proof. eexists. split; [by vm_compute|]. split; reflexivity. Qed.

(** C8, amended. For the entries [("10",1),("11",1),("12",3)] the buckets
    are 1 -> ["10","11"], 3 -> ["12"] and 2 -> [], a key that is present.
    For every priority table whose rows read as (route id, integer rank) the
    function returns, and whenever it returns the keys are the ranks 1..19 in
    order, no bucket holds a route id twice, and a route id is in bucket [r]
    exactly when an entry of the table gives it rank [r]; so a route id that
    the table lists with one rank only is in at most one bucket. *)
Theorem getOrderedRoutes_buckets (rows : list (list string)) (fuel : nat) :
  (19 <= fuel)%nat ->
  (exists d, getOrderedRoutes fuel [["10"; "1"]; ["11"; "1"]; ["12"; "3"]] = Done d
       /\ dict_get 1 d = Some ["10"; "11"]
       /\ dict_get 3 d = Some ["12"]
       /\ dict_get 2 d = Some [])
  /\ (forall entries, Forall2 priority_entry rows entries ->
        exists d, getOrderedRoutes fuel rows = Done d)
  /\ (forall d, getOrderedRoutes fuel rows = Done d ->
        dict_keys d = seqZ 1 19
        /\ exists entries, Forall2 priority_entry rows entries
           /\ (forall r b, dict_get r d = Some b ->
                 NoDup b /\ forall rid, rid ∈ b <-> (rid, r) ∈ entries)
           /\ (forall rid,
                 (forall z z', (rid, z) ∈ entries -> (rid, z') ∈ entries -> z = z') ->
                 forall r r' b b', dict_get r d = Some b -> dict_get r' d = Some b' ->
                   rid ∈ b -> rid ∈ b' -> r = r')).
Proof.
  intros Hfuel. split; [|split].
  - eexists. split.
    + apply (getOrderedRoutes_entries _ [("10", 1); ("11", 1); ("12", 3)]); [|done].
      repeat constructor; cbn; eexists; (split; [reflexivity | by vm_compute]).
    + split; [|split]; reflexivity.
  - intros entries Hrows. eexists. by apply getOrderedRoutes_entries.
  - intros d Hd. destruct (getOrderedRoutes_Done_entries _ _ _ Hd) as [entries Hrows].
    rewrite (getOrderedRoutes_entries _ _ _ Hrows Hfuel) in Hd.
    injection Hd as <-. split; [apply dict_keys_buckets|].
    exists entries. split; [done|]. split.
    + intros r b [_ ->]%dict_get_buckets. split; [apply bucket_of_NoDup|].
      intros rid. apply bucket_of_elem.
    + intros rid Hone r r' b b' [_ ->]%dict_get_buckets [_ ->]%dict_get_buckets.
      rewrite !bucket_of_elem. apply Hone.
Qed.

Lemma getOrderedRoutes_buckets_witness :
  exists d, getOrderedRoutes 19 [["10"; "1"]; ["11"; "1"]; ["12"; "3"]] = Done d
            /\ dict_keys d = seqZ 1 19
            /\ dict_get 1 d = Some ["10"; "11"].
Proof.
  destruct (getOrderedRoutes_buckets [["10"; "1"]; ["11"; "1"]; ["12"; "3"]] 19 ltac:(lia))
    as ((d & Hd & H1 & _) & _ & Hall).
  exists d. split; [done|]. split; [|done].
  by destruct (Hall d Hd) as [Hkeys _].
Defined.


Lemma foldl_min_spec l : forall x,
  (foldl Z.min x l = x \/ foldl Z.min x l ∈ l)
  /\ foldl Z.min x l <= x /\ forall y, y ∈ l -> foldl Z.min x l <= y.
Proof.
  induction l as [|a l IH]; intros x; cbn.
  - split; [by left|]. split; [lia|]. intros y Hy. by apply elem_of_nil in Hy.
  - destruct (IH (Z.min x a)) as (Hin & Hle & Hall). split; [|split].
    + destruct Hin as [Heq|Hin]; [|right; by apply list_elem_of_further].
      destruct (Z.min_spec x a) as [[_ Hm]|[_ Hm]]; rewrite Hm in Heq |- *.
      * by left.
      * right. rewrite Heq. apply list_elem_of_here.
    + lia.
    + intros y [->|Hy]%elem_of_cons; [lia | by apply Hall].
Qed.

Lemma py_min_spec L :
  L <> [] -> exists least, py_min L = Done least /\ least ∈ L /\ forall y, y ∈ L -> least <= y.
Proof.
  destruct L as [|x l]; [done|]. intros _. cbn. eexists. split; [done|].
  destruct (foldl_min_spec l x) as (Hin & Hle & Hall). split.
  - destruct Hin as [->|Hin]; [apply list_elem_of_here | by apply list_elem_of_further].
  - intros y [->|Hy]%elem_of_cons; [done | by apply Hall].
Qed.

Lemma index_of_spec {A} `{EqDecision A} (x : A) l :
  x ∈ l -> exists i, index_of x l = Some i /\ l !! i = Some x
                     /\ forall j, (j < i)%nat -> l !! j <> Some x.
Proof.
  induction l as [|y l IH]; [intros H; by apply elem_of_nil in H|].
  intros Hin. cbn. destruct (decide (y = x)) as [->|Hne].
  - exists O. split; [done|]. split; [done|]. intros j Hj. lia.
  - apply elem_of_cons in Hin as [->|Hin]; [done|].
    destruct (IH Hin) as (i & -> & Hi & Hfirst). exists (S i).
    split; [done|]. split; [done|]. intros [|j] Hj; cbn; [congruence|].
    apply Hfirst. lia.
Qed.

Lemma select_step n L :
  L <> [] -> exists least i, select (S n) L = i :: select n (<[i := 20]> L)
    /\ py_min L = Done least /\ index_of least L = Some i
    /\ L !! i = Some least /\ (forall y, y ∈ L -> least <= y)
    /\ forall j, (j < i)%nat -> L !! j <> Some least.
Proof.
  intros HL. destruct (py_min_spec L HL) as (least & Hmin & Hin & Hle).
  destruct (index_of_spec least L Hin) as (i & Hidx & Hi & Hfirst).
  exists least, i. cbn [select]. rewrite Hmin, Hidx. done.
Qed.

Lemma live_insert (L : list Z) : forall i x,
  L !! i = Some x -> live x ->
  S (length (filter live (<[i := 20]> L))) = length (filter live L).
Proof.
  induction L as [|a L IH]; intros [|i] x Hi Hx; try done.
  - injection Hi as ->. change (<[O := 20]> (x :: L)) with (20 :: L).
    rewrite filter_cons_False by (unfold live; intros ?; done).
    by rewrite filter_cons_True.
  - change (<[S i := 20]> (a :: L)) with (a :: <[i := 20]> L).
    change ((a :: L) !! S i) with (L !! i) in Hi.
    rewrite !filter_cons.
    destruct (decide (live a)); cbn [length]; by erewrite <- IH.
Qed.

Lemma live_exists (L : list Z) :
  (0 < length (filter live L))%nat -> exists x, x ∈ L /\ live x.
Proof.
  destruct (filter live L) as [|x l] eqn:Hf; cbn; [lia|]. intros _.
  exists x. apply and_comm, (list_elem_of_filter live). rewrite Hf. apply list_elem_of_here.
Qed.

Lemma StronglySorted_impl {A} (R R' : A -> A -> Prop) l :
  (forall x y, x ∈ l -> y ∈ l -> R x y -> R' x y) ->
  StronglySorted R l -> StronglySorted R' l.
Proof.
  intros Himpl Hs. induction Hs as [|a l Hs IH Hall]; constructor.
  - apply IH. intros x y Hx Hy. apply Himpl; by apply list_elem_of_further.
  - apply Forall_forall. intros y Hy. apply Himpl.
    + apply list_elem_of_here.
    + by apply list_elem_of_further.
    + rewrite Forall_forall in Hall. by apply Hall.
Qed.

Lemma select_sorted n : forall L,
  (forall x, x ∈ L -> 1 <= x <= 20) ->
  n = length (filter live L) ->
  NoDup (select n L)
  /\ (forall i, i ∈ select n L <-> exists x, L !! i = Some x /\ live x)
  /\ StronglySorted (picked_before L) (select n L).
Proof.
  induction n as [|n IH]; intros L Hrange Hn.
  - cbn. split; [constructor|]. split; [|constructor].
    intros i. split; [intros H; by apply elem_of_nil in H|].
    intros (x & Hi & Hx). exfalso.
    assert (x ∈ filter live L) as Hin.
    { apply list_elem_of_filter. split; [done|]. by eapply list_elem_of_lookup_2. }
    symmetry in Hn. apply length_zero_iff_nil in Hn. rewrite Hn in Hin.
    by apply elem_of_nil in Hin.
  - destruct (live_exists L ltac:(lia)) as (x0 & Hx0 & Hlive0).
    assert (L <> []) as HL by (intros ->; by apply elem_of_nil in Hx0).
    destruct (select_step n L HL) as (least & i0 & -> & _ & _ & Hi0 & Hle & Hfirst).
    assert (live least) as Hlive.
    { unfold live in *. specialize (Hle x0 Hx0). specialize (Hrange x0 Hx0). lia. }
    set (L' := <[i0 := 20]> L).
    assert (i0 < length L)%nat as Hlt by (by eapply lookup_lt_Some).
    assert (L' !! i0 = Some 20) as Hi0' by (by apply list_lookup_insert_eq).
    assert (forall j, j <> i0 -> L' !! j = L !! j) as Hother.
    { intros j Hj. by apply list_lookup_insert_ne. }
    destruct (IH L') as (Hnd & Hmem & Hss).
    { intros x Hx. apply list_elem_of_lookup in Hx as [j Hj].
      destruct (decide (j = i0)) as [->|Hne]; [rewrite Hi0' in Hj; injection Hj as <-; lia|].
      rewrite Hother in Hj by done. apply Hrange. by eapply list_elem_of_lookup_2. }
    { pose proof (live_insert L i0 least Hi0 Hlive) as Hc. fold L' in Hc. lia. }
    assert (i0 ∉ select n L') as Hnotin.
    { rewrite Hmem. intros (x & Hx & Hlx). rewrite Hi0' in Hx. injection Hx as <-. done. }
    split; [by constructor|]. split.
    + intros i. rewrite elem_of_cons, Hmem. split.
      * intros [->|(x & Hx & Hlx)]; [by exists least|].
        destruct (decide (i = i0)) as [->|Hne]; [rewrite Hi0' in Hx; injection Hx as <-; done|].
        rewrite Hother in Hx by done. by exists x.
      * intros (x & Hx & Hlx). destruct (decide (i = i0)) as [->|Hne]; [by left|].
        right. exists x. by rewrite Hother.
    + constructor.
      * eapply StronglySorted_impl; [|exact Hss].
        intros i j Hi Hj. unfold picked_before, rank_at.
        assert (i <> i0) by (intros ->; done). assert (j <> i0) by (intros ->; done).
        by rewrite !Hother.
      * apply Forall_forall. intros j Hj.
        assert (j <> i0) as Hne by (intros ->; done).
        apply Hmem in Hj as (y & Hy & Hly). rewrite Hother in Hy by done.
        unfold picked_before, rank_at. rewrite Hi0, Hy. cbn.
        assert (least <= y) as Hley by (apply Hle; by eapply list_elem_of_lookup_2).
        destruct (decide (least = y)) as [->|Hney]; [|lia].
        right. split; [done|].
        destruct (decide (j < i0)%nat) as [Hji|Hji]; [|lia].
        by destruct (Hfirst j Hji).
Qed.

Lemma bind_run {A B} (m : M A) (f : A -> M B) s a s' :
  m s = (Done a, s') -> (m ≫= f) s = f a s'.
Proof. unfold mbind, M_bind. by intros ->. Qed.

Lemma bind_lift_Done {A B} (a : A) (f : A -> M B) s : (lift (Done a) ≫= f) s = f a s.
Proof. reflexivity. Qed.

Lemma bind_lift_Raise {A B} e (f : A -> M B) s : (lift (Raise e) ≫= f) s = (Raise e, s).
Proof. reflexivity. Qed.

Lemma bind_get_self {B} (f : Self -> M B) s : (get_self ≫= f) s = f s s.
Proof. reflexivity. Qed.

Lemma bind_modify {B} g (f : unit -> M B) s : (modify g ≫= f) s = f tt (g s).
Proof. reflexivity. Qed.

Lemma bind_mret {A B} (a : A) (f : A -> M B) s : (mret a ≫= f) s = f a s.
Proof. reflexivity. Qed.

Ltac mstep :=
  repeat first
    [ rewrite bind_lift_Done | rewrite bind_get_self | rewrite bind_modify
    | rewrite bind_mret | rewrite bind_lift_Raise ];
  cbn [routes buses nodes frequency priority routes_stops routes_schedules
       routes_schedules_finalized routes_order stdout
       set_priority set_routes_stops set_routes_schedules set_routes_schedules_finalized
       set_routes_order set_stdout].

Lemma routes_order_append_run x s order :
  routes_order s = Some order ->
  routes_order_append x s = (Done tt, set_routes_order (Some (order ++ [x])) s).
Proof. intros H. unfold routes_order_append. mstep. by rewrite H. Qed.

Lemma order_loop_select rows entries :
  Forall2 priority_entry rows entries ->
  forall n L s order,
  priority s = rows -> length L = length rows -> (n <= length L)%nat ->
  routes_order s = Some order ->
  order_loop n L s
  = (Done tt, set_routes_order (Some (order ++ (route_at entries <$> select n L))) s).
Proof.
  intros Hrows. induction n as [|n IH]; intros L s order Hprio Hlen Hn Horder.
  - cbn. rewrite app_nil_r. destruct s; cbn in *. by rewrite Horder.
  - assert (L <> []) as HL by (intros ->; cbn in Hn; lia).
    destruct (select_step n L HL) as (least & i0 & -> & Hmin & Hidx & Hi0 & _ & _).
    cbn [order_loop]. unfold py_index. rewrite Hmin. mstep. rewrite Hidx. mstep.
    assert (i0 < length rows)%nat as Hlt by (rewrite <- Hlen; by eapply lookup_lt_Some).
    destruct (lookup_lt_is_Some_2 rows i0 Hlt) as [row Hrow].
    destruct (Forall2_lookup_l _ _ _ _ _ Hrows Hrow) as (e & He & [H0 _]).
    rewrite Hprio, (getitem_Some _ _ _ Hrow). mstep.
    rewrite (getitem_Some _ _ _ H0). mstep.
    rewrite (bind_run _ _ _ _ _ (routes_order_append_run _ _ _ Horder)).
    rewrite (IH _ _ (order ++ [e.1])); mstep; try done.
    + rewrite fmap_cons, <- app_assoc. cbn [app].
      unfold route_at at 2. rewrite list_lookup_fmap, He. done.
    + by rewrite length_insert.
    + rewrite length_insert. lia.
Qed.

(** ** [arrangeRoutes] *)

Lemma field_Some i row x : row !! i = Some x -> field i row = x.
Proof. unfold field. by intros ->. Qed.

Lemma route_stops_of_run priority_row rid route_points :
  priority_row !! 0%nat = Some rid ->
  Forall (fun rp : list string => (6 <= length rp)%nat) route_points ->
  route_stops_of priority_row route_points = Done (stops_for route_points rid).
Proof.
  intros Hrid Hwf. induction Hwf as [|rp rest Hlen _ IH]; [done|].
  destruct (lookup_lt_is_Some_2 rp 0 ltac:(lia)) as [r0 H0].
  destruct (lookup_lt_is_Some_2 rp 4 ltac:(lia)) as [r4 H4].
  destruct (lookup_lt_is_Some_2 rp 5 ltac:(lia)) as [r5 H5].
  cbn [route_stops_of].
  rewrite (getitem_Some _ _ _ H0), (getitem_Some _ _ _ Hrid),
    (getitem_Some _ _ _ H4), (getitem_Some _ _ _ H5), IH. rbind.
  unfold stops_for. rewrite filter_cons.
  rewrite (field_Some _ _ _ H0), (field_Some _ _ _ H4).
  destruct (decide (r0 = rid)) as [->|Hne]; rbind.
  - destruct (decide (r4 = EmptyString)) as [->|Hne4].
    + rewrite bool_decide_eq_true_2 by done. cbn [negb].
      rewrite decide_False by (intros [_ ?]; done). done.
    + rewrite bool_decide_eq_false_2 by done. cbn [negb].
      rewrite decide_True by done. rbind. rewrite fmap_cons.
      rewrite (field_Some _ _ _ H4), (field_Some _ _ _ H5). done.
  - rewrite decide_False by (intros [? _]; done). done.
Qed.

Lemma register_route_frame route_points ids : forall s,
  let s' := foldl (register_route route_points) s ids in
  routes s' = routes s /\ priority s' = priority s /\ routes_order s' = routes_order s
  /\ frequency s' = frequency s /\ nodes s' = nodes s /\ stdout s' = stdout s.
Proof.
  induction ids as [|rid ids IH]; intros s; cbn; [done|].
  destruct (IH (register_route route_points s rid)) as (-> & -> & -> & -> & -> & ->).
  done.
Qed.

Lemma register_route_stops route_points rid ids : forall s,
  rid ∈ ids ->
  routes_stops (foldl (register_route route_points) s ids) !! rid
  = Some (stops_for route_points rid).
Proof.
  induction ids as [|x ids IH] using rev_ind; intros s Hin.
  - by apply elem_of_nil in Hin.
  - rewrite foldl_app. cbn.
    destruct (decide (x = rid)) as [->|Hne]; [by rewrite lookup_insert_eq|].
    rewrite lookup_insert_ne by done. apply IH.
    apply elem_of_app in Hin as [?|?%list_elem_of_singleton]; [done | congruence].
Qed.

Lemma register_route_schedules route_points rid ids : forall s,
  rid ∈ ids ->
  routes_schedules (foldl (register_route route_points) s ids) !! rid = Some [].
Proof.
  induction ids as [|x ids IH] using rev_ind; intros s Hin.
  - by apply elem_of_nil in Hin.
  - rewrite foldl_app. cbn.
    destruct (decide (x = rid)) as [->|Hne]; [by rewrite lookup_insert_eq|].
    rewrite lookup_insert_ne by done. apply IH.
    apply elem_of_app in Hin as [?|?%list_elem_of_singleton]; [done | congruence].
Qed.

Lemma arrange_route_run row e s :
  priority_entry row e ->
  Forall (fun rp : list string => (6 <= length rp)%nat) (routes s) ->
  arrange_route row s = (Done tt, register_route (routes s) s e.1).
Proof.
  intros [H0 _] Hwf. unfold arrange_route. mstep.
  rewrite (route_stops_of_run _ _ _ H0 Hwf). mstep.
  rewrite (getitem_Some _ _ _ H0). mstep. reflexivity.
Qed.

Lemma arrange_routes_run rows entries :
  Forall2 priority_entry rows entries ->
  forall s,
  Forall (fun rp : list string => (6 <= length rp)%nat) (routes s) ->
  for_each rows arrange_route s
  = (Done tt, foldl (register_route (routes s)) s entries.*1).
Proof.
  induction 1 as [|row e rows entries He _ IH]; intros s Hwf; [done|].
  cbn [for_each]. rewrite (bind_run _ _ _ _ _ (arrange_route_run _ _ _ He Hwf)).
  rewrite IH by done. reflexivity.
Qed.

Lemma ranks_of_run rows entries :
  Forall2 priority_entry rows entries -> ranks_of rows = Done entries.*2.
Proof.
  induction 1 as [|row e rows entries [_ (p1 & H1 & Hrank)] _ IH]; [done|].
  cbn [ranks_of]. rewrite (getitem_Some _ _ _ H1). rbind. rewrite Hrank. rbind.
  rewrite IH. done.
Qed.

Lemma arrangeRoutes_run self header rows entries :
  priority self = header :: rows ->
  Forall2 priority_entry rows entries ->
  Forall (fun rp : list string => (6 <= length rp)%nat) (routes self) ->
  arrangeRoutes self
  = (Done tt,
     set_routes_order (Some (route_at entries <$> select (length rows) entries.*2))
       (foldl (register_route (routes self)) (set_priority rows self) entries.*1)).
Proof.
  intros Hprio Hrows Hwf. unfold arrangeRoutes. mstep. rewrite Hprio. mstep.
  rewrite (bind_run _ _ _ _ _ (arrange_routes_run _ _ Hrows (set_priority rows self) Hwf)). mstep.
  rewrite (ranks_of_run _ _ Hrows). mstep.
  pose proof (register_route_frame (routes self) entries.*1 (set_priority rows self))
    as (_ & Hp & _).
  pose proof (Forall2_length _ _ _ Hrows) as Hlen.
  rewrite (order_loop_select rows entries Hrows _ _ _ []); try done.
  all: rewrite length_fmap; lia.
Qed.

Lemma filter_all {A} (P : A -> Prop) `{forall x, Decision (P x)} (l : list A) :
  Forall P l -> filter P l = l.
Proof.
  induction 1 as [|x l Hx _ IH]; [done|]. by rewrite filter_cons_True, IH.
Qed.

Lemma route_at_seq entries : route_at entries <$> seq 0 (length entries) = entries.*1.
Proof.
  apply list_eq. intros i. rewrite list_lookup_fmap. unfold route_at.
  destruct (decide (i < length entries)%nat) as [Hlt|Hge].
  - rewrite lookup_seq_lt by done. cbn.
    destruct (lookup_lt_is_Some_2 entries.*1 i) as [x ->]; [by rewrite length_fmap | done].
  - rewrite lookup_seq_ge by lia. cbn. symmetry. apply lookup_ge_None.
    rewrite length_fmap. lia.
Qed.

(** C1, as stated (refuted). A first stop "A" with a blank travel time is
    kept in the stop list of its route, where the claim leaves it out. *)
Lemma arrangeRoutes_keeps_blank_travel_time :
  exists self', arrangeRoutes blank_first_stop = (Done tt, self')
    /\ routes_stops self' !! "27" = Some [("A", EmptyString); ("B", "120")]
    /\ stops_claimed (routes blank_first_stop) "27" = [("B", "120")].
Proof. eexists. split; [by vm_compute|]. split; by vm_compute. Qed.

(** C4. For a priority table (a header, then rows that read as
    (route id, rank) with every rank in [1,19]) [arrangeRoutes] returns and
    [routes_order] lists the route ids of the table rows picked in the
    order [idxs]: a permutation of the row positions, so that every row of
    the table gives exactly one element of [routes_order], and strictly
    increasing for (rank, position), that is by ascending rank with equal
    ranks in table order. Route ids that are distinct in the table are
    distinct in [routes_order]. *)
Theorem arrangeRoutes_routes_order (self : Self) (header : list string)
    (rows : list (list string)) (entries : list (string * Z)) :
  priority self = header :: rows ->
  Forall2 priority_entry rows entries ->
  Forall (fun e : string * Z => 1 <= e.2 <= 19) entries ->
  Forall (fun rp : list string => (6 <= length rp)%nat) (routes self) ->
  exists self' order idxs,
    arrangeRoutes self = (Done tt, self')
    /\ routes_order self' = Some order
    /\ order ≡ₚ entries.*1
    /\ (NoDup entries.*1 -> NoDup order)
    /\ idxs ≡ₚ seq 0 (length entries)
    /\ order = route_at entries <$> idxs
    /\ StronglySorted (picked_before entries.*2) idxs
    /\ StronglySorted Z.le (rank_at entries.*2 <$> idxs).
Proof.
  intros Hprio Hrows Hranks Hwf.
  pose proof (Forall2_length _ _ _ Hrows) as Hlen.
  destruct (select_sorted (length rows) entries.*2) as (Hnd & Hmem & Hss).
  { intros x (e & -> & He)%list_elem_of_fmap. rewrite Forall_forall in Hranks.
    specialize (Hranks e He). lia. }
  { rewrite Hlen, <- (length_fmap snd entries). f_equal. symmetry.
    apply filter_all. apply Forall_forall.
    intros x (e & -> & He)%list_elem_of_fmap. rewrite Forall_forall in Hranks.
    specialize (Hranks e He). unfold live. lia. }
  assert (select (length rows) entries.*2 ≡ₚ seq 0 (length entries)) as Hperm.
  { apply NoDup_Permutation; [done | apply NoDup_seq|].
    intros i. rewrite Hmem, elem_of_seq. split.
    - intros (x & Hx & _). apply lookup_lt_Some in Hx. rewrite length_fmap in Hx. lia.
    - intros [_ Hi]. destruct (lookup_lt_is_Some_2 entries.*2 i) as [x Hx].
      { rewrite length_fmap. lia. }
      exists x. split; [done|]. rewrite Forall_forall in Hranks.
      apply list_elem_of_lookup_2, list_elem_of_fmap in Hx as (e & -> & He).
      specialize (Hranks e He). unfold live. lia. }
  assert (route_at entries <$> select (length rows) entries.*2 ≡ₚ entries.*1) as Hperm'.
  { rewrite <- (route_at_seq entries). by apply fmap_Permutation. }
  eexists _, _, (select (length rows) entries.*2).
  split; [by eapply arrangeRoutes_run|].
  split; [reflexivity|]. split; [done|]. split.
  { intros Hdistinct. by rewrite Hperm'. }
  split; [done|]. split; [done|]. split; [done|].
  clear -Hss. induction Hss as [|i idxs _ IH Hall]; [constructor|].
  rewrite fmap_cons. constructor; [done|].
  apply Forall_fmap. eapply Forall_impl; [exact Hall|].
  intros j [Hlt|[Heq _]]; cbn; lia.
Qed.

Lemma arrangeRoutes_routes_order_witness :
  exists self', arrangeRoutes three_routes = (Done tt, self')
    /\ routes_order self' = Some ["10"; "11"; "12"].
Proof.
  destruct (arrangeRoutes_routes_order three_routes ["route"; "priority"]
              [["12"; "3"]; ["10"; "1"]; ["11"; "1"]] [("12", 3); ("10", 1); ("11", 1)])
    as (self' & order & idxs & Hrun & Horder & _).
  - reflexivity.
  - repeat constructor; cbn; eexists; (split; [reflexivity | by vm_compute]).
  - repeat constructor; cbn; lia.
  - repeat constructor; cbn; lia.
  - exists self'. split; [done|].
    assert (arrangeRoutes three_routes = (Done tt, self')) as Hrun' by done.
    vm_compute in Hrun'. injection Hrun' as <-. reflexivity.
Defined.

(** ** Time strings *)

Lemma forallb_seqZ (P : Z -> bool) a n :
  forallb P (seqZ a n) = true -> forall x, a <= x < a + n -> P x = true.
Proof.
  intros Hall x Hx. rewrite forallb_forall in Hall. apply Hall.
  apply list_elem_of_In, elem_of_seqZ. lia.
Qed.

Lemma digit_val_char d : 0 <= d <= 9 -> digit_val (digit_char d) = Some d.
Proof.
  intros Hd.
  pose proof (forallb_seqZ
    (fun d => match digit_val (digit_char d) with Some x => x =? d | None => false end)
    0 10 ltac:(by vm_compute) d ltac:(lia)) as Hcheck. cbn beta in Hcheck.
  destruct (digit_val (digit_char d)) as [x|]; [|done].
  apply Z.eqb_eq in Hcheck. by subst.
Qed.

Lemma fmt_02d_digits n :
  0 <= n <= 99 ->
  fmt_02d n = String (digit_char (n / 10)) (String (digit_char (n mod 10)) EmptyString).
Proof.
  intros Hn. apply String.eqb_eq.
  apply (forallb_seqZ
           (fun n => String.eqb (fmt_02d n)
                       (String (digit_char (n / 10)) (String (digit_char (n mod 10)) EmptyString)))
           0 100); [by vm_compute | lia].
Qed.

Lemma take_field_digits a b rest :
  0 <= a <= 9 -> 0 <= b <= 9 ->
  take_field (digit_char a :: digit_char b :: rest) = Some (10 * a + b, rest).
Proof.
  intros Ha Hb. unfold take_field. by rewrite !digit_val_char.
Qed.

Lemma c_int_small z : - 2 ^ 31 <= z < 2 ^ 31 -> c_int z = true.
Proof.
  intros Hz. unfold c_int. apply andb_true_iff. split; [apply Z.leb_le | apply Z.ltb_lt]; lia.
Qed.

Lemma datetime_jan1_Done year h m s :
  1 <= year <= 9999 -> 0 <= h <= 23 -> 0 <= m <= 59 -> 0 <= s <= 59 ->
  datetime_jan1 year h m s
  = Done ((days_before_year year + 1) * 86400 + h * 3600 + m * 60 + s).
Proof.
  intros Hy Hh Hm Hs. unfold datetime_jan1.
  change (2 ^ 31) with 2147483648 in *.
  rewrite !c_int_small by (change (2 ^ 31) with 2147483648; lia). cbn [andb negb].
  unfold MAXYEAR.
  repeat match goal with
  | |- context [?a <=? ?b] =>
      let E := fresh in assert ((a <=? b) = true) as E by (apply Z.leb_le; lia); rewrite E; clear E
  end.
  reflexivity.
Qed.

Lemma datetime_jan1_OverflowError year h m s :
  ~ (- 2 ^ 31 <= year < 2 ^ 31 /\ - 2 ^ 31 <= h < 2 ^ 31
     /\ - 2 ^ 31 <= m < 2 ^ 31 /\ - 2 ^ 31 <= s < 2 ^ 31) ->
  datetime_jan1 year h m s = Raise OverflowError.
Proof.
  intros Hbig. unfold datetime_jan1.
  destruct (c_int year && c_int h && c_int m && c_int s) eqn:Hfit; [|done].
  exfalso. apply Hbig. unfold c_int in Hfit.
  repeat (apply andb_true_iff in Hfit as [Hfit ?]).
  repeat match goal with
  | H : (_ <=? _) = true |- _ => apply Z.leb_le in H
  | H : (_ <? _) = true |- _ => apply Z.ltb_lt in H
  end. lia.
Qed.

Lemma datetime_jan1_ValueError year h m s :
  - 2 ^ 31 <= year < 2 ^ 31 -> - 2 ^ 31 <= h < 2 ^ 31 ->
  - 2 ^ 31 <= m < 2 ^ 31 -> - 2 ^ 31 <= s < 2 ^ 31 ->
  ~ (1 <= year <= 9999 /\ 0 <= h <= 23 /\ 0 <= m <= 59 /\ 0 <= s <= 59) ->
  datetime_jan1 year h m s = Raise ValueError.
Proof.
  intros Hy Hh Hm Hs Hbad. unfold datetime_jan1.
  rewrite !c_int_small by done. cbn [andb negb]. unfold MAXYEAR.
  match goal with |- (if ?c then _ else _) = _ => destruct c eqn:Hc end; [|done].
  exfalso. apply Hbad.
  repeat (apply andb_true_iff in Hc as [Hc ?]).
  repeat match goal with
  | H : (_ <=? _) = true |- _ => apply Z.leb_le in H
  end. lia.
Qed.

Lemma two_digits n :
  0 <= n <= 99 -> 0 <= n / 10 <= 9 /\ 0 <= n mod 10 <= 9 /\ 10 * (n / 10) + n mod 10 = n.
Proof.
  intros Hn. pose proof (Z.div_mod n 10 ltac:(lia)).
  pose proof (Z.mod_pos_bound n 10 ltac:(lia)). lia.
Qed.

Lemma digit_char_ascii d : 0 <= d <= 9 -> (N_of_ascii (digit_char d) <? 128)%N = true.
Proof.
  intros Hd.
  apply (forallb_seqZ (fun d => (N_of_ascii (digit_char d) <? 128)%N) 0 10);
    [by vm_compute | lia].
Qed.

Lemma ascii_text_hms h m s :
  0 <= h <= 23 -> 0 <= m <= 59 -> 0 <= s <= 59 -> ascii_text (hms h m s) = true.
Proof.
  intros Hh Hm Hs. unfold hms. rewrite !fmt_02d_digits by lia.
  unfold ascii_text. cbv [append list_ascii_of_string]. cbn [forallb].
  destruct (two_digits h ltac:(lia)) as (? & ? & _).
  destruct (two_digits m ltac:(lia)) as (? & ? & _).
  destruct (two_digits s ltac:(lia)) as (? & ? & _).
  rewrite !digit_char_ascii by done. reflexivity.
Qed.

Lemma strptime_hms h m s :
  0 <= h <= 23 -> 0 <= m <= 59 -> 0 <= s <= 59 ->
  strptime_HMS (hms h m s) = Done (epoch_1900 + (h * 3600 + m * 60 + s)).
Proof.
  intros Hh Hm Hs. unfold strptime_HMS.
  rewrite ascii_text_hms by done. cbn [negb]. unfold hms.
  rewrite !fmt_02d_digits by lia. cbv [append list_ascii_of_string].
  pose proof two_digits as Hdig.
  destruct (Hdig h ltac:(lia)) as (? & ? & Eh).
  destruct (Hdig m ltac:(lia)) as (? & ? & Em).
  destruct (Hdig s ltac:(lia)) as (? & ? & Es).
  rewrite take_field_digits by done. cbn [mbind option_bind expect_colon].
  rewrite decide_True by done. cbn [mbind option_bind].
  rewrite take_field_digits by done. cbn [mbind option_bind expect_colon].
  rewrite decide_True by done. cbn [mbind option_bind].
  rewrite take_field_digits by done. cbn [mbind option_bind].
  rewrite Eh, Em, Es. rewrite datetime_jan1_Done by lia.
  unfold epoch_1900. f_equal. lia.
Qed.

Lemma time_str_hms dt :
  time_str dt = hms (dt mod 86400 / 3600) (dt mod 86400 / 60 mod 60) (dt mod 86400 mod 60).
Proof. reflexivity. Qed.

Lemma hms_time_str h m s :
  0 <= h <= 23 -> 0 <= m <= 59 -> 0 <= s <= 59 ->
  forall dt, dt mod 86400 = h * 3600 + m * 60 + s -> time_str dt = hms h m s.
Proof.
  intros Hh Hm Hs dt Hdt. rewrite time_str_hms, Hdt. f_equal.
  - symmetry. apply (Z.div_unique _ _ _ (m * 60 + s)); lia.
  - symmetry. apply (Z.mod_unique _ _ h m); [lia|].
    symmetry. apply (Z.div_unique _ _ _ s); lia.
  - symmetry. apply (Z.mod_unique _ _ (h * 60 + m)); lia.
Qed.

Lemma time_fields t :
  0 <= t < 86400 ->
  0 <= t / 3600 <= 23 /\ 0 <= t / 60 mod 60 <= 59 /\ 0 <= t mod 60 <= 59
  /\ t / 3600 * 3600 + t / 60 mod 60 * 60 + t mod 60 = t.
Proof.
  intros Ht.
  pose proof (Z.div_mod t 60 ltac:(lia)). pose proof (Z.mod_pos_bound t 60 ltac:(lia)).
  pose proof (Z.div_mod (t / 60) 60 ltac:(lia)).
  pose proof (Z.mod_pos_bound (t / 60) 60 ltac:(lia)).
  assert (t / 60 / 60 = t / 3600) as E by (rewrite Z.div_div by lia; done).
  rewrite E in *. lia.
Qed.

Lemma strptime_time_str dt :
  strptime_HMS (time_str dt) = Done (epoch_1900 + dt mod 86400).
Proof.
  pose proof (Z.mod_pos_bound dt 86400 ltac:(lia)) as Hb.
  destruct (time_fields _ Hb) as (Hh & Hm & Hs & E).
  rewrite time_str_hms, strptime_hms by done. by rewrite E.
Qed.

Lemma time_of_day_time_str dt : time_of_day (time_str dt) = Some (dt mod 86400).
Proof.
  unfold time_of_day. rewrite strptime_time_str. f_equal.
  unfold epoch_1900. change ((days_before_year 1900 + 1) * 86400) with (693596 * 86400).
  rewrite Z.add_comm, Z.mod_add by lia. apply Z.mod_mod. lia.
Qed.

(** ** [shiftTripTime] *)

Lemma dict_set_app_r {K V} `{EqDecision K} (k : K) (v : V) (pre d : pydict K V) :
  k ∉ dict_keys pre -> dict_set k v (pre ++ d) = pre ++ dict_set k v d.
Proof.
  unfold dict_keys. induction pre as [|[k' v'] pre IH]; cbn; [done|].
  rewrite not_elem_of_cons. intros [Hne Hnin].
  rewrite decide_False by congruence. by rewrite IH.
Qed.

Lemma datetime_add_seconds_run dt n :
  86400 <= dt + n < (MAXORDINAL + 1) * 86400 ->
  datetime_add_seconds dt n = Done (dt + n).
Proof.
  intros [Hlo Hhi]. unfold datetime_add_seconds. cbn zeta.
  apply Z.leb_le in Hlo. apply Z.ltb_lt in Hhi. by rewrite Hlo, Hhi.
Qed.

Lemma shift_loop_run seconds (rest rest' : trip) :
  Forall2 (shifted seconds) rest rest' ->
  forall pre : trip, NoDup (dict_keys (pre ++ rest)) ->
  shift_loop (dict_keys rest) seconds (pre ++ rest) = Done (pre ++ rest').
Proof.
  induction 1 as [|[k v] [k' v'] rest rest' Hkv _ IH]; intros pre Hnd; [done|].
  destruct Hkv as [Hk (ts & tf & Hts & Htf & Hv')]. cbn in Hk, Hts, Hv'. subst k' v'.
  assert (k ∉ dict_keys pre) as Hfresh.
  { unfold dict_keys in *. rewrite fmap_app in Hnd. apply NoDup_app in Hnd as (_ & Hdisj & _).
    intros Hin. apply (Hdisj k Hin). cbn. apply list_elem_of_here. }
  cbn [dict_keys fmap list_fmap fst shift_loop].
  unfold dict_getitem. rewrite dict_get_app_r by done. cbn [dict_get].
  rewrite decide_True by done. rbind. rewrite Hts. rbind. rewrite Htf. rbind.
  rewrite dict_set_app_r by done. cbn [dict_set]. rewrite decide_True by done.
  change (pre ++ (k, time_str tf) :: rest) with (pre ++ [(k, time_str tf)] ++ rest).
  rewrite app_assoc. fold (dict_keys rest). rewrite IH.
  - by rewrite <- app_assoc.
  - rewrite <- app_assoc. unfold dict_keys in *. by rewrite fmap_app in *.
Qed.

Lemma shiftTripTime_run seconds (t t' : trip) :
  NoDup (dict_keys t) -> Forall2 (shifted seconds) t t' -> shiftTripTime t seconds = Done t'.
Proof.
  intros Hnd Hshift. unfold shiftTripTime. by apply (shift_loop_run _ _ _ Hshift []).
Qed.

Lemma shifted_forth h m s k :
  0 <= h <= 23 -> 0 <= m <= 59 -> 0 <= s <= 59 ->
  shifted 90 (k, hms h m s) (k, time_str (epoch_1900 + (h * 3600 + m * 60 + s) + 90)).
Proof.
  intros Hh Hm Hs. split; [done|]. eexists _, _. split; [by apply strptime_hms|].
  split; [|done]. apply datetime_add_seconds_run. change MAXORDINAL with 3652059.
  unfold epoch_1900. change (days_before_year 1900 + 1) with 693596. lia.
Qed.

Lemma shift_mod t :
  0 <= t < 86400 -> (epoch_1900 + (epoch_1900 + t + 90) mod 86400 - 90) mod 86400 = t.
Proof.
  intros Ht. unfold epoch_1900. change (days_before_year 1900 + 1) with 693596.
  replace (693596 * 86400 + t + 90) with (t + 90 + 693596 * 86400) by lia.
  rewrite Z.mod_add by lia.
  destruct (Z.lt_ge_cases (t + 90) 86400) as [Hlt|Hge].
  - rewrite (Z.mod_small (t + 90)) by lia.
    replace (693596 * 86400 + (t + 90) - 90) with (t + 693596 * 86400) by lia.
    rewrite Z.mod_add by lia. apply Z.mod_small. lia.
  - replace ((t + 90) mod 86400) with (t + 90 - 86400).
    + replace (693596 * 86400 + (t + 90 - 86400) - 90) with (t + 693595 * 86400) by lia.
      rewrite Z.mod_add by lia. apply Z.mod_small. lia.
    + apply (Z.mod_unique _ _ 1); lia.
Qed.

Lemma shifted_back h m s k :
  0 <= h <= 23 -> 0 <= m <= 59 -> 0 <= s <= 59 ->
  shifted (-90) (k, time_str (epoch_1900 + (h * 3600 + m * 60 + s) + 90)) (k, hms h m s).
Proof.
  intros Hh Hm Hs. split; [done|]. eexists _, _. split; [apply strptime_time_str|].
  assert (0 <= (epoch_1900 + (h * 3600 + m * 60 + s) + 90) mod 86400 < 86400) as Hb
    by (apply Z.mod_pos_bound; lia).
  split.
  - apply datetime_add_seconds_run. change MAXORDINAL with 3652059.
    set (r := (epoch_1900 + (h * 3600 + m * 60 + s) + 90) mod 86400) in *.
    unfold epoch_1900. change (days_before_year 1900 + 1) with 693596. lia.
  - cbn [snd]. symmetry. apply hms_time_str; try done.
    replace (epoch_1900 + (epoch_1900 + (h * 3600 + m * 60 + s) + 90) mod 86400 + -90)
      with (epoch_1900 + (epoch_1900 + (h * 3600 + m * 60 + s) + 90) mod 86400 - 90) by lia.
    apply shift_mod. lia.
Qed.

(** C6. For every trip, a dict (its keys are distinct) from stop ids to
    "HH:MM:SS" strings, [shiftTripTime] by 90 seconds and then by -90
    seconds returns, and gives back the very same stop-time mapping, also
    when the shifted time passes midnight. *)
Theorem shiftTripTime_round_trip (t : trip) :
  NoDup (dict_keys t) ->
  Forall (fun kv : string * string => HMS_string kv.2) t ->
  exists t', shiftTripTime t 90 = Done t' /\ shiftTripTime t' (-90) = Done t.
Proof.
  intros Hnd Hhms.
  assert (exists t', Forall2 (shifted 90) t t' /\ Forall2 (shifted (-90)) t' t) as (t' & H1 & H2).
  { clear Hnd. induction Hhms as [|[k v] t (h & m & s & Hh & Hm & Hs & Hv) _ (t' & H1 & H2)].
    - exists []. split; constructor.
    - cbn in Hv. subst v.
      exists ((k, time_str (epoch_1900 + (h * 3600 + m * 60 + s) + 90)) :: t').
      split; constructor; try done; [by apply shifted_forth | by apply shifted_back]. }
  exists t'. split; [by apply shiftTripTime_run|].
  apply shiftTripTime_run; [|done].
  replace (dict_keys t') with (dict_keys t); [done|].
  clear -H1. unfold dict_keys. induction H1 as [|kv kv' t t' [Hk _] _ IH]; [done|].
  cbn. by rewrite Hk, IH.
Qed.

Lemma shiftTripTime_round_trip_witness :
  exists t', shiftTripTime late_trip 90 = Done t'
    /\ t' = [("A", "00:00:15"); ("B", "00:00:40")]
    /\ shiftTripTime t' (-90) = Done late_trip.
Proof.
  destruct (shiftTripTime_round_trip late_trip) as (t' & Hforth & Hback).
  - apply (bool_decide_unpack _). by vm_compute.
  - unfold late_trip. repeat constructor; cbn.
    + exists 23, 58, 45. repeat split; (lia || reflexivity).
    + exists 23, 59, 10. repeat split; (lia || reflexivity).
  - exists t'. split; [done|]. split; [|done].
    assert (shiftTripTime late_trip 90 = Done t') as Hrun by done.
    vm_compute in Hrun. by injection Hrun as <-.
Defined.

(** ** The optimizer leaves the schedules alone *)

Lemma keeps_bind {A B} (m : M A) (f : A -> M B) :
  keeps_schedules m -> (forall a, keeps_schedules (f a)) -> keeps_schedules (m ≫= f).
Proof.
  intros Hm Hf s. unfold mbind, M_bind. specialize (Hm s).
  destruct (m s) as [[a| | |] s']; cbn in *; [|done|done|done].
  by rewrite Hf.
Qed.

Lemma keeps_lift {A} (r : result A) : keeps_schedules (lift r).
Proof. done. Qed.

Lemma keeps_mret {A} (a : A) : keeps_schedules (mret a).
Proof. done. Qed.

Lemma keeps_get_self : keeps_schedules get_self.
Proof. done. Qed.

Lemma keeps_raise {A} e : keeps_schedules (@raise A e).
Proof. done. Qed.

Lemma keeps_print line : keeps_schedules (print line).
Proof. done. Qed.

Lemma keeps_for_each {A} (l : list A) (body : A -> M unit) :
  (forall x, keeps_schedules (body x)) -> keeps_schedules (for_each l body).
Proof.
  intros Hbody. induction l as [|x l IH]; cbn [for_each]; [apply keeps_mret|].
  apply keeps_bind; [apply Hbody | by intros _].
Qed.

Ltac keeps_step :=
  lazymatch goal with
  | |- keeps_schedules (mbind _ _) => apply keeps_bind; [|intros ?]
  | |- keeps_schedules (lift _) => apply keeps_lift
  | |- keeps_schedules (mret _) => apply keeps_mret
  | |- keeps_schedules get_self => apply keeps_get_self
  | |- keeps_schedules (raise _) => apply keeps_raise
  | |- keeps_schedules (print _) => apply keeps_print
  | |- keeps_schedules (for_each _ _) => apply keeps_for_each; intros ?
  end.

Ltac keeps := repeat keeps_step.

Lemma keeps_hours_loop n route : forall current_hour,
  keeps_schedules (hours_loop n route current_hour).
Proof.
  induction n as [|n IH]; intros current_hour; cbn [hours_loop]; [apply keeps_mret|].
  keeps. apply IH.
Qed.

Lemma keeps_node_conn_loop node_list route : forall route_conn_time,
  keeps_schedules (node_conn_loop node_list route route_conn_time).
Proof.
  induction node_list as [|node rest IH]; intros route_conn_time; cbn [node_conn_loop];
    [apply keeps_mret|].
  unfold call_evaluateConnectionTime. keeps. apply IH.
Qed.

Lemma keeps_minimizeRouteWaitTime route : keeps_schedules (minimizeRouteWaitTime route).
Proof. apply keeps_hours_loop. Qed.

Lemma keeps_evaluateNodeConnections route : keeps_schedules (evaluateNodeConnections route).
Proof. unfold evaluateNodeConnections. keeps. apply keeps_node_conn_loop. Qed.

Lemma keeps_calculateNodeNumber : keeps_schedules calculateNodeNumber.
Proof. unfold calculateNodeNumber. keeps. Qed.

(** C10. Whatever the state, and whether they return or raise,
    [optimizeNodeConnections], [minimizeRouteWaitTime] and
    [shiftHourlyTripTimes] leave [routes_schedules] as it was: no trip is
    added or removed and no stop time is changed. *)
Theorem optimizer_keeps_schedules (fuel : nat) (s : Self) :
  routes_schedules (optimizeNodeConnections fuel s).2 = routes_schedules s
  /\ (forall route, routes_schedules (minimizeRouteWaitTime route s).2 = routes_schedules s)
  /\ (forall trips route hour seconds,
        routes_schedules (shiftHourlyTripTimes trips route hour seconds s).2
        = routes_schedules s).
Proof.
  split; [|split].
  - revert s. change (keeps_schedules (optimizeNodeConnections fuel)).
    unfold optimizeNodeConnections. keeps.
    + apply keeps_calculateNodeNumber.
    + apply keeps_evaluateNodeConnections.
    + apply keeps_minimizeRouteWaitTime.
  - intros route. apply keeps_minimizeRouteWaitTime.
  - done.
Qed.

(** ** [generateTrip] *)

Lemma dict_set_same {K V} `{EqDecision K} (k : K) (v : V) (d : pydict K V) :
  dict_get k d = Some v -> dict_set k v d = d.
Proof.
  induction d as [|[k' v'] d IH]; cbn; [done|].
  destruct (decide (k' = k)) as [->|Hne]; [by intros [= ->] | intros H; by rewrite IH].
Qed.

Lemma dict_set_set {K V} `{EqDecision K} (k : K) (v v' : V) (d : pydict K V) :
  dict_set k v (dict_set k v' d) = dict_set k v d.
Proof.
  induction d as [|[k0 v0] d IH]; cbn.
  - by rewrite decide_True.
  - destruct (decide (k0 = k)) as [->|Hne]; cbn.
    + by rewrite decide_True.
    + rewrite decide_False by done. by rewrite IH.
Qed.

Lemma set_routes_schedules_same s : set_routes_schedules (routes_schedules s) s = s.
Proof. by destruct s. Qed.

Lemma map_getitem_Some {V} k (d : gmap string V) v : d !! k = Some v -> map_getitem k d = Done v.
Proof. unfold map_getitem. by intros ->. Qed.

Lemma trip_stops_loop_run route id stops secs : forall trip_time s trips t,
  Forall2 (fun st sec => py_int st.2 = Done sec) stops secs ->
  Forall (fun T => 86400 <= T < (MAXORDINAL + 1) * 86400) (stop_instants trip_time secs) ->
  routes_schedules s !! route = Some trips ->
  dict_get id trips = Some t ->
  trip_stops_loop route id stops trip_time s
  = (Done tt,
     set_routes_schedules
       (<[route := dict_set id (record_stops t stops (stop_instants trip_time secs)) trips]>
          (routes_schedules s)) s).
Proof.
  intros trip_time s trips t Hparse. revert trip_time s trips t.
  induction Hparse as [|st sec stops secs Hst _ IH]; intros trip_time s trips t Hrange Hs Ht.
  - cbn. rewrite (dict_set_same _ _ _ Ht), insert_id by done.
    by rewrite set_routes_schedules_same.
  - cbn [stop_instants] in *. apply Forall_cons in Hrange as [Hnow Hrange].
    cbn [trip_stops_loop]. rewrite Hst. mstep.
    rewrite datetime_add_seconds_run by done. mstep.
    erewrite map_getitem_Some by exact Hs. mstep.
    erewrite dict_getitem_Some by exact Ht. mstep.
    erewrite IH; [|done|apply lookup_insert_eq|apply dict_get_set_eq].
    cbn [routes_schedules set_routes_schedules]. unfold set_routes_schedules. cbn.
    by rewrite insert_insert_eq, dict_set_set.
Qed.

Lemma generateTrip_run route id h m s trips stops secs :
  routes_schedules s !! route = Some trips ->
  routes_stops s !! route = Some stops ->
  Forall2 (fun st sec => py_int st.2 = Done sec) stops secs ->
  0 <= h <= 23 -> 0 <= m <= 59 ->
  Forall (fun T => 86400 <= T < (MAXORDINAL + 1) * 86400)
         (stop_instants (epoch_2000 + h * 3600 + m * 60) secs) ->
  generateTrip route id h m s
  = (Done tt,
     set_routes_schedules
       (<[route := dict_set id
                     (record_stops [] stops (stop_instants (epoch_2000 + h * 3600 + m * 60) secs))
                     trips]> (routes_schedules s)) s).
Proof.
  intros Hs Hstops Hparse Hh Hm Hrange. unfold generateTrip. mstep.
  erewrite map_getitem_Some by exact Hs. mstep.
  rewrite datetime_jan1_Done by lia.
  mstep. erewrite map_getitem_Some by exact Hstops. mstep.
  replace ((days_before_year 2000 + 1) * 86400 + h * 3600 + m * 60 + 0)
    with (epoch_2000 + h * 3600 + m * 60) by (unfold epoch_2000; lia).
  erewrite trip_stops_loop_run;
    [|done|done|apply lookup_insert_eq|apply dict_get_set_eq].
  unfold set_routes_schedules. cbn. by rewrite insert_insert_eq, dict_set_set.
Qed.

Lemma stop_instants_length start secs : length (stop_instants start secs) = length secs.
Proof. revert start. induction secs as [|x secs IH]; intros start; cbn; [done | by rewrite IH]. Qed.

Lemma stop_instants_shift base start secs :
  stop_instants (base + start) secs = Z.add base <$> stop_instants start secs.
Proof.
  revert start. induction secs as [|x secs IH]; intros start; cbn; [done|].
  replace (base + start + x) with (base + (start + x)) by lia. by rewrite IH.
Qed.

Lemma total_cons x l : total (x :: l) = x + total l.
Proof. reflexivity. Qed.

Lemma stop_instants_bounds secs : forall start,
  Forall (fun x => 0 <= x) secs ->
  Forall (fun T => start <= T <= start + total secs) (stop_instants start secs)
  /\ StronglySorted Z.le (stop_instants start secs)
  /\ 0 <= total secs.
Proof.
  induction secs as [|x secs IH]; intros start Hpos; cbn [stop_instants].
  - split; [constructor|]. split; [constructor | done].
  - apply Forall_cons in Hpos as [Hx Hpos]. rewrite total_cons.
    destruct (IH (start + x) Hpos) as (Hb & Hs & Ht). split; [|split; [|lia]].
    + constructor; [lia|]. eapply Forall_impl; [exact Hb|]. cbn beta. intros; lia.
    + constructor; [done|]. eapply Forall_impl; [exact Hb|]. cbn beta. intros; lia.
Qed.

Lemma stop_instants_last x secs start :
  last (stop_instants start (x :: secs)) = Some (start + x + total secs).
Proof.
  revert x start. induction secs as [|y secs IH]; intros x start.
  - cbn. f_equal. lia.
  - change (stop_instants start (x :: y :: secs))
      with ((start + x) :: stop_instants (start + x) (y :: secs)).
    rewrite last_cons, IH, !total_cons. f_equal. lia.
Qed.

Lemma record_stops_fresh (stops : stop_list) : forall (t : trip) instants,
  NoDup (dict_keys t ++ stops.*1) ->
  length instants = length stops ->
  record_stops t stops instants = t ++ zip stops.*1 (time_str <$> instants).
Proof.
  induction stops as [|[stop travel] stops IH]; intros t instants Hnd Hlen.
  - cbn. by rewrite app_nil_r.
  - destruct instants as [|T instants]; [done|]. cbn in Hlen.
    unfold record_stops in *. cbn [zip zip_with foldl fst].
    assert (stop ∉ dict_keys t) as Hfresh.
    { apply NoDup_app in Hnd as (_ & Hdisj & _). intros Hin.
      apply (Hdisj _ Hin). cbn. apply list_elem_of_here. }
    rewrite dict_set_fresh by done. rewrite IH; [|  |lia].
    + cbn. by rewrite <- app_assoc.
    + unfold dict_keys in *. rewrite fmap_app. cbn. rewrite <- app_assoc. done.
Qed.

Lemma time_of_day_epoch_2000 T :
  0 <= T < 86400 -> time_of_day (time_str (epoch_2000 + T)) = Some T.
Proof.
  intros HT. rewrite time_of_day_time_str. f_equal.
  unfold epoch_2000. change (days_before_year 2000 + 1) with 730120.
  rewrite Z.add_comm, Z.mod_add by lia. by apply Z.mod_small.
Qed.

(** C5, as stated (refuted). A trip that leaves at 23:30 and takes an
    hour reaches its last stop at "00:30:00": the times of day go down, and
    the last one is not the first plus the travel time. On a loop route
    the second visit of stop "A" overwrites the first, so the trip lists "A"
    (03:03:30) before "B" (03:02:00). *)
Lemma midnight_trip_times_decrease :
  (exists s', generateTrip "27" "270001" 23 30 midnight_route = (Done tt, s')
      /\ routes_schedules s' !! "27"
         = Some [("270001", [("A", "23:30:00"); ("B", "00:30:00")])]
      /\ time_of_day "23:30:00" = Some 84600 /\ time_of_day "00:30:00" = Some 1800
      /\ ~ 84600 <= 1800 /\ 1800 <> 84600 + 3600)
  /\ (exists s', generateTrip "27" "270001" 3 0 loop_route = (Done tt, s')
      /\ routes_schedules s' !! "27"
         = Some [("270001", [("A", "03:03:30"); ("B", "03:02:00")])]
      /\ time_of_day "03:03:30" = Some 11010 /\ time_of_day "03:02:00" = Some 10920
      /\ ~ 11010 <= 10920).
Proof.
  split; eexists; (split; [by vm_compute|]); repeat split; try (by vm_compute); lia.
Qed.

(** C5, amended. Take a route whose stops are distinct, with travel times
    that read as non-negative integers, and a start such that the trip ends
    before midnight of the same day. Then [generateTrip] returns, the trip
    it records lists the stops in order, the times of day it records are the
    start plus the travel times accumulated so far, they are non-decreasing
    in stop order, and the last one is the first one plus the sum of the
    travel times after the first stop. *)
Theorem generateTrip_times (s : Self) (route id : string) (h m : Z)
    (trips : route_trips) (stops : stop_list) (secs : list Z) :
  routes_schedules s !! route = Some trips ->
  routes_stops s !! route = Some stops ->
  Forall2 (fun st sec => py_int st.2 = Done sec /\ 0 <= sec) stops secs ->
  NoDup stops.*1 ->
  0 <= h <= 23 -> 0 <= m <= 59 ->
  h * 3600 + m * 60 + total secs < 86400 ->
  exists s' trips' t tods,
    generateTrip route id h m s = (Done tt, s')
    /\ routes_schedules s' !! route = Some trips'
    /\ dict_get id trips' = Some t
    /\ dict_keys t = stops.*1
    /\ Forall2 (fun v T => time_of_day v = Some T) (dict_values t) tods
    /\ tods = stop_instants (h * 3600 + m * 60) secs
    /\ StronglySorted Z.le tods
    /\ (forall first, head tods = Some first ->
          last tods = Some (first + total (tail secs))).
Proof.
  intros Hs Hstops Hparse Hnd Hh Hm Hday.
  assert (Forall2 (fun st sec => py_int st.2 = Done sec) stops secs) as Hparse'.
  { eapply Forall2_impl; [exact Hparse|]. by intros ? ? [? _]. }
  assert (Forall (fun x => 0 <= x) secs) as Hpos.
  { clear -Hparse. induction Hparse as [|? ? ? ? [_ ?] _ IH]; by constructor. }
  pose proof (Forall2_length _ _ _ Hparse) as Hlen.
  destruct (stop_instants_bounds secs (h * 3600 + m * 60) Hpos) as (Hb & Hsorted & Htot).
  set (J := stop_instants (h * 3600 + m * 60) secs) in *.
  assert (stop_instants (epoch_2000 + h * 3600 + m * 60) secs = Z.add epoch_2000 <$> J) as HI.
  { rewrite <- Z.add_assoc. apply stop_instants_shift. }
  eexists _, _, _, J. split.
  { eapply generateTrip_run; try done. rewrite HI. apply Forall_fmap.
    eapply Forall_impl; [exact Hb|]. cbn. intros T HT.
    change MAXORDINAL with 3652059. unfold epoch_2000.
    change (days_before_year 2000 + 1) with 730120. lia. }
  cbn [routes_schedules set_routes_schedules].
  split; [apply lookup_insert_eq|]. split; [apply dict_get_set_eq|].
  rewrite HI, record_stops_fresh; [|done|].
  2:{ rewrite length_fmap. unfold J. rewrite stop_instants_length. lia. }
  cbn [app].
  assert (length stops.*1 = length (time_str <$> (Z.add epoch_2000 <$> J))) as Hlen'.
  { rewrite !length_fmap. unfold J. rewrite stop_instants_length. lia. }
  split; [unfold dict_keys; by rewrite fst_zip by lia|].
  split.
  { unfold dict_values. rewrite snd_zip by lia.
    apply Forall2_fmap_l, Forall2_fmap_l, Forall_Forall2_diag.
    eapply Forall_impl; [exact Hb|]. cbn. intros T HT.
    apply time_of_day_epoch_2000. lia. }
  split; [done|]. split; [done|].
  unfold J. destruct secs as [|x secs']; [done|].
  intros first [= <-]. rewrite stop_instants_last. done.
Qed.

Lemma generateTrip_times_witness :
  exists s', generateTrip "27" "270001" 23 30
               (set_routes_stops {[ "27" := [("A", "0"); ("B", "900")] ]} midnight_route)
             = (Done tt, s')
    /\ routes_schedules s' !! "27"
       = Some [("270001", [("A", "23:30:00"); ("B", "23:45:00")])].
Proof.
  destruct (generateTrip_times
              (set_routes_stops {[ "27" := [("A", "0"); ("B", "900")] ]} midnight_route)
              "27" "270001" 23 30 [] [("A", "0"); ("B", "900")] [0; 900])
    as (s' & trips' & t & tods & Hrun & _).
  - reflexivity.
  - reflexivity.
  - repeat constructor; by vm_compute.
  - apply (bool_decide_unpack _). by vm_compute.
  - lia.
  - lia.
  - cbn. lia.
  - exists s'. split; [done|].
    assert (generateTrip "27" "270001" 23 30
              (set_routes_stops {[ "27" := [("A", "0"); ("B", "900")] ]} midnight_route)
            = (Done tt, s')) as Hrun' by done.
    vm_compute in Hrun'. injection Hrun' as <-. reflexivity.
Defined.

(** ** Trip ids *)

Lemma fmt_04d_digits n : 0 <= n <= 9999 -> fmt_04d n = digits4 n.
Proof.
  intros Hn. apply String.eqb_eq.
  apply (forallb_seqZ (fun n => String.eqb (fmt_04d n) (digits4 n)) 0 10000);
    [by vm_compute | lia].
Qed.

Lemma digit_char_compare a b :
  0 <= a <= 9 -> 0 <= b <= 9 -> Ascii.compare (digit_char a) (digit_char b) = (a ?= b).
Proof.
  intros Ha Hb.
  pose proof (forallb_seqZ
    (fun a => forallb (fun b =>
       match Ascii.compare (digit_char a) (digit_char b), a ?= b with
       | Eq, Eq | Lt, Lt | Gt, Gt => true
       | _, _ => false
       end) (seqZ 0 10)) 0 10 ltac:(by vm_compute) a ltac:(lia)) as Hrow.
  cbn beta in Hrow. pose proof (forallb_seqZ _ 0 10 Hrow b ltac:(lia)) as Hcell.
  cbn beta in Hcell.
  by destruct (Ascii.compare (digit_char a) (digit_char b)), (a ?= b).
Qed.

Lemma ascii_compare_refl c : Ascii.compare c c = Eq.
Proof.
  pose proof (Ascii.compare_antisym c c) as H.
  destruct (Ascii.compare c c); cbn in H; congruence.
Qed.

Lemma string_compare_refl a : (a ?= a)%string = Eq.
Proof.
  pose proof (String.compare_antisym a a) as H.
  destruct (a ?= a)%string; cbn in H; congruence.
Qed.

Lemma string_compare_app p a b : (p +:+ a ?= p +:+ b)%string = (a ?= b)%string.
Proof.
  induction p as [|c p IH]; [done|].
  change (String c p +:+ a) with (String c (p +:+ a)).
  change (String c p +:+ b) with (String c (p +:+ b)). cbn [String.compare].
  by rewrite ascii_compare_refl.
Qed.

Lemma digits4_parts n :
  0 <= n <= 9999 ->
  0 <= n / 1000 <= 9 /\ 0 <= n / 100 mod 10 <= 9 /\ 0 <= n / 10 mod 10 <= 9
  /\ 0 <= n mod 10 <= 9
  /\ n = 1000 * (n / 1000) + 100 * (n / 100 mod 10) + 10 * (n / 10 mod 10) + n mod 10.
Proof.
  intros Hn.
  pose proof (Z.div_mod n 10 ltac:(lia)). pose proof (Z.mod_pos_bound n 10 ltac:(lia)).
  pose proof (Z.div_mod (n / 10) 10 ltac:(lia)).
  pose proof (Z.mod_pos_bound (n / 10) 10 ltac:(lia)).
  pose proof (Z.div_mod (n / 10 / 10) 10 ltac:(lia)).
  pose proof (Z.mod_pos_bound (n / 10 / 10) 10 ltac:(lia)).
  assert (n / 10 / 10 = n / 100) as E1 by (rewrite Z.div_div by lia; done).
  assert (n / 10 / 10 / 10 = n / 1000) as E2 by (rewrite !Z.div_div by lia; done).
  rewrite E1 in *. rewrite E2 in *. lia.
Qed.

Lemma digits4_lt a b : 0 <= a -> a < b -> b <= 9999 -> string_lt (digits4 a) (digits4 b).
Proof.
  intros Ha Hab Hb.
  destruct (digits4_parts a ltac:(lia)) as (Ha3 & Ha2 & Ha1 & Ha0 & Ea).
  destruct (digits4_parts b ltac:(lia)) as (Hb3 & Hb2 & Hb1 & Hb0 & Eb).
  unfold string_lt, digits4. cbn [String.compare].
  rewrite !digit_char_compare by done.
  destruct (Z.compare_spec (a / 1000) (b / 1000)); [|done|lia].
  destruct (Z.compare_spec (a / 100 mod 10) (b / 100 mod 10)); [|done|lia].
  destruct (Z.compare_spec (a / 10 mod 10) (b / 10 mod 10)); [|done|lia].
  destruct (Z.compare_spec (a mod 10) (b mod 10)); [lia|done|lia].
Qed.

Lemma trip_id_lt route a b :
  0 <= a -> a < b -> b <= 9999 ->
  string_lt (route +:+ fmt_04d a) (route +:+ fmt_04d b).
Proof.
  intros Ha Hab Hb. unfold string_lt. rewrite string_compare_app.
  rewrite !fmt_04d_digits by lia. by apply digits4_lt.
Qed.

Lemma string_lt_irrefl a : ~ string_lt a a.
Proof.
  unfold string_lt. rewrite string_compare_refl. done.
Qed.

Lemma trip_id_inj route a b :
  0 <= a <= 9999 -> 0 <= b <= 9999 ->
  route +:+ fmt_04d a = route +:+ fmt_04d b -> a = b.
Proof.
  intros Ha Hb Heq. destruct (Z.lt_trichotomy a b) as [Hlt|[->|Hgt]]; [|done|].
  - exfalso. apply (string_lt_irrefl (route +:+ fmt_04d b)).
    rewrite <- Heq at 1. apply trip_id_lt; lia.
  - exfalso. apply (string_lt_irrefl (route +:+ fmt_04d a)).
    rewrite Heq at 1. apply trip_id_lt; lia.
Qed.

Lemma trip_ids_succ route n : 0 <= n ->
  trip_ids route (n + 1) = trip_ids route n ++ [route +:+ fmt_04d (n + 1)].
Proof.
  intros Hn. unfold trip_ids. rewrite seqZ_app by lia. rewrite fmap_app.
  replace (n + 1 - n) with 1 by lia. replace (1 + n) with (n + 1) by lia. done.
Qed.

Lemma elem_of_trip_ids route n id :
  id ∈ trip_ids route n <-> exists k, 1 <= k <= n /\ id = route +:+ fmt_04d k.
Proof.
  unfold trip_ids. rewrite list_elem_of_fmap. split.
  - intros (k & -> & Hk%elem_of_seqZ). exists k. split; [lia | done].
  - intros (k & Hk & ->). exists k. split; [done|]. apply elem_of_seqZ. lia.
Qed.

Lemma trip_id_fresh route n :
  0 <= n -> n + 1 <= 9999 -> route +:+ fmt_04d (n + 1) ∉ trip_ids route n.
Proof.
  intros Hn Hmax (k & Hk & Heq)%elem_of_trip_ids.
  apply trip_id_inj in Heq; lia.
Qed.


(** Beyond 9999 the counter takes five digits or more, and the ids stay
    distinct. *)
Lemma pretty_N_go_length x : forall s,
  (String.length s <= String.length (pretty_N_go x s))%nat.
Proof.
  induction (N.lt_wf_0 x) as [x _ IH]. intros s.
  destruct (decide (x = 0)%N) as [->|Hx]; [by rewrite pretty_N_go_0|].
  rewrite pretty_N_go_step by lia.
  etrans; [|apply IH; apply N.div_lt; lia]. cbn. lia.
Qed.

Lemma pretty_large n : 10000 <= n -> (5 <= String.length (pretty n))%nat.
Proof.
  intros Hn. destruct n as [|p|p]; try lia.
  change (pretty (Z.pos p)) with (pretty (N.pos p)).
  unfold pretty, pretty_N. rewrite decide_False by done.
  set (x := N.pos p). assert (10000 <= x)%N as H4 by lia.
  assert (1000 <= x / 10)%N as H3 by (apply N.div_le_lower_bound; lia).
  assert (100 <= x / 10 / 10)%N as H2 by (apply N.div_le_lower_bound; lia).
  assert (10 <= x / 10 / 10 / 10)%N as H1 by (apply N.div_le_lower_bound; lia).
  assert (1 <= x / 10 / 10 / 10 / 10)%N as H0 by (apply N.div_le_lower_bound; lia).
  do 5 (rewrite pretty_N_go_step by lia).
  etrans; [|apply pretty_N_go_length]. cbn. lia.
Qed.

Lemma fmt_04d_large n : 10000 <= n -> fmt_04d n = pretty n.
Proof.
  intros Hn. unfold fmt_04d. destruct (Z.ltb_spec n 0); [lia|].
  unfold zfill. pose proof (pretty_large n Hn) as Hlen.
  replace (4 - String.length (pretty n))%nat with 0%nat by lia. reflexivity.
Qed.

Lemma digits4_length n : String.length (digits4 n) = 4%nat.
Proof. reflexivity. Qed.

Lemma fmt_04d_inj a b : 0 <= a -> 0 <= b -> fmt_04d a = fmt_04d b -> a = b.
Proof.
  intros Ha Hb Heq.
  destruct (Z.le_gt_cases a 9999) as [Ha'|Ha'], (Z.le_gt_cases b 9999) as [Hb'|Hb'].
  - by apply (trip_id_inj EmptyString a b).
  - exfalso. apply (f_equal String.length) in Heq.
    rewrite fmt_04d_digits, digits4_length, fmt_04d_large in Heq by lia.
    pose proof (pretty_large b ltac:(lia)). lia.
  - exfalso. apply (f_equal String.length) in Heq.
    rewrite (fmt_04d_digits b), digits4_length, fmt_04d_large in Heq by lia.
    pose proof (pretty_large a ltac:(lia)). lia.
  - rewrite !fmt_04d_large in Heq by lia. by apply (inj pretty).
Qed.

Lemma string_app_inj_l p a b : p +:+ a = p +:+ b -> a = b.
Proof.
  induction p as [|c p IH]; [done|].
  change (String c p +:+ a) with (String c (p +:+ a)).
  change (String c p +:+ b) with (String c (p +:+ b)). intros [= H]. by apply IH.
Qed.

Lemma trip_id_fresh_any route n :
  0 <= n -> route +:+ fmt_04d (n + 1) ∉ trip_ids route n.
Proof.
  intros Hn (k & Hk & Heq)%elem_of_trip_ids.
  apply string_app_inj_l, fmt_04d_inj in Heq; lia.
Qed.

(** ** What a schedule run writes, whatever its outcome *)

Lemma bind_run_Raise {A B} (m : M A) (f : A -> M B) s e s' :
  m s = (Raise e, s') -> (m ≫= f) s = (Raise e, s').
Proof. unfold mbind, M_bind. by intros ->. Qed.

Lemma bind_run_OutOfFuel {A B} (m : M A) (f : A -> M B) s s' :
  m s = (OutOfFuel, s') -> (m ≫= f) s = (OutOfFuel, s').
Proof. unfold mbind, M_bind. by intros ->. Qed.

Lemma bind_run_Unmodelled {A B} (m : M A) (f : A -> M B) s s' :
  m s = (Unmodelled, s') -> (m ≫= f) s = (Unmodelled, s').
Proof. unfold mbind, M_bind. by intros ->. Qed.

Lemma bind_lift_case {A B} (r : result A) (f : A -> M B) s :
  (lift r ≫= f) s
  = match r with
    | Done a => f a s
    | Raise e => (Raise e, s)
    | OutOfFuel => (OutOfFuel, s)
    | Unmodelled => (Unmodelled, s)
    end.
Proof. by destruct r. Qed.

Lemma trip_stops_loop_frame route id stops : forall trip_time s trips t,
  routes_schedules s !! route = Some trips ->
  dict_get id trips = Some t ->
  exists t',
    routes_schedules (trip_stops_loop route id stops trip_time s).2
    = <[route := dict_set id t' trips]> (routes_schedules s).
Proof.
  induction stops as [|st stops IH]; intros trip_time s trips t Hs Ht.
  - exists t. cbn. by rewrite (dict_set_same _ _ _ Ht), insert_id.
  - assert (exists t0, routes_schedules s = <[route := dict_set id t0 trips]> (routes_schedules s))
      as Hsame by (exists t; by rewrite (dict_set_same _ _ _ Ht), insert_id).
    cbn [trip_stops_loop]. rewrite bind_lift_case.
    destruct (py_int st.2) as [sec| | |]; [|done|done|done].
    rewrite bind_lift_case.
    destruct (datetime_add_seconds trip_time sec) as [T| | |]; [|done|done|done].
    mstep. erewrite map_getitem_Some by exact Hs. mstep.
    erewrite dict_getitem_Some by exact Ht. mstep.
    match goal with
    | |- context [trip_stops_loop route id stops ?T0 ?s1] =>
        edestruct (IH T0 s1) as [t' Ht']; [apply lookup_insert_eq | apply dict_get_set_eq |]
    end.
    exists t'. rewrite Ht'. cbn [routes_schedules set_routes_schedules].
    by rewrite insert_insert_eq, dict_set_set.
Qed.

Lemma generateTrip_frame route id h m s trips :
  routes_schedules s !! route = Some trips ->
  exists t,
    routes_schedules (generateTrip route id h m s).2
    = <[route := dict_set id t trips]> (routes_schedules s).
Proof.
  intros Hs. unfold generateTrip. mstep.
  erewrite map_getitem_Some by exact Hs. mstep.
  rewrite bind_lift_case.
  destruct (datetime_jan1 2000 h m 0) as [T| | |]; [|by exists []|by exists []|by exists []].
  mstep. rewrite bind_lift_case.
  destruct (map_getitem route (routes_stops s)) as [stops| | |]; [|by exists []|by exists []|by exists []].
  match goal with
  | |- context [trip_stops_loop route id stops ?T0 ?s1] =>
      edestruct (trip_stops_loop_frame route id stops T0 s1) as [t' Ht'];
        [apply lookup_insert_eq | apply dict_get_set_eq |]
  end.
  exists t'. rewrite Ht'. cbn [routes_schedules set_routes_schedules].
  by rewrite insert_insert_eq, dict_set_set.
Qed.

Lemma trips_loop_frame route hour minutes : forall num s trips,
  routes_schedules s !! route = Some trips ->
  dict_keys trips = trip_ids route num ->
  0 <= num -> num + Z.of_nat (length minutes) <= 9999 ->
  exists num' trips',
    routes_schedules (trips_loop route hour minutes num s).2 !! route = Some trips'
    /\ dict_keys trips' = trip_ids route num'
    /\ (forall id, id ∈ dict_keys trips -> dict_get id trips' = dict_get id trips)
    /\ num <= num' <= num + Z.of_nat (length minutes)
    /\ forall x, (trips_loop route hour minutes num s).1 = Done x -> x = num'.
Proof.
  induction minutes as [|minute minutes IH]; intros num s trips Hs Hkeys Hnum Hmax.
  - exists num, trips. cbn. repeat split; try done; try lia. by intros x [= ->].
  - cbn [length] in Hmax |- *. cbn [trips_loop].
    set (id := route +:+ fmt_04d (num + 1)).
    assert (id ∉ dict_keys trips) as Hfresh.
    { rewrite Hkeys. apply trip_id_fresh; lia. }
    destruct (generateTrip_frame route id hour minute s trips Hs) as [t Ht].
    assert (forall id', id' ∈ dict_keys trips ->
              dict_get id' (dict_set id t trips) = dict_get id' trips) as Hold.
    { intros id' Hin. apply dict_get_set_ne. by intros ->. }
    assert (dict_keys (dict_set id t trips) = trip_ids route (num + 1)) as Hkeys1.
    { rewrite dict_keys_set_fresh by done. rewrite Hkeys. by rewrite trip_ids_succ. }
    destruct (generateTrip route id hour minute s) as [[[]|e| |] s1] eqn:Hrun; cbn [snd] in Ht.
    + rewrite (bind_run _ _ _ _ _ Hrun).
      destruct (IH (num + 1) s1 (dict_set id t trips)) as (num' & trips' & H1 & H2 & H3 & H4 & H5);
        [by rewrite Ht, lookup_insert_eq | done | lia | lia |].
      exists num', trips'. split; [done|]. split; [done|]. split; [|split; [lia | done]].
      intros id' Hin. rewrite H3, Hold; [done | done|].
      rewrite Hkeys1, trip_ids_succ by lia. rewrite <- Hkeys. apply elem_of_app. by left.
    + rewrite (bind_run_Raise _ _ _ _ _ Hrun). cbn [fst snd].
      exists (num + 1), (dict_set id t trips).
      split; [by rewrite Ht, lookup_insert_eq|]. split; [done|]. split; [done|].
      split; [lia | done].
    + rewrite (bind_run_OutOfFuel _ _ _ _ Hrun). cbn [fst snd].
      exists (num + 1), (dict_set id t trips).
      split; [by rewrite Ht, lookup_insert_eq|]. split; [done|]. split; [done|].
      split; [lia | done].
    + rewrite (bind_run_Unmodelled _ _ _ _ Hrun). cbn [fst snd].
      exists (num + 1), (dict_set id t trips).
      split; [by rewrite Ht, lookup_insert_eq|]. split; [done|]. split; [done|].
      split; [lia | done].
Qed.

Lemma minutes_loop_length fuel : forall F cur acc l,
  0 < F -> minutes_loop fuel F cur acc = Done l ->
  Z.of_nat (length l) <= Z.of_nat (length acc) + Z.max 0 (60 - cur).
Proof.
  induction fuel as [|fuel IH]; intros F cur acc l HF; cbn [minutes_loop];
    destruct (Z.ltb_spec cur 60) as [Hlt|Hge]; try done.
  - intros [= <-]. lia.
  - intros Hrun. apply IH in Hrun; [|done]. rewrite length_app in Hrun. cbn in Hrun. lia.
  - intros [= <-]. lia.
Qed.

Lemma calculateFrequencyMinutes_length fuel F l :
  calculateFrequencyMinutes fuel F 0 = Done (Some l) -> (length l <= 60)%nat.
Proof.
  unfold calculateFrequencyMinutes. rewrite Z.gtb_ltb.
  destruct (Z.ltb_spec 60 F); [done|]. destruct (Z.ltb_spec F 1); [done|]. cbn [orb].
  destruct (minutes_loop fuel F 0 []) as [l'| | |] eqn:Hrun; rbind; [|done|done|done].
  intros [= <-]. apply minutes_loop_length in Hrun; [|lia]. cbn in Hrun. lia.
Qed.

Lemma trip_ids_mono route a b id : a <= b -> id ∈ trip_ids route a -> id ∈ trip_ids route b.
Proof.
  intros Hab (k & Hk & ->)%elem_of_trip_ids. apply elem_of_trip_ids. exists k. split; [lia|done].
Qed.

Lemma schedule_loop_frame fuel route freqs : forall hour count num s trips,
  routes_schedules s !! route = Some trips ->
  dict_keys trips = trip_ids route num ->
  0 <= num -> num + 60 * Z.of_nat (length freqs) <= 9999 ->
  exists num' trips',
    routes_schedules (schedule_loop fuel route freqs hour count num s).2 !! route = Some trips'
    /\ dict_keys trips' = trip_ids route num'
    /\ (forall id, id ∈ dict_keys trips -> dict_get id trips' = dict_get id trips)
    /\ num <= num' <= num + 60 * Z.of_nat (length freqs).
Proof.
  induction freqs as [|f freqs IH]; intros hour count num s trips Hs Hkeys Hnum Hmax.
  - exists num, trips. cbn. repeat split; try done; lia.
  - cbn [length] in Hmax |- *. cbn [schedule_loop].
    assert (exists num' trips',
              routes_schedules s !! route = Some trips'
              /\ dict_keys trips' = trip_ids route num'
              /\ (forall id, id ∈ dict_keys trips -> dict_get id trips' = dict_get id trips)
              /\ num <= num' <= num + 60 * Z.of_nat (S (length freqs))) as Hstay.
    { exists num, trips. repeat split; try done; lia. }
    rewrite bind_lift_case. destruct (py_int f) as [F| | |]; [|done|done|done].
    rewrite bind_lift_case.
    destruct (calculateFrequencyMinutes fuel F 0) as [[minutes|]| | |] eqn:Hc; [| |done|done|done].
    + apply calculateFrequencyMinutes_length in Hc.
      set (hour' := if hour =? 24 then 0 else hour).
      destruct (trips_loop_frame route hour' minutes num s trips Hs Hkeys Hnum ltac:(lia))
        as (num1 & trips1 & Hs1 & Hkeys1 & Hold1 & Hnum1 & Hres).
      destruct (trips_loop route hour' minutes num s) as [[x|e| |] s1] eqn:Hrun;
        cbn [fst snd] in Hs1, Hres.
      * rewrite (bind_run _ _ _ _ _ Hrun).
        destruct (count =? 23).
        { exists num1, trips1. cbn. repeat split; try done; lia. }
        destruct (IH (hour' + 1) (count + 1) x s1 trips1)
          as (num2 & trips2 & Hs2 & Hkeys2 & Hold2 & Hnum2);
          [done | by rewrite (Hres x) | rewrite (Hres x) by done; lia
          | rewrite (Hres x) by done; lia |].
        rewrite (Hres x eq_refl) in Hnum2.
        exists num2, trips2. split; [done|]. split; [done|]. split; [|lia].
        intros id Hin. rewrite Hold2, Hold1; [done | done|].
        rewrite Hkeys1. apply (trip_ids_mono route num); [lia|]. by rewrite <- Hkeys.
      * rewrite (bind_run_Raise _ _ _ _ _ Hrun).
        exists num1, trips1. cbn. repeat split; try done; lia.
      * rewrite (bind_run_OutOfFuel _ _ _ _ Hrun).
        exists num1, trips1. cbn. repeat split; try done; lia.
      * rewrite (bind_run_Unmodelled _ _ _ _ Hrun).
        exists num1, trips1. cbn. repeat split; try done; lia.
    + destruct (IH ((if hour =? 24 then 0 else hour) + 1) (count + 1) num s trips)
        as (num2 & trips2 & Hs2 & Hkeys2 & Hold2 & Hnum2); [done | done | lia | lia |].
      exists num2, trips2. repeat split; try done; lia.
Qed.



(** ** [generateRouteSchedule] *)

Lemma head_of_keys {K V} `{EqDecision K} (d : pydict K V) k ks v :
  dict_keys d = k :: ks -> dict_get k d = Some v -> head d = Some (k, v).
Proof.
  destruct d as [|[k' v'] d]; [done|]. cbn. intros [= -> _].
  rewrite decide_True by done. by intros [= ->].
Qed.

Lemma frequency_30 fuel : (60 <= fuel)%nat ->
  calculateFrequencyMinutes fuel 30 0 = Done (Some [0; 30]).
Proof. intros Hfuel. by rewrite calculateFrequencyMinutes_in_range by lia. Qed.

Lemma generateTrip_first_27 s :
  routes_stops s !! "27" = Some stops_27 ->
  routes_schedules s !! "27" = Some [] ->
  generateTrip "27" "270001" 3 0 s
  = (Done tt,
     set_routes_schedules (<["27" := [("270001", first_trip_27)]]> (routes_schedules s)) s).
Proof.
  intros Hstops Hs.
  rewrite (generateTrip_run "27" "270001" 3 0 s [] stops_27 [0; 120; 90]); try done; try lia.
  - repeat constructor; by vm_compute.
  - repeat (constructor; [by vm_compute|]). constructor.
Qed.

Lemma trips_loop_first_27 s :
  routes_stops s !! "27" = Some stops_27 ->
  routes_schedules s !! "27" = Some [] ->
  exists num1 trips1,
    routes_schedules (trips_loop "27" 3 [0; 30] 0 s).2 !! "27" = Some trips1
    /\ dict_keys trips1 = trip_ids "27" num1
    /\ 1 <= num1 <= 2
    /\ dict_get "270001" trips1 = Some first_trip_27
    /\ forall x, (trips_loop "27" 3 [0; 30] 0 s).1 = Done x -> x = num1.
Proof.
  intros Hstops Hs.
  change (trips_loop "27" 3 [0; 30] 0)
    with (generateTrip "27" "270001" 3 0;; trips_loop "27" 3 [30] (0 + 1)).
  rewrite (bind_run _ _ _ _ _ (generateTrip_first_27 s Hstops Hs)).
  set (s1 := set_routes_schedules _ s).
  destruct (trips_loop_frame "27" 3 [30] (0 + 1) s1 [("270001", first_trip_27)])
    as (num1 & trips1 & Hs1 & Hkeys1 & Hold1 & Hnum1 & Hres);
    [apply lookup_insert_eq | reflexivity | lia | cbn; lia |].
  cbn [length] in Hnum1. exists num1, trips1.
  split; [done|]. split; [done|]. split; [lia|]. split; [|done].
  rewrite Hold1; [done | apply list_elem_of_here].
Qed.

(** C7, as stated (refuted). In the scenario the first trip of route "27"
    has the id "270001", the route id and a four-digit counter; no trip has
    the id "2700010003". *)
Lemma first_trip_id_is_route_and_counter :
  exists s' trips',
    generateRouteSchedule 60 "27" "MF" scenario_27 = (Done tt, s')
    /\ routes_schedules s' !! "27" = Some trips'
    /\ head (dict_keys trips') = Some "270001"
    /\ "270001" <> "2700010003"
    /\ dict_get "2700010003" trips' = None.
Proof.
  eexists _, _. split; [by vm_compute|]. split; [by vm_compute|]. by repeat split.
Qed.

(** C7, amended. For route "27" with the stops [("A",0),("B",120),("C",90)]
    and a frequency of 30 minutes in the hour that starts at 03:00, the
    day-start hour, whatever the other hours hold and whatever the
    outcome of the run, the first trip generated has the id "270001" and the
    stop times A=03:00:00, B=03:02:00, C=03:03:30; no trip has the id
    "2700010003". *)
Theorem generateRouteSchedule_first_trip (fuel : nat) (s : Self) (fs : list string) :
  (60 <= fuel)%nat ->
  frequency s = [MF_header; "27" :: fs] ->
  fs !! 3%nat = Some "30" ->
  routes_stops s !! "27" = Some stops_27 ->
  routes_schedules s !! "27" = Some [] ->
  exists trips',
    routes_schedules (generateRouteSchedule fuel "27" "MF" s).2 !! "27" = Some trips'
    /\ head trips' = Some ("270001", first_trip_27)
    /\ dict_get "2700010003" trips' = None.
Proof.
  intros Hfuel Hfreq H30 Hstops Hs.
  assert (forall num trips',
            1 <= num <= 9999 -> dict_keys trips' = trip_ids "27" num ->
            dict_get "270001" trips' = Some first_trip_27 ->
            head trips' = Some ("270001", first_trip_27)
            /\ dict_get "2700010003" trips' = None) as Hfinish.
  { intros num trips' Hnum Hkeys Hget. split.
    - eapply head_of_keys; [|done]. rewrite Hkeys. unfold trip_ids.
      rewrite seqZ_cons by lia. reflexivity.
    - apply dict_get_None. rewrite Hkeys. intros (k & Hk & Heq)%elem_of_trip_ids.
      rewrite fmt_04d_digits in Heq by lia. by apply (f_equal String.length) in Heq. }
  destruct fs as [|f0 [|f1 [|f2 [|f3 rest]]]]; try done. injection H30 as ->.
  unfold generateRouteSchedule. mstep. rewrite Hfreq.
  change (first_column [MF_header; "27" :: f0 :: f1 :: f2 :: "30" :: rest])
    with (Done (A:=list string) ["route"; "27"]).
  mstep. change (py_index "27" ["route"; "27"]) with (Done (A:=nat) 1%nat). mstep.
  change (getitem [MF_header; "27" :: f0 :: f1 :: f2 :: "30" :: rest] 1)
    with (Done ("27" :: f0 :: f1 :: f2 :: "30" :: rest)).
  mstep.
  change (getitem [MF_header; "27" :: f0 :: f1 :: f2 :: "30" :: rest] 0)
    with (Done MF_header).
  mstep. change (py_index ("MF" +:+ "00") MF_header) with (Done (A:=nat) 1%nat).
  mstep. change (py_index ("MF" +:+ "23") MF_header) with (Done (A:=nat) 24%nat).
  mstep.
  change (drop (Z.to_nat START_DAY_HOUR)
            (py_slice 1 (24 + 1) ("27" :: f0 :: f1 :: f2 :: "30" :: rest))
          ++ take (Z.to_nat START_DAY_HOUR)
               (py_slice 1 (24 + 1) ("27" :: f0 :: f1 :: f2 :: "30" :: rest)))
    with ("30" :: (take 20 rest ++ [f0; f1; f2])).
  cbn [schedule_loop]. change (py_int "30") with (Done 30). mstep.
  rewrite frequency_30 by done. mstep.
  change (if START_DAY_HOUR =? 24 then 0 else START_DAY_HOUR) with 3.
  destruct (trips_loop_first_27 s Hstops Hs)
    as (num1 & trips1 & Hs1 & Hkeys1 & Hnum1 & Hget1 & Hres).
  destruct (trips_loop "27" 3 [0; 30] 0 s) as [[x|e| |] s2] eqn:Hrun;
    cbn [fst snd] in Hs1, Hres.
  - rewrite (bind_run _ _ _ _ _ Hrun). rewrite (Hres x eq_refl).
    change (0 =? 23) with false. cbn match.
    destruct (schedule_loop_frame fuel "27" (take 20 rest ++ [f0; f1; f2]) (3 + 1) (0 + 1)
                num1 s2 trips1 Hs1 Hkeys1)
      as (num2 & trips2 & Hs2 & Hkeys2 & Hold2 & Hnum2).
    { lia. }
    { rewrite length_app, length_take. cbn [length]. lia. }
    exists trips2. split; [done|].
    revert Hnum2. rewrite length_app, length_take. cbn [length]. intros Hnum2.
    apply (Hfinish num2); [lia | done|].
    rewrite Hold2; [done|]. rewrite Hkeys1. apply elem_of_trip_ids. exists 1.
    split; [lia | done].
  - rewrite (bind_run_Raise _ _ _ _ _ Hrun). exists trips1. split; [done|].
    apply (Hfinish num1); [lia | done | done].
  - rewrite (bind_run_OutOfFuel _ _ _ _ Hrun). exists trips1. split; [done|].
    apply (Hfinish num1); [lia | done | done].
  - rewrite (bind_run_Unmodelled _ _ _ _ Hrun). exists trips1. split; [done|].
    apply (Hfinish num1); [lia | done | done].
Qed.

Lemma generateRouteSchedule_first_trip_witness :
  exists trips',
    routes_schedules (generateRouteSchedule 60 "27" "MF" scenario_27).2 !! "27" = Some trips'
    /\ head trips' = Some ("270001", first_trip_27).
Proof.
  destruct (generateRouteSchedule_first_trip 60 scenario_27
              ["0"; "0"; "0"; "30"; "30"; "30"; "60"; "60"; "60"; "60"; "60"; "60"; "60";
               "60"; "60"; "60"; "60"; "60"; "60"; "60"; "60"; "60"; "60"; "60"])
    as (trips' & Hs' & Hhead & _);
    [lia | reflexivity | reflexivity | reflexivity | reflexivity |].
  exists trips'. split; [exact Hs' | exact Hhead].
Defined.

(** * Further properties of the code *)

(** ** What the methods leave alone *)

Section respects.
Context (R : Self -> Self -> Prop).
Context (R_refl : forall s, R s s).
Context (R_trans : forall s1 s2 s3, R s1 s2 -> R s2 s3 -> R s1 s3).

Lemma respects_bind {A B} (m : M A) (f : A -> M B) :
  respects R m -> (forall a, respects R (f a)) -> respects R (m ≫= f).
Proof using R_trans.
  intros Hm Hf s. unfold mbind, M_bind. specialize (Hm s).
  destruct (m s) as [[a| | |] s']; cbn in *; [|done|done|done].
  eapply R_trans; [exact Hm | apply Hf].
Qed.

Lemma respects_lift {A} (r : result A) : respects R (lift r).
Proof using R_refl. intros s. apply R_refl. Qed.

Lemma respects_mret {A} (a : A) : respects R (mret a).
Proof using R_refl. intros s. apply R_refl. Qed.

Lemma respects_get_self : respects R get_self.
Proof using R_refl. intros s. apply R_refl. Qed.

Lemma respects_raise {A} e : respects R (@raise A e).
Proof using R_refl. intros s. apply R_refl. Qed.

Lemma respects_modify f : (forall s, R s (f s)) -> respects R (modify f).
Proof. intros Hf s. apply Hf. Qed.

Lemma respects_for_each {A} (l : list A) (body : A -> M unit) :
  (forall x, respects R (body x)) -> respects R (for_each l body).
Proof using R_refl R_trans.
  intros Hbody. induction l as [|x l IH]; cbn [for_each]; [apply respects_mret|].
  apply respects_bind; [apply Hbody | by intros _].
Qed.

Ltac respects_step :=
  lazymatch goal with
  | |- respects _ (mbind _ _) => apply respects_bind; [|intros ?]
  | |- respects _ (lift _) => apply respects_lift
  | |- respects _ (mret _) => apply respects_mret
  | |- respects _ get_self => apply respects_get_self
  | |- respects _ (raise _) => apply respects_raise
  | |- respects _ (modify _) => apply respects_modify; intros ?
  | |- respects _ (print _) => apply respects_modify; intros ?
  | |- respects _ (for_each _ _) => apply respects_for_each; intros ?
  | |- respects _ (match ?x with _ => _ end) => destruct x
  end.

(** The writes that the methods make. *)
Context (R_priority : forall v s, R s (set_priority v s)).
Context (R_stops : forall v s, R s (set_routes_stops v s)).
Context (R_order : forall v s, R s (set_routes_order v s)).

Section generation.
Context (R_schedules : forall v s, R s (set_routes_schedules v s)).

Lemma respects_trip_stops_loop route id stops : forall trip_time,
  respects R (trip_stops_loop route id stops trip_time).
Proof using R_refl R_trans R_schedules.
  induction stops as [|st stops IH]; intros trip_time; cbn [trip_stops_loop].
  - apply respects_mret.
  - cbn zeta. repeat respects_step; [apply R_schedules | apply IH].
Qed.

Lemma respects_generateTrip route id h m : respects R (generateTrip route id h m).
Proof using R_refl R_trans R_schedules.
  unfold generateTrip. repeat respects_step;
    [apply R_schedules | apply respects_trip_stops_loop].
Qed.

Lemma respects_trips_loop route hour minutes : forall num,
  respects R (trips_loop route hour minutes num).
Proof using R_refl R_trans R_schedules.
  induction minutes as [|minute minutes IH]; intros num; cbn [trips_loop].
  - apply respects_mret.
  - apply respects_bind; [apply respects_generateTrip | intros _; apply IH].
Qed.

Lemma respects_schedule_loop fuel route freqs : forall hour count num,
  respects R (schedule_loop fuel route freqs hour count num).
Proof using R_refl R_trans R_schedules.
  induction freqs as [|f freqs IH]; intros hour count num; cbn [schedule_loop].
  - apply respects_mret.
  - cbn zeta. repeat respects_step; first [apply respects_trips_loop | apply IH].
Qed.

Lemma respects_generateRouteSchedule fuel route period :
  respects R (generateRouteSchedule fuel route period).
Proof using R_refl R_trans R_schedules.
  unfold generateRouteSchedule. cbn zeta. repeat respects_step.
  apply respects_schedule_loop.
Qed.

Lemma respects_order_loop n : forall L, respects R (order_loop n L).
Proof using R_refl R_trans R_order.
  induction n as [|n IH]; intros L; cbn [order_loop]; [apply respects_mret|].
  unfold routes_order_append. repeat respects_step; first [apply R_order | apply IH].
Qed.

Lemma respects_arrangeRoutes : respects R arrangeRoutes.
Proof using R_refl R_trans R_priority R_stops R_order R_schedules.
  unfold arrangeRoutes, arrange_route. cbn zeta. repeat respects_step;
    first [apply R_priority | apply R_stops | apply R_schedules | apply R_order
          | apply respects_order_loop].
Qed.

Context (R_finalized : forall route s,
  R s (set_routes_schedules_finalized (<[route := false]> (routes_schedules_finalized s)) s)).
Context (R_stdout : forall v s, R s (set_stdout v s)).

Lemma respects_generateSchedules fuel period :
  respects R (generateSchedules fuel period).
Proof using R_refl R_trans R_schedules R_finalized R_stdout.
  unfold generateSchedules. repeat respects_step;
    first [apply R_finalized | apply R_stdout | apply respects_generateRouteSchedule].
Qed.
End generation.

Context (R_stdout : forall v s, R s (set_stdout v s)).

Lemma respects_hours_loop n route : forall hour, respects R (hours_loop n route hour).
Proof using R_refl R_trans R_stdout.
  induction n as [|n IH]; intros hour; cbn [hours_loop]; [apply respects_mret|].
  cbn zeta. repeat respects_step; first [apply R_stdout | apply IH].
Qed.

Lemma respects_minimizeRouteWaitTime route : respects R (minimizeRouteWaitTime route).
Proof using R_refl R_trans R_stdout. apply respects_hours_loop. Qed.

Lemma respects_node_conn_loop node_list route : forall time,
  respects R (node_conn_loop node_list route time).
Proof using R_refl R_trans.
  induction node_list as [|node rest IH]; intros time; cbn [node_conn_loop];
    [apply respects_mret|].
  unfold call_evaluateConnectionTime. cbn zeta. repeat respects_step. apply IH.
Qed.

Lemma respects_evaluateNodeConnections route : respects R (evaluateNodeConnections route).
Proof using R_refl R_trans.
  unfold evaluateNodeConnections. repeat respects_step. apply respects_node_conn_loop.
Qed.

Lemma respects_optimizeNodeConnections fuel : respects R (optimizeNodeConnections fuel).
Proof using R_refl R_trans R_stdout.
  unfold optimizeNodeConnections, calculateNodeNumber. cbn zeta. repeat respects_step;
    first [apply R_stdout | apply respects_evaluateNodeConnections
          | apply respects_minimizeRouteWaitTime].
Qed.
End respects.

Lemma same_tables_refl s : same_tables s s.
Proof. by repeat split. Qed.

Lemma same_tables_trans s1 s2 s3 : same_tables s1 s2 -> same_tables s2 s3 -> same_tables s1 s3.
Proof. intros (? & ? & ? & ?) (? & ? & ? & ?). repeat split; congruence. Qed.

Lemma same_plan_refl s : same_plan s s.
Proof. by repeat split. Qed.

Lemma same_plan_trans s1 s2 s3 : same_plan s1 s2 -> same_plan s2 s3 -> same_plan s1 s3.
Proof. intros (? & ? & ?) (? & ? & ?). repeat split; congruence. Qed.

Lemma none_finalized_refl s : none_finalized s s.
Proof. by intros route. Qed.

Lemma none_finalized_trans s1 s2 s3 :
  none_finalized s1 s2 -> none_finalized s2 s3 -> none_finalized s1 s3.
Proof. intros H12 H23 route H. by apply H12, H23. Qed.

Lemma none_finalized_false route s :
  none_finalized s
    (set_routes_schedules_finalized (<[route := false]> (routes_schedules_finalized s)) s).
Proof.
  intros r. cbn. destruct (decide (route = r)) as [->|Hne].
  - by rewrite lookup_insert_eq.
  - by rewrite lookup_insert_ne.
Qed.

(** The input tables [routes], [buses], [nodes] and [frequency] are read
    only: [arrangeRoutes], [generateSchedules] (with [generateRouteSchedule]
    and [generateTrip]) and [optimizeNodeConnections] leave them as they
    were, whether they return or raise. *)
Theorem tables_are_read_only (fuel : nat) (period : string) (s : Self) :
  same_tables s (arrangeRoutes s).2
  /\ same_tables s (generateSchedules fuel period s).2
  /\ same_tables s (optimizeNodeConnections fuel s).2
  /\ (forall route, same_tables s (generateRouteSchedule fuel route period s).2)
  /\ (forall route id h m, same_tables s (generateTrip route id h m s).2).
Proof.
  split; [|split; [|split; [|split]]].
  - apply (respects_arrangeRoutes same_tables same_tables_refl same_tables_trans); done.
  - apply (respects_generateSchedules same_tables same_tables_refl same_tables_trans); done.
  - apply (respects_optimizeNodeConnections same_tables same_tables_refl same_tables_trans); done.
  - intros route.
    apply (respects_generateRouteSchedule same_tables same_tables_refl same_tables_trans); done.
  - intros route id h m.
    apply (respects_generateTrip same_tables same_tables_refl same_tables_trans); done.
Qed.

(** Once [arrangeRoutes] has run, nothing else rewrites what it set up:
    [generateSchedules], [generateRouteSchedule], [generateTrip],
    [optimizeNodeConnections] and [minimizeRouteWaitTime] leave [priority],
    [routes_stops] and [routes_order] as they were, whether they return or
    raise. *)
Theorem plan_is_kept (fuel : nat) (period : string) (s : Self) :
  same_plan s (generateSchedules fuel period s).2
  /\ same_plan s (optimizeNodeConnections fuel s).2
  /\ (forall route, same_plan s (generateRouteSchedule fuel route period s).2)
  /\ (forall route id h m, same_plan s (generateTrip route id h m s).2)
  /\ (forall route, same_plan s (minimizeRouteWaitTime route s).2).
Proof.
  split; [|split; [|split; [|split]]].
  - apply (respects_generateSchedules same_plan same_plan_refl same_plan_trans); done.
  - apply (respects_optimizeNodeConnections same_plan same_plan_refl same_plan_trans); done.
  - intros route.
    apply (respects_generateRouteSchedule same_plan same_plan_refl same_plan_trans); done.
  - intros route id h m.
    apply (respects_generateTrip same_plan same_plan_refl same_plan_trans); done.
  - intros route.
    apply (respects_minimizeRouteWaitTime same_plan same_plan_refl same_plan_trans); done.
Qed.

(** No method ever marks a route as finalized: a route whose flag is [True]
    after [arrangeRoutes], [generateSchedules] or [optimizeNodeConnections]
    had it [True] before; [generateSchedules] only writes [False]. *)
Theorem never_finalized (fuel : nat) (period : string) (s : Self) :
  none_finalized s (arrangeRoutes s).2
  /\ none_finalized s (generateSchedules fuel period s).2
  /\ none_finalized s (optimizeNodeConnections fuel s).2.
Proof.
  split; [|split].
  - apply (respects_arrangeRoutes none_finalized none_finalized_refl none_finalized_trans);
      by intros v s0 route.
  - apply (respects_generateSchedules none_finalized none_finalized_refl
             none_finalized_trans);
      [by intros v s0 route | apply none_finalized_false | by intros v s0 route].
  - apply (respects_optimizeNodeConnections none_finalized none_finalized_refl
             none_finalized_trans); by intros v s0 route.
Qed.

(** [generateTrip] writes one trip and nothing else. When the route has a
    schedule, then whatever the outcome the schedules of the other routes
    and the other trips of the route are as before and the trip id is a key
    of the route's schedule, at its old position or appended; when the route
    has no schedule it raises [KeyError] and changes nothing. *)
Theorem generateTrip_writes_one_trip (s : Self) (route id : string) (h m : Z) :
  (forall trips, routes_schedules s !! route = Some trips ->
     exists t,
       routes_schedules (generateTrip route id h m s).2
       = <[route := dict_set id t trips]> (routes_schedules s)
       /\ (forall route', route' <> route ->
             routes_schedules (generateTrip route id h m s).2 !! route'
             = routes_schedules s !! route')
       /\ (forall id', id' <> id ->
             dict_get id' (dict_set id t trips) = dict_get id' trips)
       /\ dict_keys (dict_set id t trips)
          = (if decide (id ∈ dict_keys trips) then dict_keys trips
             else dict_keys trips ++ [id]))
  /\ (routes_schedules s !! route = None ->
        generateTrip route id h m s = (Raise KeyError, s)).
Proof.
  split.
  - intros trips Hs. destruct (generateTrip_frame route id h m s trips Hs) as [t Ht].
    exists t. split; [done|]. split; [|split].
    + intros route' Hne. rewrite Ht. by apply lookup_insert_ne.
    + intros id' Hne. by apply dict_get_set_ne.
    + case_decide; [by apply dict_keys_set_present | by apply dict_keys_set_fresh].
  - intros Hnone. unfold generateTrip. mstep. unfold map_getitem. by rewrite Hnone.
Qed.

Lemma generateTrip_writes_one_trip_witness :
  generateTrip "28" "280001" 3 0 midnight_route = (Raise KeyError, midnight_route).
Proof.
  destruct (generateTrip_writes_one_trip midnight_route "28" "280001" 3 0) as [_ H].
  apply H. reflexivity.
Defined.

(** ** More on [arrangeRoutes] *)

Lemma register_route_other route_points rid ids : forall s,
  rid ∉ ids ->
  routes_stops (foldl (register_route route_points) s ids) !! rid = routes_stops s !! rid
  /\ routes_schedules (foldl (register_route route_points) s ids) !! rid
     = routes_schedules s !! rid.
Proof.
  induction ids as [|x ids IH]; intros s Hnin; [done|].
  apply not_elem_of_cons in Hnin as [Hne Hnin]. cbn [foldl].
  destruct (IH (register_route route_points s x) Hnin) as [-> ->]. cbn.
  by rewrite !lookup_insert_ne.
Qed.

(** [arrangeRoutes] starts every route of the priority table afresh and
    touches no other route. For a well-formed table it returns; [priority]
    has lost its header row; every route id of the table has an empty
    schedule, so trips generated before are discarded; and a route id that
    is not in the table keeps the stop list and the schedule it had. *)
Theorem arrangeRoutes_resets_listed_routes (self : Self) (header : list string)
    (rows : list (list string)) (entries : list (string * Z)) :
  priority self = header :: rows ->
  Forall2 priority_entry rows entries ->
  Forall (fun rp : list string => (6 <= length rp)%nat) (routes self) ->
  exists self', arrangeRoutes self = (Done tt, self')
    /\ priority self' = rows
    /\ (forall rid, rid ∈ entries.*1 -> routes_schedules self' !! rid = Some [])
    /\ (forall rid, rid ∉ entries.*1 ->
          routes_stops self' !! rid = routes_stops self !! rid
          /\ routes_schedules self' !! rid = routes_schedules self !! rid).
Proof.
  intros Hprio Hrows Hwf. eexists. split; [by eapply arrangeRoutes_run|].
  cbn [priority routes_schedules routes_stops set_routes_order].
  split; [|split].
  - by destruct (register_route_frame (routes self) entries.*1 (set_priority rows self))
      as (_ & -> & _).
  - intros rid Hin. by apply register_route_schedules.
  - intros rid Hnin. by apply (register_route_other _ _ _ (set_priority rows self)).
Qed.

Lemma arrangeRoutes_resets_listed_routes_witness :
  exists self', arrangeRoutes earlier_run = (Done tt, self')
    /\ routes_schedules self' !! "10" = Some []
    /\ routes_schedules self' !! "99" = Some [("990001", [("Z", "03:00:07")])].
Proof.
  destruct (arrangeRoutes_resets_listed_routes earlier_run ["route"; "priority"]
              [["10"; "1"]] [("10", 1)]) as (self' & Hrun & _ & Hin & Hout).
  - reflexivity.
  - repeat constructor. cbn. eexists. split; [reflexivity | by vm_compute].
  - repeat constructor; cbn; lia.
  - exists self'. split; [done|]. split.
    + apply Hin. cbn. apply list_elem_of_here.
    + destruct (Hout "99") as [_ Hsame]; [|exact Hsame].
      cbn. by intros ?%list_elem_of_singleton.
Defined.

Lemma select_permutation (entries : list (string * Z)) :
  Forall (fun e : string * Z => 1 <= e.2 <= 19) entries ->
  select (length entries) entries.*2 ≡ₚ seq 0 (length entries).
Proof.
  intros Hranks. rewrite Forall_forall in Hranks.
  assert (forall x, x ∈ entries.*2 -> 1 <= x <= 19) as Hall.
  { intros x (e & -> & He)%list_elem_of_fmap. by apply Hranks. }
  destruct (select_sorted (length entries) entries.*2) as (Hnd & Hmem & _).
  { intros x Hx. specialize (Hall x Hx). lia. }
  { rewrite <- (length_fmap snd entries) at 1. f_equal. symmetry.
    apply filter_all, Forall_forall. intros x Hx. specialize (Hall x Hx). unfold live. lia. }
  apply NoDup_Permutation; [done | apply NoDup_seq|].
  intros i. rewrite Hmem, elem_of_seq. split.
  - intros (x & Hx & _). apply lookup_lt_Some in Hx. rewrite length_fmap in Hx. lia.
  - intros [_ Hi]. destruct (lookup_lt_is_Some_2 entries.*2 i) as [x Hx].
    { rewrite length_fmap. lia. }
    exists x. split; [done|]. apply list_elem_of_lookup_2 in Hx.
    specialize (Hall x Hx). unfold live. lia.
Qed.

(** [arrangeRoutes] is not idempotent: each run deletes the first row of
    [priority]. A second run takes the first route row for the header, so
    [routes_order] then orders the remaining rows only; on a table that is
    down to its header the third run raises [IndexError]. *)
Theorem arrangeRoutes_twice (self : Self) (header row1 : list string) (e1 : string * Z)
    (rows : list (list string)) (entries : list (string * Z)) :
  priority self = header :: row1 :: rows ->
  priority_entry row1 e1 ->
  Forall2 priority_entry rows entries ->
  Forall (fun e : string * Z => 1 <= e.2 <= 19) entries ->
  Forall (fun rp : list string => (6 <= length rp)%nat) (routes self) ->
  exists self'' order,
    (arrangeRoutes;; arrangeRoutes) self = (Done tt, self'')
    /\ priority self'' = rows
    /\ routes_order self'' = Some order
    /\ order ≡ₚ entries.*1
    /\ (rows = [] ->
          (arrangeRoutes;; arrangeRoutes;; arrangeRoutes) self = (Raise IndexError, self'')).
Proof.
  intros Hprio He1 Hrows Hranks Hwf.
  pose proof (arrangeRoutes_run self header (row1 :: rows) (e1 :: entries) Hprio
                ltac:(by constructor) Hwf) as Hrun1.
  match type of Hrun1 with _ = (_, ?s0) => set (s1 := s0) in * end.
  destruct (register_route_frame (routes self) (e1 :: entries).*1
              (set_priority (row1 :: rows) self)) as (Hr1 & Hp1 & _).
  assert (priority s1 = row1 :: rows) as Hprio1 by done.
  assert (Forall (fun rp : list string => (6 <= length rp)%nat) (routes s1)) as Hwf1.
  { unfold s1. cbn [routes set_routes_order]. rewrite Hr1. exact Hwf. }
  pose proof (arrangeRoutes_run s1 row1 rows entries Hprio1 Hrows Hwf1) as Hrun2.
  pose proof (Forall2_length _ _ _ Hrows) as Hlen.
  eexists _, _. split; [|split; [|split; [|split]]].
  - rewrite (bind_run _ _ _ _ _ Hrun1). exact Hrun2.
  - cbn [priority set_routes_order].
    by destruct (register_route_frame (routes s1) entries.*1 (set_priority rows s1))
      as (_ & -> & _).
  - reflexivity.
  - rewrite Hlen, <- (route_at_seq entries). apply fmap_Permutation.
    by apply select_permutation.
  - intros ->. rewrite (bind_run _ _ _ _ _ Hrun1), (bind_run _ _ _ _ _ Hrun2).
    apply Forall2_nil_inv_l in Hrows as ->. reflexivity.
Qed.

Lemma arrangeRoutes_twice_witness :
  exists self'', (arrangeRoutes;; arrangeRoutes) three_routes = (Done tt, self'')
    /\ routes_order self'' = Some ["10"; "11"].
Proof.
  destruct (arrangeRoutes_twice three_routes ["route"; "priority"] ["12"; "3"] ("12", 3)
              [["10"; "1"]; ["11"; "1"]] [("10", 1); ("11", 1)])
    as (self'' & order & Hrun & _).
  - reflexivity.
  - split; [reflexivity|]. eexists. split; [reflexivity | by vm_compute].
  - repeat constructor; cbn; eexists; (split; [reflexivity | by vm_compute]).
  - repeat constructor; cbn; lia.
  - repeat constructor; cbn; lia.
  - exists self''. split; [exact Hrun|].
    assert ((arrangeRoutes;; arrangeRoutes) three_routes = (Done tt, self'')) as Hrun'
      by exact Hrun.
    vm_compute in Hrun'. injection Hrun' as <-. reflexivity.
Defined.

Lemma select_any n : forall L,
  (n <= length L)%nat ->
  length (select n L) = n /\ Forall (fun i => (i < length L)%nat) (select n L).
Proof.
  induction n as [|n IH]; intros L Hn; [by split|].
  assert (L <> []) as HL by (intros ->; cbn in Hn; lia).
  destruct (select_step n L HL) as (least & i0 & -> & _ & _ & Hi0 & _ & _).
  destruct (IH (<[i0 := 20]> L)) as [Hlen Hall]; [rewrite length_insert; lia|].
  rewrite length_insert in Hall. split; [cbn; by rewrite Hlen|].
  constructor; [by eapply lookup_lt_Some | done].
Qed.

(** [arrangeRoutes] accepts any integer rank. It returns, and
    [routes_order] has one entry per row of the table, each of them a route
    id of the table; with a rank above 19 these entries need not be distinct
    nor cover the table. *)
Theorem arrangeRoutes_any_rank (self : Self) (header : list string)
    (rows : list (list string)) (entries : list (string * Z)) :
  priority self = header :: rows ->
  Forall2 priority_entry rows entries ->
  Forall (fun rp : list string => (6 <= length rp)%nat) (routes self) ->
  exists self' order,
    arrangeRoutes self = (Done tt, self')
    /\ routes_order self' = Some order
    /\ length order = length rows
    /\ forall rid, rid ∈ order -> rid ∈ entries.*1.
Proof.
  intros Hprio Hrows Hwf. pose proof (Forall2_length _ _ _ Hrows) as Hlen.
  destruct (select_any (length rows) entries.*2) as [Hn Hall];
    [rewrite length_fmap; lia|].
  eexists _, _. split; [by eapply arrangeRoutes_run|]. split; [reflexivity|].
  split; [by rewrite length_fmap|].
  intros rid (i & -> & Hi)%list_elem_of_fmap. rewrite Forall_forall in Hall.
  specialize (Hall i Hi). rewrite length_fmap in Hall. unfold route_at.
  destruct (lookup_lt_is_Some_2 entries.*1 i) as [x Hx]; [rewrite length_fmap; lia|].
  rewrite Hx. cbn. by eapply list_elem_of_lookup_2.
Qed.

Lemma arrangeRoutes_any_rank_witness :
  exists self', arrangeRoutes rank_out_of_range = (Done tt, self')
    /\ routes_order self' = Some ["27"; "28"; "27"].
Proof.
  destruct (arrangeRoutes_any_rank rank_out_of_range ["route"; "priority"]
              [["27"; "1"]; ["28"; "1"]; ["29"; "25"]] [("27", 1); ("28", 1); ("29", 25)])
    as (self' & order & Hrun & _).
  - reflexivity.
  - repeat constructor; cbn; eexists; (split; [reflexivity | by vm_compute]).
  - constructor.
  - exists self'. split; [exact Hrun|].
    assert (arrangeRoutes rank_out_of_range = (Done tt, self')) as Hrun' by exact Hrun.
    vm_compute in Hrun'. injection Hrun' as <-. reflexivity.
Defined.

(** ** More on [calculateFrequencyMinutes] *)

Lemma minutes_loop_Done fuel : forall F cur acc l,
  0 < F -> minutes_loop fuel F cur acc = Done l ->
  exists n : nat, l = acc ++ progression F cur n
    /\ (n <= fuel)%nat
    /\ (forall k : nat, (k < n)%nat -> cur + Z.of_nat k * F < 60)
    /\ 60 <= cur + Z.of_nat n * F.
Proof.
  induction fuel as [|fuel IH]; intros F cur acc l HF; cbn [minutes_loop];
    destruct (Z.ltb_spec cur 60) as [Hlt|Hge]; try done.
  - intros [= <-]. exists O. unfold progression. cbn. rewrite app_nil_r.
    repeat split; try lia.
  - intros Hrun. destruct (IH _ _ _ _ HF Hrun) as (n & -> & Hfuel & Hbelow & Hstop).
    exists (S n). rewrite progression_S, <- app_assoc. repeat split; try lia.
    intros [|k] Hk; [lia|]. specialize (Hbelow k ltac:(lia)). lia.
  - intros [= <-]. exists O. unfold progression. cbn. rewrite app_nil_r.
    repeat split; try lia.
Qed.

(** Whatever the fuel, a list that [calculateFrequencyMinutes] returns is
    the progression [S, S+F, ...] of exactly the terms below 60, for a
    frequency in [1,60], and the loop has run once per term. With the shift
    0 that [generateRouteSchedule] passes, the list starts with 0, has at
    most 60 minutes, and every minute is in 0..59, a valid minute for
    [datetime]. *)
Theorem calculateFrequencyMinutes_returns (fuel : nat) (F S : Z) (l : list Z) :
  calculateFrequencyMinutes fuel F S = Done (Some l) ->
  1 <= F <= 60
  /\ (exists n : nat, l = progression F S n
        /\ (n <= fuel)%nat
        /\ (forall k : nat, (k < n)%nat -> S + Z.of_nat k * F < 60)
        /\ 60 <= S + Z.of_nat n * F)
  /\ (S = 0 -> head l = Some 0 /\ (length l <= 60)%nat
               /\ Forall (fun minute => 0 <= minute <= 59) l).
Proof.
  unfold calculateFrequencyMinutes. rewrite Z.gtb_ltb.
  destruct (Z.ltb_spec 60 F); [done|]. destruct (Z.ltb_spec F 1); [done|]. cbn [orb].
  destruct (minutes_loop fuel F S []) as [l'| | |] eqn:Hrun; rbind; [|done|done|done].
  intros [= <-]. split; [lia|].
  destruct (minutes_loop_Done fuel F S [] l' ltac:(lia) Hrun) as (n & -> & Hfuel & Hbelow & Hstop).
  cbn [app]. split; [by exists n|]. intros ->.
  destruct n as [|n]; [lia|]. split; [done|]. split.
  - unfold progression. rewrite length_fmap, length_seq.
    specialize (Hbelow n ltac:(lia)). nia.
  - unfold progression. apply Forall_fmap, Forall_forall.
    intros k [_ Hk]%elem_of_seq. cbn. specialize (Hbelow k ltac:(lia)). nia.
Qed.

Lemma calculateFrequencyMinutes_returns_witness :
  exists n : nat, [0; 20; 40] = progression 20 0 n /\ (n <= 3)%nat.
Proof.
  destruct (calculateFrequencyMinutes_returns 3 20 0 [0; 20; 40]) as (_ & (n & Hn & Hfuel & _) & _).
  - reflexivity.
  - by exists n.
Defined.

(** A negative shift is accepted too: for a frequency in [1,60] and fuel
    for [60 - S] turns, [calculateFrequencyMinutes] returns the progression
    from [S], negative minutes included, up to the last term below 60. *)
Theorem calculateFrequencyMinutes_any_shift (fuel : nat) (F S : Z) :
  1 <= F <= 60 -> 60 - S <= Z.of_nat fuel ->
  exists n : nat,
    calculateFrequencyMinutes fuel F S = Done (Some (progression F S n))
    /\ (forall k : nat, (k < n)%nat -> S + Z.of_nat k * F < 60)
    /\ 60 <= S + Z.of_nat n * F.
Proof.
  intros HF Hfuel. destruct (terms_below_60_spec F S ltac:(lia)) as [Hbelow Hstop].
  exists (terms_below_60 F S). split; [|done].
  unfold calculateFrequencyMinutes. rewrite Z.gtb_ltb.
  destruct (Z.ltb_spec 60 F); [lia|]. destruct (Z.ltb_spec F 1); [lia|]. cbn [orb].
  rewrite (minutes_loop_progression (terms_below_60 F S)); [done | lia | | done | done].
  destruct (terms_below_60 F S) as [|n]; [lia|].
  specialize (Hbelow n ltac:(lia)). nia.
Qed.

Lemma calculateFrequencyMinutes_any_shift_witness :
  exists n : nat,
    calculateFrequencyMinutes 90 30 (-30) = Done (Some (progression 30 (-30) n))
    /\ 60 <= -30 + Z.of_nat n * 30.
Proof.
  destruct (calculateFrequencyMinutes_any_shift 90 30 (-30)) as (n & Hrun & _ & Hstop);
    [lia | lia |].
  by exists n.
Defined.

(** ** How [generateTrip] fails *)

Lemma trip_stops_loop_app route id pre secs rest : forall trip_time s trips t,
  Forall2 (fun st sec => py_int st.2 = Done sec) pre secs ->
  Forall (fun T => 86400 <= T < (MAXORDINAL + 1) * 86400) (stop_instants trip_time secs) ->
  routes_schedules s !! route = Some trips ->
  dict_get id trips = Some t ->
  trip_stops_loop route id (pre ++ rest) trip_time s
  = trip_stops_loop route id rest (trip_time + total secs)
      (set_routes_schedules
         (<[route := dict_set id (record_stops t pre (stop_instants trip_time secs)) trips]>
            (routes_schedules s)) s).
Proof.
  intros trip_time s trips t Hparse. revert trip_time s trips t.
  induction Hparse as [|st sec pre secs Hst _ IH]; intros trip_time s trips t Hrange Hs Ht.
  - cbn. rewrite (dict_set_same _ _ _ Ht), insert_id by done.
    rewrite set_routes_schedules_same. f_equal. lia.
  - cbn [stop_instants] in *. apply Forall_cons in Hrange as [Hnow Hrange].
    cbn [app trip_stops_loop]. rewrite Hst. mstep.
    rewrite datetime_add_seconds_run by done. mstep.
    erewrite map_getitem_Some by exact Hs. mstep.
    erewrite dict_getitem_Some by exact Ht. mstep.
    erewrite IH; [|done|apply lookup_insert_eq|apply dict_get_set_eq].
    rewrite total_cons. unfold set_routes_schedules. cbn.
    rewrite insert_insert_eq, dict_set_set. f_equal. lia.
Qed.

(** [generateTrip] registers the trip, empty, before anything can fail.
    An hour or a minute that does not fit a C [int] raises [OverflowError],
    one that fits but is outside 0..23 or 0..59 raises [ValueError], and a
    route without a stop list raises [KeyError], all leaving the empty trip
    in the schedule. A travel time that is not an integer, such as the
    blank one of a first stop, raises [ValueError] and leaves the trip with
    the stops before it only. *)
Theorem generateTrip_raises (s : Self) (route id : string) (h m : Z) (trips : route_trips) :
  routes_schedules s !! route = Some trips ->
  let empty_trip :=
    set_routes_schedules (<[route := dict_set id [] trips]> (routes_schedules s)) s in
  (~ (- 2 ^ 31 <= h < 2 ^ 31 /\ - 2 ^ 31 <= m < 2 ^ 31) ->
     generateTrip route id h m s = (Raise OverflowError, empty_trip))
  /\ (- 2 ^ 31 <= h < 2 ^ 31 -> - 2 ^ 31 <= m < 2 ^ 31 ->
      ~ (0 <= h <= 23 /\ 0 <= m <= 59) ->
      generateTrip route id h m s = (Raise ValueError, empty_trip))
  /\ (0 <= h <= 23 -> 0 <= m <= 59 -> routes_stops s !! route = None ->
        generateTrip route id h m s = (Raise KeyError, empty_trip))
  /\ (forall pre secs stop bad post,
        0 <= h <= 23 -> 0 <= m <= 59 ->
        routes_stops s !! route = Some (pre ++ (stop, bad) :: post) ->
        Forall2 (fun st sec => py_int st.2 = Done sec) pre secs ->
        Forall (fun T => 86400 <= T < (MAXORDINAL + 1) * 86400)
               (stop_instants (epoch_2000 + h * 3600 + m * 60) secs) ->
        py_int bad = Raise ValueError ->
        generateTrip route id h m s
        = (Raise ValueError,
           set_routes_schedules
             (<[route := dict_set id
                  (record_stops [] pre (stop_instants (epoch_2000 + h * 3600 + m * 60) secs))
                  trips]> (routes_schedules s)) s)).
Proof.
  intros Hs empty_trip.
  assert (forall k : Z -> M unit,
            0 <= h <= 23 -> 0 <= m <= 59 ->
            (lift (datetime_jan1 2000 h m 0) ≫= k) empty_trip
            = k (epoch_2000 + h * 3600 + m * 60) empty_trip) as Hstart.
  { intros k Hh Hm. rewrite datetime_jan1_Done by lia. mstep. f_equal.
    unfold epoch_2000. lia. }
  split; [|split; [|split]].
  - intros Hbig. unfold generateTrip. mstep. erewrite map_getitem_Some by exact Hs. mstep.
    rewrite datetime_jan1_OverflowError; [done|]. change (2 ^ 31) with 2147483648 in *. lia.
  - intros Hh Hm Hbad. unfold generateTrip. mstep.
    erewrite map_getitem_Some by exact Hs. mstep.
    rewrite datetime_jan1_ValueError; [done|..]; change (2 ^ 31) with 2147483648 in *; lia.
  - intros Hh Hm Hnone. unfold generateTrip. mstep.
    erewrite map_getitem_Some by exact Hs. mstep. fold empty_trip.
    rewrite Hstart by done. mstep. change (routes_stops empty_trip) with (routes_stops s).
    unfold map_getitem. by rewrite Hnone.
  - intros pre secs stop bad post Hh Hm Hstops Hparse Hrange Hbad.
    unfold generateTrip. mstep. erewrite map_getitem_Some by exact Hs. mstep.
    fold empty_trip. rewrite Hstart by done. mstep.
    change (routes_stops empty_trip) with (routes_stops s).
    erewrite map_getitem_Some by exact Hstops. mstep.
    erewrite trip_stops_loop_app;
      [|done|done|apply lookup_insert_eq|apply dict_get_set_eq].
    cbn [trip_stops_loop snd]. rewrite Hbad. mstep.
    unfold empty_trip, set_routes_schedules. cbn.
    by rewrite insert_insert_eq, dict_set_set.
Qed.

Lemma generateTrip_raises_witness :
  generateTrip "27" "270001" 3 0 blank_travel_time
  = (Raise ValueError,
     set_routes_schedules {[ "27" := [("270001", [])] ]} blank_travel_time).
Proof.
  destruct (generateTrip_raises blank_travel_time "27" "270001" 3 0 []) as (_ & _ & _ & H).
  - reflexivity.
  - rewrite (H [] [] "A" EmptyString [("B", "120")]); try done; try lia.
Defined.

(** ** More on [shiftTripTime] *)

Lemma time_str_mod X Y : X mod 86400 = Y mod 86400 -> time_str X = time_str Y.
Proof. unfold time_str. by intros ->. Qed.

Lemma HMS_string_time_str X : HMS_string (time_str X).
Proof.
  pose proof (Z.mod_pos_bound X 86400 ltac:(lia)) as Hb.
  destruct (time_fields _ Hb) as (Hh & Hm & Hs & _).
  rewrite time_str_hms.
  exists (X mod 86400 / 3600), (X mod 86400 / 60 mod 60), (X mod 86400 mod 60).
  repeat split; tauto || lia.
Qed.

Lemma epoch_1900_mod X : (epoch_1900 + X) mod 86400 = X mod 86400.
Proof.
  unfold epoch_1900. change (days_before_year 1900 + 1) with 693596.
  rewrite Z.add_comm, Z.mod_add by lia. reflexivity.
Qed.

Lemma shift_value_time_str n X :
  - shift_bound <= n <= shift_bound ->
  shift_value n (time_str X) = time_str (X + n)
  /\ shifted n ("k", time_str X) ("k", time_str (X + n)).
Proof.
  intros Hn. unfold shift_bound in Hn.
  pose proof (Z.mod_pos_bound X 86400 ltac:(lia)) as Hb.
  assert (time_str (epoch_1900 + X mod 86400 + n) = time_str (X + n)) as Heq.
  { apply time_str_mod. rewrite <- Z.add_assoc, epoch_1900_mod.
    by rewrite Z.add_mod_idemp_l. }
  split.
  - unfold shift_value. by rewrite strptime_time_str.
  - split; [done|]. eexists _, _. split; [apply strptime_time_str|]. split; [|by symmetry].
    apply datetime_add_seconds_run. change MAXORDINAL with 3652059.
    unfold epoch_1900. change (days_before_year 1900 + 1) with 693596. lia.
Qed.

Lemma shifted_value n k v :
  - shift_bound <= n <= shift_bound -> HMS_string v ->
  shifted n (k, v) (k, shift_value n v)
  /\ exists T, time_of_day v = Some T
       /\ time_of_day (shift_value n v) = Some ((T + n) mod 86400).
Proof.
  intros Hn (h & m & s & Hh & Hm & Hs & ->).
  assert (hms h m s = time_str (h * 3600 + m * 60 + s)) as ->.
  { symmetry. apply hms_time_str; try done. apply Z.mod_small. lia. }
  destruct (shift_value_time_str n (h * 3600 + m * 60 + s) Hn) as [-> [_ Hshift]].
  split; [by split|].
  exists (h * 3600 + m * 60 + s). rewrite !time_of_day_time_str. split; [|done].
  f_equal. apply Z.mod_small. lia.
Qed.

Lemma shift_values_shifted n (t : trip) :
  - shift_bound <= n <= shift_bound ->
  Forall (fun kv : string * string => HMS_string kv.2) t ->
  Forall2 (shifted n) t (shift_values n t).
Proof.
  intros Hn Hhms. induction Hhms as [|[k v] t Hv _ IH]; [constructor|].
  change (shift_values n ((k, v) :: t)) with ((k, shift_value n v) :: shift_values n t).
  constructor; [|exact IH]. by destruct (shifted_value n k v Hn Hv).
Qed.

Lemma shift_values_keys n (t : trip) : dict_keys (shift_values n t) = dict_keys t.
Proof.
  unfold dict_keys, shift_values. rewrite <- list_fmap_compose. by apply list_fmap_ext.
Qed.

Lemma shift_values_HMS n (t : trip) :
  Forall (fun kv : string * string => HMS_string kv.2) t ->
  Forall (fun kv : string * string => HMS_string kv.2) (shift_values n t).
Proof.
  intros Hhms. apply Forall_fmap. eapply Forall_impl; [exact Hhms|].
  intros [k v] Hv. cbn in Hv |- *. destruct Hv as (h & m & s & Hh & Hm & Hs & ->).
  unfold shift_value. rewrite strptime_hms by done. apply HMS_string_time_str.
Qed.

Lemma shiftTripTime_shift_values n (t : trip) :
  NoDup (dict_keys t) ->
  Forall (fun kv : string * string => HMS_string kv.2) t ->
  - shift_bound <= n <= shift_bound ->
  shiftTripTime t n = Done (shift_values n t).
Proof.
  intros Hnd Hhms Hn. apply shiftTripTime_run; [done|]. by apply shift_values_shifted.
Qed.

(** [shiftTripTime] moves every stop time by the same number of seconds,
    modulo 24 hours. For a trip with "HH:MM:SS" values and a shift of at
    most 50 000 000 000 seconds either way it returns a trip with the same
    stop ids in the same order, in which each time of day is the old one
    plus the shift modulo 86400, written again as "HH:MM:SS". *)
Theorem shiftTripTime_shifts (t : trip) (n : Z) :
  NoDup (dict_keys t) ->
  Forall (fun kv : string * string => HMS_string kv.2) t ->
  - shift_bound <= n <= shift_bound ->
  exists t', shiftTripTime t n = Done t'
    /\ dict_keys t' = dict_keys t
    /\ Forall2 (fun v v' => HMS_string v'
                  /\ exists T, time_of_day v = Some T
                       /\ time_of_day v' = Some ((T + n) mod 86400))
               (dict_values t) (dict_values t').
Proof.
  intros Hnd Hhms Hn. exists (shift_values n t).
  split; [by apply shiftTripTime_shift_values|]. split; [apply shift_values_keys|].
  unfold dict_values, shift_values. rewrite <- list_fmap_compose.
  apply Forall2_fmap, Forall_Forall2_diag. eapply Forall_impl; [exact Hhms|].
  intros [k v] Hv. cbn in *. split.
  - destruct Hv as (h & m & s & Hh & Hm & Hs & ->). unfold shift_value.
    rewrite strptime_hms by done. apply HMS_string_time_str.
  - by apply (shifted_value n k v Hn Hv).
Qed.

Lemma shiftTripTime_shifts_witness :
  exists t', shiftTripTime late_trip (-86400 - 60) = Done t'
    /\ t' = [("A", "23:57:45"); ("B", "23:58:10")].
Proof.
  destruct (shiftTripTime_shifts late_trip (-86400 - 60)) as (t' & Hrun & _).
  - apply (bool_decide_unpack _). by vm_compute.
  - unfold late_trip. repeat constructor; cbn.
    + exists 23, 58, 45. repeat split; (lia || reflexivity).
    + exists 23, 59, 10. repeat split; (lia || reflexivity).
  - unfold shift_bound. lia.
  - exists t'. split; [done|].
    assert (shiftTripTime late_trip (-86400 - 60) = Done t') as Hrun' by done.
    vm_compute in Hrun'. by injection Hrun' as <-.
Defined.

(** Shifts add up: for a trip with "HH:MM:SS" values, shifting by [a] and
    then by [b] gives the trip that one shift by [a + b] gives, and a shift
    by whole days gives the trip back. *)
Theorem shiftTripTime_compose (t : trip) (a b : Z) :
  NoDup (dict_keys t) ->
  Forall (fun kv : string * string => HMS_string kv.2) t ->
  - shift_bound <= a <= shift_bound ->
  - shift_bound <= b <= shift_bound ->
  - shift_bound <= a + b <= shift_bound ->
  (exists t1 t2, shiftTripTime t a = Done t1 /\ shiftTripTime t1 b = Done t2
                 /\ shiftTripTime t (a + b) = Done t2)
  /\ (a mod 86400 = 0 -> shiftTripTime t a = Done t).
Proof.
  intros Hnd Hhms Ha Hb Hab. split.
  - exists (shift_values a t), (shift_values b (shift_values a t)).
    split; [by apply shiftTripTime_shift_values|]. split.
    + apply shiftTripTime_shift_values; [by rewrite shift_values_keys | | done].
      by apply shift_values_HMS.
    + rewrite shiftTripTime_shift_values by done. f_equal.
      unfold shift_values. rewrite <- list_fmap_compose.
      apply Forall_fmap_ext. eapply Forall_impl; [exact Hhms|].
      intros [k v] Hv. cbn in Hv |- *. destruct Hv as (h & m & s & Hh & Hm & Hs & ->).
      f_equal. unfold shift_value at 1 3. rewrite strptime_hms by done.
      destruct (shift_value_time_str b (epoch_1900 + (h * 3600 + m * 60 + s) + a) Hb)
        as [-> _].
      f_equal. lia.
  - intros Hdays. rewrite shiftTripTime_shift_values by done. f_equal.
    unfold shift_values. rewrite <- (list_fmap_id t) at 2.
    apply Forall_fmap_ext. eapply Forall_impl; [exact Hhms|].
    intros [k v] Hv. cbn in Hv |- *. destruct Hv as (h & m & s & Hh & Hm & Hs & ->).
    f_equal. unfold shift_value. rewrite strptime_hms by done.
    apply hms_time_str; try done.
    rewrite <- Z.add_assoc, epoch_1900_mod, <- Z.add_mod_idemp_r, Hdays, Z.add_0_r by lia.
    apply Z.mod_small. lia.
Qed.

Lemma shiftTripTime_compose_witness :
  shiftTripTime late_trip 86400 = Done late_trip.
Proof.
  destruct (shiftTripTime_compose late_trip 86400 0) as [_ Hdays].
  - apply (bool_decide_unpack _). by vm_compute.
  - unfold late_trip. repeat constructor; cbn.
    + exists 23, 58, 45. repeat split; (lia || reflexivity).
    + exists 23, 59, 10. repeat split; (lia || reflexivity).
  - unfold shift_bound. lia.
  - unfold shift_bound. lia.
  - unfold shift_bound. lia.
  - apply Hdays. reflexivity.
Defined.

(** ** The optimizer and the nodes of [apps/node.py] *)

Lemma dict_get_fmap_key {V} (f : Z -> V) (l : list Z) k :
  k ∈ l -> dict_get k ((fun r => (r, f r)) <$> l) = Some (f k).
Proof.
  induction l as [|x l IH]; cbn; [intros H; by apply elem_of_nil in H|].
  intros Hin. destruct (decide (x = k)) as [->|Hne]; [done|].
  apply elem_of_cons in Hin as [->|Hin]; [done | by apply IH].
Qed.

Lemma evaluateNodeConnections_TypeError route s :
  nodes s <> [] -> evaluateNodeConnections route s = (Raise TypeError, s).
Proof.
  intros Hnodes. unfold evaluateNodeConnections. mstep.
  destruct (nodes s) as [|node rest]; [done|]. reflexivity.
Qed.

Lemma evaluateNodeConnections_no_nodes route s :
  nodes s = [] -> evaluateNodeConnections route s = (Done 0, s).
Proof. intros Hnodes. unfold evaluateNodeConnections. mstep. by rewrite Hnodes. Qed.

Lemma for_each_buckets (f : Z -> list string) (d : pydict Z (list string))
    (inner : string -> M unit) s : forall ks,
  (forall k, k ∈ ks -> dict_get k d = Some (f k)) ->
  (forall route, inner route s = (Raise TypeError, s)) ->
  (exists k, k ∈ ks /\ f k <> []) ->
  for_each ks (fun k => bucket ← lift (dict_getitem k d); for_each bucket inner) s
  = (Raise TypeError, s).
Proof.
  intros ks Hget Hinner. induction ks as [|k ks IH].
  { intros (k & Hk & _). by apply elem_of_nil in Hk. }
  intros (k0 & Hk0 & Hne). cbn [for_each].
  pose proof (Hget k ltac:(apply list_elem_of_here)) as Hk.
  destruct (f k) as [|route bucket] eqn:Hfk.
  - erewrite (bind_run _ _ s tt s).
    + apply IH; [intros k' Hk'; apply Hget; by apply list_elem_of_further|].
      exists k0. split; [|done].
      apply elem_of_cons in Hk0 as [->|Hk0]; [congruence | done].
    + mstep. erewrite dict_getitem_Some by exact Hk. mstep. reflexivity.
  - apply bind_run_Raise. mstep. erewrite dict_getitem_Some by exact Hk. mstep.
    cbn [for_each]. apply bind_run_Raise, Hinner.
Qed.

(** With the [Node] class of [apps/node.py], [optimizeNodeConnections]
    stops at its first route. On a priority table whose rows read as
    (route id, integer rank): if some route has a rank in [1,19] and there
    is at least one node, the call of [evaluateConnectionTime] with the
    keyword [route] raises [TypeError], nothing is printed and the state is
    unchanged; if no route has a rank in [1,19] there is nothing to optimize
    and the method returns without a trace. *)
Theorem optimizeNodeConnections_TypeError (fuel : nat) (s : Self)
    (entries : list (string * Z)) :
  (19 <= fuel)%nat ->
  Forall2 priority_entry (priority s) entries ->
  ((exists rid r, (rid, r) ∈ entries /\ 1 <= r <= 19) -> nodes s <> [] ->
     optimizeNodeConnections fuel s = (Raise TypeError, s))
  /\ ((forall rid r, (rid, r) ∈ entries -> ~ 1 <= r <= 19) ->
        optimizeNodeConnections fuel s = (Done tt, s)).
Proof.
  intros Hfuel Hrows.
  split.
  - intros (rid & r & Hin & Hr) Hnodes.
    unfold optimizeNodeConnections. cbn zeta.
    rewrite (bind_run calculateNodeNumber _ s _ s) by reflexivity. mstep.
    rewrite (getOrderedRoutes_entries _ _ _ Hrows Hfuel). mstep.
    rewrite dict_keys_buckets.
    apply (for_each_buckets (bucket_of entries)).
    + intros k Hk. by apply dict_get_fmap_key.
    + intros route. apply bind_run_Raise. by apply evaluateNodeConnections_TypeError.
    + exists r. split; [apply elem_of_seqZ; lia|].
      apply bucket_of_elem in Hin. intros Hnil. rewrite Hnil in Hin.
      by apply elem_of_nil in Hin.
  - intros Hnone.
    assert (Forall (fun k => bucket_of entries k = []) (seqZ 1 19)) as Hempty.
    { apply Forall_forall. intros k Hk%elem_of_seqZ.
      destruct (bucket_of entries k) as [|rid bucket] eqn:Hb; [done|].
      exfalso. apply (Hnone rid k); [|lia]. apply bucket_of_elem. rewrite Hb.
      apply list_elem_of_here. }
    unfold optimizeNodeConnections. cbn zeta.
    rewrite (bind_run calculateNodeNumber _ s _ s) by reflexivity. mstep.
    rewrite (getOrderedRoutes_entries _ _ _ Hrows Hfuel). mstep.
    rewrite dict_keys_buckets.
    assert (forall ks body, Forall (fun k => bucket_of entries k = []) ks ->
              (forall k, k ∈ ks -> body k s = (Done tt, s)) ->
              for_each ks body s = (Done tt, s)) as Hidle.
    { clear. intros ks body _ Hbody. induction ks as [|k ks IH]; [done|].
      cbn [for_each]. rewrite (bind_run _ _ s tt s).
      - apply IH. intros k' Hk'. apply Hbody. by apply list_elem_of_further.
      - apply Hbody, list_elem_of_here. }
    apply Hidle; [done|]. intros k Hk.
    rewrite (dict_getitem_Some k _ (bucket_of entries k)) by (by apply dict_get_fmap_key).
    mstep. rewrite Forall_forall in Hempty. by rewrite (Hempty k Hk).
Qed.

Lemma optimizeNodeConnections_TypeError_witness :
  optimizeNodeConnections 19 one_node = (Raise TypeError, one_node).
Proof.
  destruct (optimizeNodeConnections_TypeError 19 one_node [("27", 1); ("28", 2)]) as [H _].
  - lia.
  - repeat constructor; cbn; eexists; (split; [reflexivity | by vm_compute]).
  - apply H; [|done]. exists "27", 1. split; [apply list_elem_of_here | lia].
Defined.

(** ** The schedule of one service day *)

Lemma numbered_app route stops secs : forall a num b,
  numbered route stops secs num (a ++ b)
  = numbered route stops secs num a
    ++ numbered route stops secs (num + Z.of_nat (length a)) b.
Proof.
  induction a as [|d a IH]; intros num b; cbn [numbered app length].
  - by rewrite Z.add_0_r.
  - rewrite IH. do 3 f_equal. lia.
Qed.

Lemma numbered_keys route stops secs : forall deps num,
  0 <= num ->
  trip_ids route num ++ dict_keys (numbered route stops secs num deps)
  = trip_ids route (num + Z.of_nat (length deps)).
Proof.
  induction deps as [|d deps IH]; intros num Hnum; cbn [numbered length].
  - by rewrite Z.add_0_r, app_nil_r.
  - unfold dict_keys in *. cbn [fmap list_fmap fst].
    rewrite (cons_middle _ (trip_ids route num)), app_assoc, <- trip_ids_succ by done.
    rewrite IH by lia. f_equal. lia.
Qed.

Lemma set_routes_schedules_twice m m' s :
  set_routes_schedules m (set_routes_schedules m' s) = set_routes_schedules m s.
Proof. reflexivity. Qed.

Lemma calculateFrequencyMinutes_no_service fuel F S :
  ~ 1 <= F <= 60 -> calculateFrequencyMinutes fuel F S = Done None.
Proof.
  intros HF. unfold calculateFrequencyMinutes.
  assert (((F >? 60) || (F <? 1)) = true) as ->; [|reflexivity].
  rewrite Z.gtb_ltb. apply orb_true_iff.
  destruct (Z.lt_ge_cases F 1); [right | left]; apply Z.ltb_lt; lia.
Qed.

Lemma trips_loop_run route h stops secs : forall minutes num s trips,
  routes_schedules s !! route = Some trips ->
  routes_stops s !! route = Some stops ->
  Forall2 (fun st sec => py_int st.2 = Done sec) stops secs ->
  Forall (fun x => 0 <= x) secs -> total secs < calendar_left ->
  0 <= h <= 23 -> Forall (fun m => 0 <= m <= 59) minutes ->
  dict_keys trips = trip_ids route num ->
  0 <= num ->
  trips_loop route h minutes num s
  = (Done (num + Z.of_nat (length minutes)),
     set_routes_schedules
       (<[route := trips ++ numbered route stops secs num ((fun m => (h, m)) <$> minutes)]>
          (routes_schedules s)) s).
Proof.
  induction minutes as [|m minutes IH];
    intros num s trips Hs Hstops Hparse Hpos Htotal Hh Hmin Hkeys Hnum.
  - cbn. rewrite Z.add_0_r, app_nil_r, insert_id by done.
    by rewrite set_routes_schedules_same.
  - apply Forall_cons in Hmin as [Hm Hmin].
    cbn [trips_loop fmap list_fmap numbered]. cbn zeta.
    erewrite bind_run; cycle 1.
    { eapply generateTrip_run; try done.
      destruct (stop_instants_bounds secs (epoch_2000 + h * 3600 + m * 60) Hpos)
        as (Hb & _ & _).
      eapply Forall_impl; [exact Hb|]. cbn beta. intros T HT.
      revert Htotal HT. unfold calendar_left, epoch_2000.
      change MAXORDINAL with 3652059. change (days_before_year 2000 + 1) with 730120.
      lia. }
    rewrite dict_set_fresh by (rewrite Hkeys; by apply trip_id_fresh_any).
    lazymatch goal with
    | |- context [<[route := ?T1]> (routes_schedules s)] => rewrite (IH (num + 1) _ T1)
    end; try done.
    + cbn [routes_schedules set_routes_schedules]. rewrite set_routes_schedules_twice.
      rewrite insert_insert_eq, <- app_assoc. cbn [app fst snd length].
      do 2 f_equal. lia.
    + apply lookup_insert_eq.
    + unfold dict_keys in *. rewrite fmap_app, Hkeys. cbn [fmap list_fmap fst].
      by rewrite trip_ids_succ.
    + lia.
Qed.

Lemma progression_minutes F n :
  0 < F -> (forall k : nat, (k < n)%nat -> 0 + Z.of_nat k * F < 60) ->
  Forall (fun m => 0 <= m <= 59) (progression F 0 n).
Proof.
  intros HF Hlt. unfold progression. apply Forall_fmap, Forall_forall.
  intros k Hk%elem_of_seq. cbn. specialize (Hlt k ltac:(lia)). nia.
Qed.

Lemma schedule_loop_run fuel route stops secs : forall cells Fs hour count num s trips,
  (60 <= fuel)%nat ->
  Forall2 (fun c F => py_int c = Done F) cells Fs ->
  routes_schedules s !! route = Some trips ->
  routes_stops s !! route = Some stops ->
  Forall2 (fun st sec => py_int st.2 = Done sec) stops secs ->
  Forall (fun x => 0 <= x) secs -> total secs < calendar_left ->
  0 <= hour <= 24 -> count + Z.of_nat (length cells) <= 24 ->
  dict_keys trips = trip_ids route num ->
  0 <= num -> num + 60 * Z.of_nat (length cells) <= 9999 ->
  schedule_loop fuel route cells hour count num s
  = (Done tt,
     set_routes_schedules
       (<[route := trips ++ numbered route stops secs num
                     (mjoin (zip_with departures_of (hours_from hour (length Fs)) Fs))]>
          (routes_schedules s)) s).
Proof.
  intros cells Fs hour count num s trips Hfuel Hcells.
  revert hour count num s trips.
  induction Hcells as [|c F cells Fs Hc Hcells IH];
    intros hour count num s trips Hs Hstops Hparse Hpos Htotal Hhour Hcount Hkeys Hnum Hmax.
  - cbn. rewrite app_nil_r, insert_id by done. by rewrite set_routes_schedules_same.
  - cbn [length] in Hcount, Hmax. cbn [schedule_loop length hours_from zip_with mjoin list_join].
    cbn zeta. set (hour' := if hour =? 24 then 0 else hour).
    assert (0 <= hour' <= 23) as Hhour'.
    { unfold hour'. destruct (Z.eqb_spec hour 24); lia. }
    rewrite Hc. mstep. unfold departures_of at 1.
    destruct (decide (1 <= F <= 60)) as [HF|HF].
    + rewrite calculateFrequencyMinutes_in_range by (done || lia). mstep.
      destruct (terms_below_60_spec F 0 ltac:(lia)) as [Hbelow _].
      pose proof (terms_below_60_le F 0 ltac:(lia) ltac:(lia)) as Hle.
      set (minutes := progression F 0 (terms_below_60 F 0)) in *.
      assert (length minutes = terms_below_60 F 0) as Hlen.
      { unfold minutes, progression. by rewrite length_fmap, length_seq. }
      erewrite bind_run; cycle 1.
      { eapply (trips_loop_run route hour' stops secs); try done.
        by apply progression_minutes; [lia|]. }
      rewrite numbered_app, length_fmap, app_assoc.
      destruct (Z.eqb_spec count 23) as [H23|H23].
      * assert (cells = []) as -> by (destruct cells; [done | cbn in Hcount; lia]).
        apply Forall2_nil_inv_l in Hcells as ->. cbn. by rewrite app_nil_r.
      * lazymatch goal with
        | |- context [<[route := ?T1]> (routes_schedules s)] => rewrite (IH _ _ _ _ T1)
        end; try done.
        -- cbn [routes_schedules set_routes_schedules].
           by rewrite set_routes_schedules_twice, insert_insert_eq.
        -- apply lookup_insert_eq.
        -- lia.
        -- lia.
        -- unfold dict_keys in *. rewrite fmap_app, Hkeys.
           rewrite <- (length_fmap (fun m => (hour', m)) minutes).
           by apply numbered_keys.
        -- lia.
        -- lia.
    + rewrite calculateFrequencyMinutes_no_service by done.
      mstep. cbn [app]. apply IH; try done; lia.
Qed.

Lemma service_hours_rotated {A} (f : Z -> Z -> A) (Fs : list Z) :
  length Fs = 24%nat ->
  zip_with f (hours_from START_DAY_HOUR 24) (drop 3 Fs ++ take 3 Fs)
  = (fun h => f h (Fs !!! Z.to_nat h)) <$> service_hours.
Proof.
  intros Hlen. do 25 (destruct Fs as [|? Fs]; try done).
Qed.

Lemma generateRouteSchedule_run_day (fuel : nat) (s : Self) (route period : string)
    (ids : list string) (r i : nat) (row header : list string) (Fs : list Z)
    (stops : stop_list) (secs : list Z) :
  (60 <= fuel)%nat ->
  first_column (frequency s) = Done ids ->
  index_of route ids = Some r ->
  frequency s !! r = Some row ->
  frequency s !! 0%nat = Some header ->
  index_of (period +:+ "00") header = Some i ->
  index_of (period +:+ "23") header = Some (i + 23)%nat ->
  Forall2 (fun c F => py_int c = Done F) (take 24 (drop i row)) Fs ->
  length Fs = 24%nat ->
  routes_schedules s !! route = Some [] ->
  routes_stops s !! route = Some stops ->
  Forall2 (fun st sec => py_int st.2 = Done sec) stops secs ->
  Forall (fun x => 0 <= x) secs -> total secs < calendar_left ->
  generateRouteSchedule fuel route period s
  = (Done tt,
     set_routes_schedules
       (<[route := numbered route stops secs 0 (service_day Fs)]> (routes_schedules s)) s).
Proof.
  intros Hfuel Hids Hr Hrow Hheader Hi Hj Hcells Hlen Hs Hstops Hparse Hpos Htotal.
  unfold generateRouteSchedule. mstep. rewrite Hids. mstep.
  unfold py_index. rewrite Hr. mstep.
  rewrite (getitem_Some _ _ _ Hrow). mstep.
  rewrite (getitem_Some _ _ _ Hheader). mstep.
  rewrite Hi. mstep. rewrite Hj. mstep.
  unfold py_slice. replace (i + 23 + 1 - i)%nat with 24%nat by lia.
  change (Z.to_nat START_DAY_HOUR) with 3%nat.
  set (cells := take 24 (drop i row)) in *.
  assert (Forall2 (fun c F => py_int c = Done F)
            (drop 3 cells ++ take 3 cells) (drop 3 Fs ++ take 3 Fs)) as Hrot.
  { apply Forall2_app; [by apply Forall2_drop | by apply Forall2_take]. }
  assert (length (drop 3 Fs ++ take 3 Fs) = 24%nat) as Hlen'.
  { rewrite length_app, length_drop, length_take. lia. }
  pose proof (Forall2_length _ _ _ Hrot) as Hlenc. rewrite Hlen' in Hlenc.
  erewrite (schedule_loop_run fuel route stops secs _ _ _ _ _ _ []); try done.
  - rewrite Hlen'. cbn [app]. unfold service_day.
    by rewrite (service_hours_rotated departures_of Fs Hlen).
  - lia.
  - lia.
Qed.

(** [generateRouteSchedule] on a fresh route, in full. Let the frequency
    table hold a row for the route, let its header hold [period+"00"] and,
    23 columns further, [period+"23"], let the 24 cells of the row under
    these columns read as the integers [Fs], and let the stops of the route
    have travel times that read as non-negative integers whose sum stays in
    the calendar. Then, with fuel for 60 turns, the method returns and the
    trips of the route are exactly those of the service day: the hours 3, 4,
    ..., 23, 0, 1, 2 in this order, in the hour [h] one trip at each minute
    0, F, 2F, ... below 60 for the frequency [F] of [h] (none when [F] is
    outside [1,60]), numbered 0001, 0002, ... in this order; nothing else
    of the state changes. *)
Theorem generateRouteSchedule_service_day (fuel : nat) (s : Self) (route period : string)
    (ids : list string) (r i : nat) (row header : list string) (Fs : list Z)
    (stops : stop_list) (secs : list Z) :
  (60 <= fuel)%nat ->
  first_column (frequency s) = Done ids ->
  index_of route ids = Some r ->
  frequency s !! r = Some row ->
  frequency s !! 0%nat = Some header ->
  index_of (period +:+ "00") header = Some i ->
  index_of (period +:+ "23") header = Some (i + 23)%nat ->
  Forall2 (fun c F => py_int c = Done F) (take 24 (drop i row)) Fs ->
  length Fs = 24%nat ->
  routes_schedules s !! route = Some [] ->
  routes_stops s !! route = Some stops ->
  Forall2 (fun st sec => py_int st.2 = Done sec) stops secs ->
  Forall (fun x => 0 <= x) secs -> total secs < calendar_left ->
  generateRouteSchedule fuel route period s
  = (Done tt,
     set_routes_schedules
       (<[route := numbered route stops secs 0 (service_day Fs)]> (routes_schedules s)) s).
Proof.
  intros. by eapply generateRouteSchedule_run_day.
Qed.

Lemma generateRouteSchedule_service_day_witness :
  generateRouteSchedule 60 "27" "MF" scenario_27
  = (Done tt,
     set_routes_schedules
       {[ "27" := numbered "27" stops_27 [0; 120; 90] 0 (service_day frequencies_27) ]}
       scenario_27).
Proof.
  rewrite (generateRouteSchedule_service_day 60 scenario_27 "27" "MF" ["route"; "27"]
             1 1
             ["27"; "0"; "0"; "0"; "30"; "30"; "30"; "60"; "60"; "60"; "60"; "60"; "60";
              "60"; "60"; "60"; "60"; "60"; "60"; "60"; "60"; "60"; "60"; "60"; "60"]
             MF_header frequencies_27 stops_27 [0; 120; 90]).
  - reflexivity.
  - lia.
  - reflexivity.
  - reflexivity.
  - reflexivity.
  - reflexivity.
  - reflexivity.
  - reflexivity.
  - repeat constructor.
  - reflexivity.
  - reflexivity.
  - reflexivity.
  - repeat constructor.
  - repeat constructor; lia.
  - by vm_compute.
Defined.

(** ** [generateSchedules]: every route of the plan *)

Lemma schedule_route_run fuel period s route Fs stops secs :
  (60 <= fuel)%nat ->
  day_plan (frequency s) (routes_stops s) period route Fs stops secs ->
  routes_schedules s !! route = Some [] ->
  (modify (fun s =>
     set_routes_schedules_finalized (<[route := false]> (routes_schedules_finalized s)) s);;
   generateRouteSchedule fuel route period;;
   self ← get_self;
   trips ← lift (map_getitem route (routes_schedules self));
   print ("Route: " +:+ route +:+ " -- Trips: " +:+ pretty (Z.of_nat (length trips)))) s
  = (Done tt, schedule_of s (route, (Fs, stops, secs))).
Proof.
  intros Hfuel (((ids & r & i & row & header & Hids & Hr & Hrow & Hheader & Hi & Hj & Hcells)
                 & Hlen) & Hstops & Hparse & Hpos & Htotal) Hs.
  mstep.
  erewrite bind_run; cycle 1.
  { eapply (generateRouteSchedule_run_day fuel _ route period ids r i row header Fs stops secs);
      done. }
  mstep. erewrite map_getitem_Some by apply lookup_insert_eq. mstep.
  reflexivity.
Qed.

Lemma for_each_schedule period (body : string -> M unit) : forall order plans s,
  (forall s route Fs stops secs,
     day_plan (frequency s) (routes_stops s) period route Fs stops secs ->
     routes_schedules s !! route = Some [] ->
     body route s = (Done tt, schedule_of s (route, (Fs, stops, secs)))) ->
  NoDup order ->
  Forall2 (fun route p => day_plan (frequency s) (routes_stops s) period route p.1.1 p.1.2 p.2)
          order plans ->
  (forall route, route ∈ order -> routes_schedules s !! route = Some []) ->
  for_each order body s = (Done tt, foldl schedule_of s (zip order plans)).
Proof.
  intros order plans s Hbody Hnd Hplans. revert plans s Hnd Hplans.
  induction order as [|route order IH]; intros plans s Hnd Hplans Hfresh.
  - by apply Forall2_nil_inv_l in Hplans as ->.
  - apply Forall2_cons_inv_l in Hplans as ([[Fs stops] secs] & plans' & Hplan & Hplans & ->).
    apply NoDup_cons in Hnd as [Hnotin Hnd]. cbn [for_each zip zip_with foldl].
    rewrite (bind_run _ _ s tt (schedule_of s (route, (Fs, stops, secs)))).
    + apply IH; [done | done|].
      intros route' Hin. cbn. rewrite lookup_insert_ne by (intros ->; done).
      apply Hfresh. by apply list_elem_of_further.
    + apply Hbody; [done|]. apply Hfresh, list_elem_of_here.
Qed.

Lemma foldl_schedule_of_other route : forall ps s,
  route ∉ ps.*1 ->
  routes_schedules (foldl schedule_of s ps) !! route = routes_schedules s !! route
  /\ routes_schedules_finalized (foldl schedule_of s ps) !! route
     = routes_schedules_finalized s !! route.
Proof.
  induction ps as [|p ps IH]; intros s Hnotin; [done|].
  rewrite fmap_cons, not_elem_of_cons in Hnotin. destruct Hnotin as [Hne Hnotin].
  cbn [foldl]. destruct (IH (schedule_of s p) Hnotin) as [-> ->]. cbn.
  by rewrite !lookup_insert_ne.
Qed.

Lemma foldl_schedule_of_at : forall order plans s k route p,
  length order = length plans -> NoDup order ->
  order !! k = Some route -> plans !! k = Some p ->
  routes_schedules (foldl schedule_of s (zip order plans)) !! route
  = Some (numbered route p.1.2 p.2 0 (service_day p.1.1))
  /\ routes_schedules_finalized (foldl schedule_of s (zip order plans)) !! route = Some false.
Proof.
  induction order as [|route0 order IH]; intros plans s k route p Hlen Hnd Hk Hp; [done|].
  destruct plans as [|p0 plans]; [done|]. apply NoDup_cons in Hnd as [Hnotin Hnd].
  cbn [zip zip_with foldl]. destruct k as [|k].
  - injection Hk as ->. injection Hp as ->.
    destruct (foldl_schedule_of_other route (zip order plans)
                (schedule_of s (route, p))) as [-> ->].
    { rewrite fst_zip by (cbn in Hlen; lia). done. }
    cbn. by rewrite !lookup_insert_eq.
  - apply (IH plans _ k route p ltac:(cbn in Hlen; lia) Hnd Hk Hp).
Qed.

Lemma generateSchedules_plan fuel period s order plans :
  (60 <= fuel)%nat ->
  routes_order s = Some order ->
  NoDup order ->
  Forall2 (fun route p =>
             day_plan (frequency s) (routes_stops s) period route p.1.1 p.1.2 p.2)
          order plans ->
  (forall route, route ∈ order -> routes_schedules s !! route = Some []) ->
  generateSchedules fuel period s
  = (Done tt,
     set_stdout (stdout (foldl schedule_of s (zip order plans)) ++ ["Schedules created."])
       (foldl schedule_of s (zip order plans))).
Proof.
  intros Hfuel Horder Hnd Hplans Hfresh.
  unfold generateSchedules. mstep. rewrite Horder.
  erewrite bind_run; [reflexivity|].
  apply (for_each_schedule period); try done.
  intros s0 route Fs stops secs Hplan Hs0. by apply schedule_route_run.
Qed.

(** [generateSchedules] over the whole plan. Before [arrangeRoutes] has set
    [routes_order] it raises [AttributeError] and changes nothing. With
    [routes_order] holding distinct routes, each of them fresh (an empty
    schedule) and with tables that give it the schedule of a day, it
    returns: each route of [routes_order] ends with the flag [False] and the
    trips of its service day, the routes are handled in the order of
    [routes_order], one line with the number of trips is printed per route,
    and "Schedules created." is the last line; the other routes keep their
    schedule and their flag. *)
Theorem generateSchedules_run (fuel : nat) (period : string) (s : Self) :
  (routes_order s = None -> generateSchedules fuel period s = (Raise AttributeError, s))
  /\ (forall order plans,
        (60 <= fuel)%nat ->
        routes_order s = Some order ->
        NoDup order ->
        Forall2 (fun route p =>
                   day_plan (frequency s) (routes_stops s) period route p.1.1 p.1.2 p.2)
                order plans ->
        (forall route, route ∈ order -> routes_schedules s !! route = Some []) ->
        let s' := foldl schedule_of s (zip order plans) in
        generateSchedules fuel period s
        = (Done tt, set_stdout (stdout s' ++ ["Schedules created."]) s')
        /\ (forall k route p,
              order !! k = Some route -> plans !! k = Some p ->
              routes_schedules s' !! route
              = Some (numbered route p.1.2 p.2 0 (service_day p.1.1))
              /\ routes_schedules_finalized s' !! route = Some false)
        /\ (forall route, route ∉ order ->
              routes_schedules s' !! route = routes_schedules s !! route
              /\ routes_schedules_finalized s' !! route
                 = routes_schedules_finalized s !! route)).
Proof.
  split.
  { intros Hnone. unfold generateSchedules. mstep. by rewrite Hnone. }
  intros order plans Hfuel Horder Hnd Hplans Hfresh s'.
  pose proof (Forall2_length _ _ _ Hplans) as Hlen.
  split; [|split].
  - by apply generateSchedules_plan.
  - intros k route p Hk Hp. by apply (foldl_schedule_of_at order plans s k).
  - intros route Hnotin. apply foldl_schedule_of_other.
    by rewrite fst_zip by lia.
Qed.

Lemma generateSchedules_run_witness :
  generateSchedules 60 "MF" scenario_27_arranged
  = (Done tt,
     set_stdout ["Route: 27 -- Trips: 24"; "Schedules created."]
       (set_routes_schedules
          {[ "27" := numbered "27" stops_27 [0; 120; 90] 0 (service_day frequencies_27) ]}
          (set_routes_schedules_finalized {[ "27" := false ]} scenario_27_arranged))).
Proof.
  destruct (generateSchedules_run 60 "MF" scenario_27_arranged) as [_ H].
  destruct (H ["27"] [(frequencies_27, stops_27, [0; 120; 90])]) as (Hrun & _).
  - lia.
  - reflexivity.
  - apply (bool_decide_unpack _). by vm_compute.
  - constructor; [|constructor]. split; [split|split].
    + exists ["route"; "27"], 1%nat, 1%nat,
        ["27"; "0"; "0"; "0"; "30"; "30"; "30"; "60"; "60"; "60"; "60"; "60"; "60";
         "60"; "60"; "60"; "60"; "60"; "60"; "60"; "60"; "60"; "60"; "60"; "60"],
        MF_header.
      repeat split; try reflexivity. repeat constructor.
    + reflexivity.
    + reflexivity.
    + split; [repeat constructor|]. split; [repeat constructor; lia | by vm_compute].
  - intros route ->%list_elem_of_singleton. reflexivity.
  - rewrite Hrun. by vm_compute.
Defined.

(** ** From the tables to the schedules *)

(** [arrangeRoutes] followed by [generateSchedules], from the tables as they
    are loaded. Let the priority table hold a header and then rows that read
    as (route id, rank) with distinct route ids and ranks in [1,19]; let the
    route points have at least 6 fields; and for every route of the table,
    let the frequency table give it the frequencies of a day and let the
    travel times of its route points with a stop id read as non-negative
    integers. Then both methods return, and every route of the priority
    table ends with the flag [False] and with the trips of its service day
    over exactly the stops that [arrangeRoutes] selects; the last line
    printed is "Schedules created.". *)
Theorem schedules_from_tables (fuel : nat) (period : string) (self : Self)
    (header : list string) (rows : list (list string)) (entries : list (string * Z))
    (Fs secs : string -> list Z) :
  (60 <= fuel)%nat ->
  priority self = header :: rows ->
  Forall2 priority_entry rows entries ->
  Forall (fun e : string * Z => 1 <= e.2 <= 19) entries ->
  NoDup entries.*1 ->
  Forall (fun rp : list string => (6 <= length rp)%nat) (routes self) ->
  (forall rid, rid ∈ entries.*1 ->
     day_row (frequency self) period rid (Fs rid)
     /\ travel_times (stops_for (routes self) rid) (secs rid)) ->
  exists s',
    (arrangeRoutes;; generateSchedules fuel period) self = (Done tt, s')
    /\ (forall rid, rid ∈ entries.*1 ->
          routes_schedules s' !! rid
          = Some (numbered rid (stops_for (routes self) rid) (secs rid) 0
                    (service_day (Fs rid)))
          /\ routes_schedules_finalized s' !! rid = Some false)
    /\ last (stdout s') = Some "Schedules created.".
Proof.
  intros Hfuel Hprio Hrows Hranks Hnd Hwf Hplan.
  pose proof (Forall2_length _ _ _ Hrows) as Hlen.
  set (order := route_at entries <$> select (length rows) entries.*2).
  assert (order ≡ₚ entries.*1) as Hperm.
  { unfold order. rewrite Hlen, (select_permutation entries Hranks).
    by rewrite route_at_seq. }
  assert (NoDup order) as Hndo by (by rewrite Hperm).
  set (s1 := set_routes_order (Some order)
               (foldl (register_route (routes self)) (set_priority rows self) entries.*1)).
  set (plans := (fun rid => (Fs rid, stops_for (routes self) rid, secs rid)) <$> order).
  pose proof (register_route_frame (routes self) entries.*1 (set_priority rows self))
    as (_ & _ & _ & Hfreq & _).
  assert (generateSchedules fuel period s1
          = (Done tt,
             set_stdout (stdout (foldl schedule_of s1 (zip order plans))
                         ++ ["Schedules created."])
               (foldl schedule_of s1 (zip order plans)))) as Hrun.
  { apply generateSchedules_plan; [done | done | done | |].
    - unfold plans. apply Forall2_fmap_r, Forall_Forall2_diag, Forall_forall.
      intros rid Hin. rewrite Hperm in Hin. destruct (Hplan rid Hin) as [Hrow Htimes].
      cbn [fst snd]. split; [|split; [|done]].
      + unfold s1. cbn [frequency set_routes_order]. by rewrite Hfreq.
      + unfold s1. cbn [routes_stops set_routes_order]. by apply register_route_stops.
    - intros rid Hin. rewrite Hperm in Hin. unfold s1.
      cbn [routes_schedules set_routes_order]. by apply register_route_schedules. }
  eexists. split; [|split].
  - rewrite (bind_run _ _ _ _ _ (arrangeRoutes_run _ _ _ _ Hprio Hrows Hwf)). exact Hrun.
  - intros rid Hin. rewrite <- Hperm in Hin.
    apply list_elem_of_lookup_1 in Hin as [k Hk].
    cbn [routes_schedules routes_schedules_finalized set_stdout].
    apply (foldl_schedule_of_at order plans s1 k rid
             (Fs rid, stops_for (routes self) rid, secs rid));
      [unfold plans; by rewrite length_fmap | done | done|].
    unfold plans. by rewrite list_lookup_fmap, Hk.
  - cbn [stdout set_stdout]. apply last_snoc.
Qed.

Lemma schedules_from_tables_witness :
  exists s',
    (arrangeRoutes;; generateSchedules 60 "MF") city_27 = (Done tt, s')
    /\ routes_schedules s' !! "27"
       = Some (numbered "27" stops_27 [0; 120; 90] 0 (service_day frequencies_27))
    /\ last (stdout s') = Some "Schedules created.".
Proof.
  destruct (schedules_from_tables 60 "MF" city_27 ["route"; "priority"] [["27"; "1"]]
              [("27", 1)] (fun _ => frequencies_27) (fun _ => [0; 120; 90]))
    as (s' & Hrun & Htrips & Hlast).
  - lia.
  - reflexivity.
  - repeat constructor. eexists. split; [reflexivity | by vm_compute].
  - repeat constructor; cbn; lia.
  - apply (bool_decide_unpack _). by vm_compute.
  - repeat constructor; cbn; lia.
  - intros rid ->%list_elem_of_singleton. split; [split|].
    + exists ["route"; "27"], 1%nat, 1%nat,
        ["27"; "0"; "0"; "0"; "30"; "30"; "30"; "60"; "60"; "60"; "60"; "60"; "60";
         "60"; "60"; "60"; "60"; "60"; "60"; "60"; "60"; "60"; "60"; "60"; "60"],
        MF_header.
      repeat split; try reflexivity. repeat constructor.
    + reflexivity.
    + split; [repeat constructor|]. split; [repeat constructor; lia | by vm_compute].
  - exists s'. split; [exact Hrun|]. split; [|exact Hlast].
    destruct (Htrips "27") as [Ht _]; [apply list_elem_of_here | exact Ht].
Defined.

(** ** How [generateRouteSchedule] fails *)

Lemma index_of_None {A} `{EqDecision A} (x : A) l : x ∉ l -> index_of x l = None.
Proof.
  induction l as [|y l IH]; [done|]. rewrite not_elem_of_cons. intros [Hne Hnotin].
  cbn. rewrite decide_False by congruence. by rewrite IH.
Qed.

Lemma index_of_lt {A} `{EqDecision A} (x : A) l i : index_of x l = Some i -> (i < length l)%nat.
Proof.
  revert i. induction l as [|y l IH]; intros i; [done|]. cbn.
  destruct (decide (y = x)); [intros [= <-]; lia|].
  destruct (index_of x l) as [j|]; [|done]. intros [= <-]. specialize (IH j eq_refl). lia.
Qed.

Lemma first_column_length rows ids : first_column rows = Done ids -> length ids = length rows.
Proof.
  revert ids. induction rows as [|row rows IH]; intros ids; cbn.
  - by intros [= <-].
  - destruct (getitem row 0) as [x| | |]; rbind; [|done|done|done].
    destruct (first_column rows) as [xs| | |]; rbind; [|done|done|done].
    intros [= <-]. cbn. by rewrite (IH xs).
Qed.

Lemma schedule_loop_app fuel route stops secs rest : forall pre Fs hour count num s trips,
  (60 <= fuel)%nat ->
  Forall2 (fun c F => py_int c = Done F) pre Fs ->
  routes_schedules s !! route = Some trips ->
  routes_stops s !! route = Some stops ->
  Forall2 (fun st sec => py_int st.2 = Done sec) stops secs ->
  Forall (fun x => 0 <= x) secs -> total secs < calendar_left ->
  0 <= hour <= 24 ->
  (forall (k : nat) F, Fs !! k = Some F -> count + Z.of_nat k = 23 -> ~ 1 <= F <= 60) ->
  dict_keys trips = trip_ids route num ->
  0 <= num ->
  let deps := mjoin (zip_with departures_of (hours_from hour (length Fs)) Fs) in
  schedule_loop fuel route (pre ++ rest) hour count num s
  = schedule_loop fuel route rest (Nat.iter (length Fs) next_hour hour)
      (count + Z.of_nat (length Fs)) (num + Z.of_nat (length deps))
      (set_routes_schedules
         (<[route := trips ++ numbered route stops secs num deps]> (routes_schedules s)) s).
Proof.
  intros pre Fs hour count num s trips Hfuel Hcells.
  revert hour count num s trips.
  induction Hcells as [|c F cells Fs Hc Hcells IH];
    intros hour count num s trips Hs Hstops Hparse Hpos Htotal Hhour Hcount Hkeys Hnum.
  - cbn. rewrite !Z.add_0_r, app_nil_r, insert_id by done.
    by rewrite set_routes_schedules_same.
  - assert (forall (k : nat) F', Fs !! k = Some F' -> count + 1 + Z.of_nat k = 23 ->
                                 ~ 1 <= F' <= 60) as Hcount'.
    { intros k F' Hk H23. apply (Hcount (S k) F'); [done | lia]. }
    cbn [app schedule_loop length hours_from zip_with mjoin list_join]. cbn zeta.
    rewrite Nat.iter_succ_r. unfold next_hour at 2.
    set (hour' := if hour =? 24 then 0 else hour).
    assert (0 <= hour' <= 23) as Hhour'.
    { unfold hour'. destruct (Z.eqb_spec hour 24); lia. }
    rewrite Hc. mstep. unfold departures_of at 1 3.
    destruct (decide (1 <= F <= 60)) as [HF|HF].
    + rewrite calculateFrequencyMinutes_in_range by (done || lia). mstep.
      destruct (terms_below_60_spec F 0 ltac:(lia)) as [Hbelow _].
      pose proof (terms_below_60_le F 0 ltac:(lia) ltac:(lia)) as Hle.
      set (minutes := progression F 0 (terms_below_60 F 0)) in *.
      assert (length minutes = terms_below_60 F 0) as Hlen.
      { unfold minutes, progression. by rewrite length_fmap, length_seq. }
      erewrite bind_run; cycle 1.
      { eapply (trips_loop_run route hour' stops secs); try done.
        by apply progression_minutes; [lia|]. }
      rewrite numbered_app, !length_app, !length_fmap, app_assoc.
      destruct (Z.eqb_spec count 23) as [H23|H23].
      { exfalso. apply (Hcount 0%nat F); [done | lia | done]. }
      lazymatch goal with
      | |- context [<[route := ?T1]> (routes_schedules s)] => rewrite (IH _ _ _ _ T1)
      end; try done.
      * cbn [routes_schedules set_routes_schedules].
        rewrite set_routes_schedules_twice, insert_insert_eq.
        rewrite Nat2Z.inj_succ, Nat2Z.inj_add, Z.add_assoc, <- Z.add_1_l, Z.add_assoc.
        reflexivity.
      * apply lookup_insert_eq.
      * lia.
      * unfold dict_keys in *. rewrite fmap_app, Hkeys.
        rewrite <- (length_fmap (fun m => (hour', m)) minutes).
        by apply numbered_keys.
      * lia.
    + rewrite calculateFrequencyMinutes_no_service by done.
      mstep. cbn [app]. rewrite (IH _ _ _ _ trips); try done; try lia.
      rewrite Nat2Z.inj_succ, <- Z.add_1_l, Z.add_assoc. reflexivity.
Qed.

(** [generateRouteSchedule] raises [ValueError], and changes nothing, for a
    route that has no row in the frequency table and for a period whose
    column [period+"00"] or [period+"23"] is not in the header. A cell that
    does not read as an integer raises [ValueError] too, but only when its
    hour is reached: the trips of the hours before it, in the order 3, 4,
    ..., stay in the schedule. *)
Theorem generateRouteSchedule_raises (fuel : nat) (s : Self) (route period : string)
    (ids : list string) :
  first_column (frequency s) = Done ids ->
  (route ∉ ids -> generateRouteSchedule fuel route period s = (Raise ValueError, s))
  /\ (forall header,
        frequency s !! 0%nat = Some header ->
        period +:+ "00" ∉ header \/ period +:+ "23" ∉ header ->
        generateRouteSchedule fuel route period s = (Raise ValueError, s))
  /\ (forall r i j row header pre Fs bad post stops secs,
        (60 <= fuel)%nat ->
        index_of route ids = Some r ->
        frequency s !! r = Some row ->
        frequency s !! 0%nat = Some header ->
        index_of (period +:+ "00") header = Some i ->
        index_of (period +:+ "23") header = Some j ->
        drop 3 (py_slice i (j + 1) row) ++ take 3 (py_slice i (j + 1) row)
        = pre ++ bad :: post ->
        Forall2 (fun c F => py_int c = Done F) pre Fs ->
        (length pre <= 23)%nat ->
        py_int bad = Raise ValueError ->
        routes_schedules s !! route = Some [] ->
        routes_stops s !! route = Some stops ->
        travel_times stops secs ->
        generateRouteSchedule fuel route period s
        = (Raise ValueError,
           set_routes_schedules
             (<[route := numbered route stops secs 0
                           (mjoin (zip_with departures_of service_hours Fs))]>
                (routes_schedules s)) s)).
Proof.
  intros Hids. split; [|split].
  - intros Hnotin. unfold generateRouteSchedule. mstep. rewrite Hids. mstep.
    unfold py_index. by rewrite (index_of_None _ _ Hnotin).
  - intros header Hheader Hmissing. unfold generateRouteSchedule. mstep.
    rewrite Hids. mstep. unfold py_index.
    destruct (index_of route ids) as [r|] eqn:Hr; [|done]. mstep.
    destruct (lookup_lt_is_Some_2 (frequency s) r) as [row Hrow].
    { rewrite <- (first_column_length _ _ Hids). by eapply index_of_lt. }
    rewrite (getitem_Some _ _ _ Hrow). mstep.
    rewrite (getitem_Some _ _ _ Hheader). mstep.
    destruct (index_of (period +:+ "00") header) as [i|] eqn:Hi; [|done]. mstep.
    destruct Hmissing as [H00|H23].
    + by rewrite (index_of_None _ _ H00) in Hi.
    + by rewrite (index_of_None _ _ H23).
  - intros r i j row header pre Fs bad post stops secs Hfuel Hr Hrow Hheader Hi Hj Hrot
      Hpre Hlen Hbad Hs Hstops (Hparse & Hpos & Htotal).
    pose proof (Forall2_length _ _ _ Hpre) as HlenF.
    unfold generateRouteSchedule. mstep. rewrite Hids. mstep.
    unfold py_index. rewrite Hr. mstep.
    rewrite (getitem_Some _ _ _ Hrow). mstep.
    rewrite (getitem_Some _ _ _ Hheader). mstep.
    rewrite Hi. mstep. rewrite Hj. mstep.
    change (Z.to_nat START_DAY_HOUR) with 3%nat. rewrite Hrot.
    erewrite (schedule_loop_app fuel route stops secs _ pre Fs _ _ _ _ []); try done;
      try lia.
    2:{ intros k F Hk%lookup_lt_Some H23. lia. }
    cbn [schedule_loop]. rewrite Hbad. mstep. cbn [app].
    assert (hours_from START_DAY_HOUR (length Fs) = take (length Fs) service_hours) as ->.
    { assert (length Fs <= 23)%nat as HF by lia. clear -HF.
      do 24 (destruct Fs as [|? Fs]; [reflexivity|]). cbn in HF. lia. }
    assert (forall (hs : list Z), zip_with departures_of (take (length Fs) hs) Fs
                                  = zip_with departures_of hs Fs) as ->; [|done].
    { clear. induction Fs as [|F Fs IH]; intros [|h hs]; cbn; try done.
      by rewrite IH. }
Qed.

Lemma generateRouteSchedule_raises_witness :
  generateRouteSchedule 60 "27" "MF" scenario_27_blank_cell
  = (Raise ValueError,
     set_routes_schedules
       {[ "27" := numbered "27" stops_27 [0; 120; 90] 0 [(3, 0); (3, 30); (4, 0); (4, 30)] ]}
       scenario_27_blank_cell).
Proof.
  destruct (generateRouteSchedule_raises 60 scenario_27_blank_cell "27" "MF" ["route"; "27"])
    as (_ & _ & H); [reflexivity|].
  rewrite (H 1%nat 1%nat 24%nat
             ["27"; "0"; "0"; "0"; "30"; "30"; "-"; "60"; "60"; "60"; "60"; "60"; "60"; "60";
              "60"; "60"; "60"; "60"; "60"; "60"; "60"; "60"; "60"; "60"; "60"]
             MF_header ["30"; "30"] [30; 30] "-"
             ["60"; "60"; "60"; "60"; "60"; "60"; "60"; "60"; "60"; "60"; "60"; "60"; "60";
              "60"; "60"; "60"; "60"; "60"; "0"; "0"; "0"]
             stops_27 [0; 120; 90]).
  - reflexivity.
  - lia.
  - reflexivity.
  - reflexivity.
  - reflexivity.
  - reflexivity.
  - reflexivity.
  - reflexivity.
  - repeat constructor.
  - cbn. lia.
  - reflexivity.
  - reflexivity.
  - reflexivity.
  - split; [repeat constructor|]. split; [repeat constructor; lia | by vm_compute].
Defined.

(** ** What the optimizer prints *)

Lemma set_stdout_same s : set_stdout (stdout s) s = s.
Proof. by destruct s. Qed.

Lemma for_each_prints {A} (l : list A) (body : A -> M unit) (out : A -> list string) s :
  (forall x lines, x ∈ l ->
     body x (set_stdout lines s) = (Done tt, set_stdout (lines ++ out x) s)) ->
  forall lines,
    for_each l body (set_stdout lines s)
    = (Done tt, set_stdout (lines ++ mjoin (out <$> l)) s).
Proof.
  induction l as [|x l IH]; intros Hbody lines; cbn [for_each fmap list_fmap mjoin list_join].
  - by rewrite app_nil_r.
  - rewrite (bind_run _ _ _ tt (set_stdout (lines ++ out x) s))
      by apply Hbody, list_elem_of_here.
    rewrite IH by (intros y ls Hy; apply Hbody; by apply list_elem_of_further).
    by rewrite app_assoc.
Qed.

Lemma join_fmap_join {A B C} (f : B -> list C) (g : A -> list B) (l : list A) :
  mjoin ((fun r => mjoin (f <$> g r)) <$> l) = mjoin (f <$> mjoin (g <$> l)).
Proof.
  induction l as [|r l IH]; [done|].
  rewrite !fmap_cons.
  change (mjoin (g r :: (g <$> l))) with (g r ++ mjoin (g <$> l)).
  rewrite fmap_app, join_app, <- IH. reflexivity.
Qed.

Lemma trip_hours_run route trips s :
  routes_schedules s !! route = Some trips ->
  NoDup (dict_keys trips) ->
  forall todo hours seen lines,
    trips = seen ++ todo ->
    Forall2 (fun kv h => start_hour kv.2 = Some h) todo hours ->
    for_each (dict_keys todo) (fun trip_id =>
      self ← get_self;
      trips ← lift (map_getitem route (routes_schedules self));
      t ← lift (dict_getitem trip_id trips);
      first ← lift (getitem (dict_values t) 0);
      trip_start_time ← lift (strptime_HMS first);
      print (pretty (datetime_hour trip_start_time))) (set_stdout lines s)
    = (Done tt, set_stdout (lines ++ (pretty <$> hours)) s).
Proof.
  intros Hs Hnd todo hours seen lines Htrips Hhours. revert seen lines Htrips.
  induction Hhours as [|[k t] h todo hours Hh _ IH]; intros seen lines Htrips.
  - cbn. by rewrite app_nil_r.
  - cbn [dict_keys fmap list_fmap fst for_each].
    assert (dict_get k trips = Some t) as Hget.
    { rewrite Htrips, dict_get_app_r; [cbn; by rewrite decide_True|].
      rewrite Htrips in Hnd. unfold dict_keys in *. rewrite fmap_app in Hnd.
      apply NoDup_app in Hnd as (_ & Hdisj & _). intros Hin.
      apply (Hdisj k Hin), list_elem_of_here. }
    unfold start_hour in Hh. cbn [snd] in Hh.
    destruct (head (dict_values t)) as [v|] eqn:Hv; [|done].
    destruct (strptime_HMS v) as [dt| | |] eqn:Hdt; [|done|done|done]. injection Hh as <-.
    erewrite bind_run; cycle 1.
    { mstep. erewrite map_getitem_Some by exact Hs. mstep.
      erewrite dict_getitem_Some by exact Hget. mstep.
      rewrite (getitem_Some _ _ v) by (by rewrite <- head_lookup). mstep.
      rewrite Hdt. mstep. reflexivity. }
    cbn [stdout set_stdout].
    change (set_stdout (lines ++ [pretty (datetime_hour dt)]) (set_stdout lines s))
      with (set_stdout (lines ++ [pretty (datetime_hour dt)]) s).
    fold (dict_keys todo).
    rewrite (IH (seen ++ [(k, t)])) by (by rewrite <- app_assoc).
    by rewrite <- app_assoc.
Qed.

Lemma hours_loop_run route trips hours s :
  routes_schedules s !! route = Some trips ->
  NoDup (dict_keys trips) ->
  Forall2 (fun kv h => start_hour kv.2 = Some h) trips hours ->
  forall n current_hour lines,
    hours_loop n route current_hour (set_stdout lines s)
    = (Done tt, set_stdout (lines ++ mjoin (replicate n (pretty <$> hours))) s).
Proof.
  intros Hs Hnd Hhours. induction n as [|n IH]; intros current_hour lines.
  - cbn. by rewrite app_nil_r.
  - cbn [hours_loop replicate mjoin list_join]. cbn zeta. mstep.
    erewrite map_getitem_Some by exact Hs. mstep.
    rewrite (bind_run _ _ _ _ _
               (trip_hours_run route trips s Hs Hnd trips hours [] lines eq_refl Hhours)).
    rewrite IH. by rewrite app_assoc.
Qed.

Lemma minimizeRouteWaitTime_run route trips hours s lines :
  routes_schedules s !! route = Some trips ->
  NoDup (dict_keys trips) ->
  Forall2 (fun kv h => start_hour kv.2 = Some h) trips hours ->
  minimizeRouteWaitTime route (set_stdout lines s)
  = (Done tt, set_stdout (lines ++ mjoin (replicate 24 (pretty <$> hours))) s).
Proof. intros Hs Hnd Hhours. by apply (hours_loop_run route trips). Qed.

(** [minimizeRouteWaitTime] only prints. For a route without a schedule it
    raises [KeyError]; when the first trip of the route has no stop it
    raises [IndexError]; in both cases nothing is printed. For a route whose
    trips all start with a stop time "HH:MM:SS" it returns after printing
    the start hours of all the trips of the route, in order, 24 times; the
    rest of the state is as before. *)
Theorem minimizeRouteWaitTime_prints (route : string) (s : Self) :
  (routes_schedules s !! route = None ->
     minimizeRouteWaitTime route s = (Raise KeyError, s))
  /\ (forall id rest,
        routes_schedules s !! route = Some ((id, []) :: rest) ->
        minimizeRouteWaitTime route s = (Raise IndexError, s))
  /\ (forall trips hours,
        routes_schedules s !! route = Some trips ->
        NoDup (dict_keys trips) ->
        Forall2 (fun kv h => start_hour kv.2 = Some h) trips hours ->
        minimizeRouteWaitTime route s
        = (Done tt,
           set_stdout (stdout s ++ mjoin (replicate 24 (pretty <$> hours))) s)).
Proof.
  split; [|split].
  - intros Hnone. unfold minimizeRouteWaitTime. change 24%nat with (S 23).
    generalize 23%nat. intros n. cbn [hours_loop]. cbn zeta. mstep.
    unfold map_getitem. by rewrite Hnone.
  - intros id rest Hs. unfold minimizeRouteWaitTime. change 24%nat with (S 23).
    generalize 23%nat. intros n. cbn [hours_loop]. cbn zeta. mstep.
    erewrite map_getitem_Some by exact Hs. mstep.
    cbn [dict_keys fmap list_fmap fst for_each].
    apply bind_run_Raise, bind_run_Raise. mstep.
    erewrite map_getitem_Some by exact Hs. mstep.
    unfold dict_getitem. cbn [dict_get]. rewrite decide_True by done. mstep.
    reflexivity.
  - intros trips hours Hs Hnd Hhours. rewrite <- (set_stdout_same s) at 1.
    by apply (minimizeRouteWaitTime_run route trips).
Qed.

Lemma minimizeRouteWaitTime_prints_witness :
  minimizeRouteWaitTime "28" no_nodes
  = (Done tt, set_stdout (mjoin (replicate 24 ["23"])) no_nodes).
Proof.
  destruct (minimizeRouteWaitTime_prints "28" no_nodes) as (_ & _ & H).
  rewrite (H [("280001", [("C", "23:59:00")])] [23]).
  - reflexivity.
  - reflexivity.
  - apply (bool_decide_unpack _). by vm_compute.
  - repeat constructor.
Defined.

(** [optimizeNodeConnections] without nodes only prints. On a priority table
    whose rows read as (route id, integer rank), and with every route of a
    rank in [1,19] holding trips that start with a stop time "HH:MM:SS", it
    returns after printing, for each route in the order of the ranks 1 to 19
    (table order within a rank), a wait time of 0 seconds and then 24 times
    the start hours of the route's trips; nothing else changes. *)
Theorem optimizeNodeConnections_no_nodes (fuel : nat) (s : Self)
    (entries : list (string * Z)) (hours : string -> list Z) :
  (19 <= fuel)%nat ->
  nodes s = [] ->
  Forall2 priority_entry (priority s) entries ->
  (forall rid r, (rid, r) ∈ entries -> 1 <= r <= 19 ->
     exists trips, routes_schedules s !! rid = Some trips
       /\ NoDup (dict_keys trips)
       /\ Forall2 (fun kv h => start_hour kv.2 = Some h) trips (hours rid)) ->
  optimizeNodeConnections fuel s
  = (Done tt,
     set_stdout
       (stdout s ++ mjoin ((fun rid => route_report rid (hours rid)) <$> visit_order entries))
       s).
Proof.
  intros Hfuel Hnodes Hrows Htrips.
  unfold optimizeNodeConnections. cbn zeta.
  rewrite (bind_run calculateNodeNumber _ s _ s) by reflexivity. mstep.
  rewrite (getOrderedRoutes_entries _ _ _ Hrows Hfuel). mstep.
  rewrite dict_keys_buckets. rewrite <- (set_stdout_same s) at 1.
  rewrite (for_each_prints (seqZ 1 19) _
             (fun r => mjoin ((fun rid => route_report rid (hours rid))
                                <$> bucket_of entries r))).
  - unfold visit_order. by rewrite join_fmap_join.
  - intros r lines Hr.
    rewrite (dict_getitem_Some r _ (bucket_of entries r)) by (by apply dict_get_fmap_key).
    mstep. apply for_each_prints. intros rid lines' Hrid.
    apply bucket_of_elem in Hrid. apply elem_of_seqZ in Hr.
    destruct (Htrips rid r Hrid ltac:(lia)) as (trips & Hs & Hnd & Hhours).
    rewrite (bind_run _ _ _ 0 (set_stdout lines' s)).
    2:{ unfold evaluateNodeConnections. mstep. by rewrite Hnodes. }
    unfold print at 1. mstep.
    change (set_stdout ?l (set_stdout lines' s)) with (set_stdout l s).
    rewrite (minimizeRouteWaitTime_run rid trips (hours rid)) by done.
    unfold route_report. by rewrite <- app_assoc.
Qed.

Lemma optimizeNodeConnections_no_nodes_witness :
  optimizeNodeConnections 19 no_nodes
  = (Done tt,
     set_stdout
       (route_report "27" [3; 4] ++ route_report "28" [23]) no_nodes).
Proof.
  rewrite (optimizeNodeConnections_no_nodes 19 no_nodes [("28", 2); ("27", 1)]
             (fun rid => if decide (rid = "27") then [3; 4] else [23])).
  - by vm_compute.
  - lia.
  - reflexivity.
  - repeat constructor; cbn; eexists; (split; [reflexivity | by vm_compute]).
  - intros rid r Hin _.
    apply elem_of_cons in Hin as [[= -> ->]|Hin];
      [|apply list_elem_of_singleton in Hin as [= -> ->]].
    + eexists. split; [reflexivity|]. split; [apply (bool_decide_unpack _); by vm_compute|].
      repeat constructor.
    + eexists. split; [reflexivity|]. split; [apply (bool_decide_unpack _); by vm_compute|].
      repeat constructor.
Defined.

(** ** The two orders of the routes agree *)

Lemma seq_sorted : forall n a, StronglySorted lt (seq a n).
Proof.
  induction n as [|n IH]; intros a; cbn; constructor; [apply IH|].
  apply Forall_forall. intros k Hk%elem_of_seq. lia.
Qed.

Lemma filter_sorted {A} (P : A -> Prop) `{forall x, Decision (P x)} (R R' : A -> A -> Prop) l :
  StronglySorted R l ->
  (forall x y, P x -> P y -> R x y -> R' x y) ->
  StronglySorted R' (filter P l).
Proof.
  intros Hl Himpl. induction Hl as [|x l _ IH Hx]; [constructor|].
  rewrite filter_cons. destruct (decide (P x)) as [HP|HP]; [|done].
  constructor; [done|]. apply Forall_forall. intros y [HPy Hy]%list_elem_of_filter.
  rewrite Forall_forall in Hx. by apply Himpl, Hx.
Qed.

Lemma positions_sorted ranks : forall l,
  StronglySorted Z.lt l ->
  StronglySorted (picked_before ranks) (mjoin (positions ranks <$> l)).
Proof.
  induction l as [|r l IH]; intros Hl; [constructor|].
  apply StronglySorted_inv in Hl as [Hl Hr]. rewrite fmap_cons.
  change (mjoin (positions ranks r :: (positions ranks <$> l)))
    with (positions ranks r ++ mjoin (positions ranks <$> l)).
  apply StronglySorted_app. split; [|split; [|by apply IH]].
  - intros i j [Hi _]%list_elem_of_filter (p & Hj & Hp)%list_elem_of_join.
    apply list_elem_of_fmap in Hp as (r' & -> & Hr').
    apply list_elem_of_filter in Hj as [Hj _].
    rewrite Forall_forall in Hr. specialize (Hr r' Hr'). left. lia.
  - apply (filter_sorted _ lt); [apply seq_sorted|].
    intros i j Hi Hj Hlt. right. split; [congruence | done].
Qed.

Lemma sorted_NoDup {A} (R : A -> A -> Prop) l :
  (forall x, ~ R x x) -> StronglySorted R l -> NoDup l.
Proof.
  intros Hirr. induction 1 as [|x l _ IH Hx]; constructor; [|done].
  intros Hin. rewrite Forall_forall in Hx. by apply (Hirr x), Hx.
Qed.

Lemma picked_before_irrefl ranks i : ~ picked_before ranks i i.
Proof. unfold picked_before. lia. Qed.

Lemma seqZ_1_19_sorted : StronglySorted Z.lt (seqZ 1 19).
Proof.
  let l := eval vm_compute in (seqZ 1 19) in change (seqZ 1 19) with l.
  repeat first [constructor | lia].
Qed.

Lemma select_positions (entries : list (string * Z)) :
  Forall (fun e : string * Z => 1 <= e.2 <= 19) entries ->
  select (length entries) entries.*2 = mjoin (positions entries.*2 <$> seqZ 1 19).
Proof.
  intros Hranks.
  assert (forall x, x ∈ entries.*2 -> 1 <= x <= 19) as Hall.
  { rewrite Forall_forall in Hranks.
    intros x (e & -> & He)%list_elem_of_fmap. by apply Hranks. }
  destruct (select_sorted (length entries) entries.*2) as (_ & _ & Hsorted).
  { intros x Hx. specialize (Hall x Hx). lia. }
  { rewrite <- (length_fmap snd entries) at 1. f_equal. symmetry.
    apply filter_all, Forall_forall. intros x Hx. specialize (Hall x Hx). unfold live. lia. }
  pose proof (positions_sorted entries.*2 _ seqZ_1_19_sorted) as Hsorted'.
  apply (StronglySorted_unique_strong (picked_before entries.*2)); [|done|done|].
  { intros i j _ _. unfold picked_before. lia. }
  rewrite (select_permutation entries Hranks). symmetry.
  apply NoDup_Permutation.
  - eapply sorted_NoDup; [apply picked_before_irrefl | done].
  - apply NoDup_seq.
  - intros i. rewrite list_elem_of_join, elem_of_seq. split.
    + intros (p & Hi & (r & -> & _)%list_elem_of_fmap).
      apply list_elem_of_filter in Hi as [_ Hi%elem_of_seq].
      rewrite length_fmap in Hi. lia.
    + intros [_ Hi]. exists (positions entries.*2 (rank_at entries.*2 i)). split.
      * apply list_elem_of_filter. split; [done|]. apply elem_of_seq.
        rewrite length_fmap. lia.
      * apply list_elem_of_fmap. eexists. split; [done|]. apply elem_of_seqZ.
        destruct (lookup_lt_is_Some_2 entries.*2 i) as [x Hx]; [by rewrite length_fmap|].
        unfold rank_at. rewrite Hx. cbn.
        specialize (Hall x (list_elem_of_lookup_2 _ _ _ Hx)). lia.
Qed.

Lemma bucket_of_filter r : forall (entries : list (string * Z)) (b : list string),
  NoDup (b ++ entries.*1) ->
  foldl (add_to_bucket r) b entries
  = b ++ (filter (fun e : string * Z => e.2 = r) entries).*1.
Proof.
  induction entries as [|e entries IH]; intros b Hnd; cbn [foldl].
  - by rewrite app_nil_r.
  - rewrite fmap_cons in Hnd. rewrite filter_cons. unfold add_to_bucket at 2.
    assert (e.1 ∉ b) as Hfresh.
    { apply NoDup_app in Hnd as (_ & Hdisj & _). intros Hin.
      apply (Hdisj _ Hin), list_elem_of_here. }
    destruct (decide (e.2 = r)) as [Hr|Hr].
    + rewrite decide_True by done. rewrite IH.
      * rewrite fmap_cons, <- app_assoc. done.
      * rewrite <- app_assoc. done.
    + rewrite decide_False by (by intros [? _]). apply IH.
      apply NoDup_app in Hnd as (Hb & Hdisj & Hes). apply NoDup_cons in Hes as [_ Hes].
      apply NoDup_app. split; [done|]. split; [|done].
      intros x Hx Hin. apply (Hdisj x Hx). by apply list_elem_of_further.
Qed.

Lemma route_at_positions r : forall (es pre : list (string * Z)),
  route_at (pre ++ es)
    <$> filter (fun i => rank_at (pre ++ es).*2 i = r) (seq (length pre) (length es))
  = (filter (fun e : string * Z => e.2 = r) es).*1.
Proof.
  induction es as [|e es IH]; intros pre; [done|].
  cbn [length seq]. rewrite !filter_cons.
  assert (rank_at (pre ++ e :: es).*2 (length pre) = e.2) as Hrank.
  { unfold rank_at. rewrite fmap_app, lookup_app_r by (by rewrite length_fmap).
    by rewrite length_fmap, Nat.sub_diag. }
  assert (route_at (pre ++ e :: es) (length pre) = e.1) as Hroute.
  { unfold route_at. rewrite fmap_app, lookup_app_r by (by rewrite length_fmap).
    by rewrite length_fmap, Nat.sub_diag. }
  specialize (IH (pre ++ [e])). rewrite <- app_assoc, length_app in IH.
  cbn [app length] in IH. rewrite Nat.add_1_r in IH.
  rewrite Hrank. destruct (decide (e.2 = r)).
  - rewrite !fmap_cons, Hroute. by rewrite IH.
  - done.
Qed.

Lemma fmap_join {A B} (f : A -> B) (ls : list (list A)) :
  f <$> mjoin ls = mjoin (fmap f <$> ls).
Proof.
  induction ls as [|l ls IH]; [done|]. rewrite fmap_cons.
  change (mjoin (l :: ls)) with (l ++ mjoin ls).
  change (mjoin ((f <$> l) :: (fmap f <$> ls))) with ((f <$> l) ++ mjoin (fmap f <$> ls)).
  by rewrite fmap_app, IH.
Qed.

Lemma routes_order_visit_order (entries : list (string * Z)) :
  Forall (fun e : string * Z => 1 <= e.2 <= 19) entries ->
  NoDup entries.*1 ->
  route_at entries <$> select (length entries) entries.*2 = visit_order entries.
Proof.
  intros Hranks Hnd. rewrite (select_positions entries Hranks), fmap_join.
  unfold visit_order. rewrite <- list_fmap_compose. f_equal.
  apply list_fmap_ext. intros _ r _. cbn.
  unfold bucket_of. rewrite (bucket_of_filter r entries []) by done. cbn [app].
  unfold positions. rewrite length_fmap. apply (route_at_positions r entries []).
Qed.

(** The optimizer visits the routes in the order in which the schedules are
    generated. For a priority table (a header, then rows that read as
    (route id, rank)) with distinct route ids and every rank in [1,19]:
    [arrangeRoutes] returns, [getOrderedRoutes] returns on the table that
    [arrangeRoutes] leaves, and the buckets of the ranks 1 to 19, one after
    the other, are exactly [routes_order]. *)
Theorem routes_order_is_bucket_order (fuel : nat) (self : Self) (header : list string)
    (rows : list (list string)) (entries : list (string * Z)) :
  (19 <= fuel)%nat ->
  priority self = header :: rows ->
  Forall2 priority_entry rows entries ->
  Forall (fun e : string * Z => 1 <= e.2 <= 19) entries ->
  NoDup entries.*1 ->
  Forall (fun rp : list string => (6 <= length rp)%nat) (routes self) ->
  exists self' d,
    arrangeRoutes self = (Done tt, self')
    /\ getOrderedRoutes fuel (priority self') = Done d
    /\ routes_order self' = Some (mjoin (dict_values d)).
Proof.
  intros Hfuel Hprio Hrows Hranks Hnd Hwf.
  pose proof (Forall2_length _ _ _ Hrows) as Hlen.
  eexists _, _. split; [by eapply arrangeRoutes_run|].
  cbn [priority routes_order set_routes_order].
  destruct (register_route_frame (routes self) entries.*1 (set_priority rows self))
    as (_ & -> & _).
  cbn [priority set_priority]. split; [by apply getOrderedRoutes_entries|].
  f_equal. rewrite Hlen, (routes_order_visit_order entries Hranks Hnd).
  unfold visit_order, dict_values. by rewrite <- list_fmap_compose.
Qed.

Lemma routes_order_is_bucket_order_witness :
  exists self' d,
    arrangeRoutes three_routes = (Done tt, self')
    /\ getOrderedRoutes 19 (priority self') = Done d
    /\ routes_order self' = Some (mjoin (dict_values d)).
Proof.
  apply (routes_order_is_bucket_order 19 three_routes ["route"; "priority"]
           [["12"; "3"]; ["10"; "1"]; ["11"; "1"]] [("12", 3); ("10", 1); ("11", 1)]).
  - lia.
  - reflexivity.
  - repeat constructor; cbn; eexists; (split; [reflexivity | by vm_compute]).
  - repeat constructor; cbn; lia.
  - apply (bool_decide_unpack _). by vm_compute.
  - repeat constructor; cbn; lia.
Defined.

(** ** The connections of a node *)

Lemma imap_indexes {A} (l : list A) : forall k,
  (imap (fun i x => (k + i, x)%nat) l).*1 = seq k (length l).
Proof.
  induction l as [|x l IH]; intros k; [done|].
  rewrite imap_cons. cbn [fmap list_fmap fst length seq]. f_equal; [lia|].
  rewrite <- (IH (S k)). f_equal. apply imap_ext. intros i y _. cbn. f_equal. lia.
Qed.

Lemma pairs_with_length {A} (i : nat) (x : A) (l : list (nat * A)) :
  NoDup l.*1 ->
  length ('(j, y) ← l; if decide (i = j) then [] else [(x, y)])
  = (length l - (if decide (i ∈ l.*1) then 1 else 0))%nat.
Proof.
  induction l as [|[j y] l IH]; [done|].
  rewrite fmap_cons, NoDup_cons. intros [Hj Hnd]. rewrite bind_cons, length_app, IH by done.
  cbn [fst length]. destruct (decide (i = j)) as [->|Hne].
  - rewrite decide_False by done. rewrite decide_True by apply list_elem_of_here.
    cbn. lia.
  - destruct (decide (i ∈ l.*1)) as [Hin|Hnotin].
    + rewrite decide_True by (by apply list_elem_of_further).
      assert (0 < length l)%nat; [|cbn; lia].
      destruct l; [by apply elem_of_nil in Hin | cbn; lia].
    + rewrite decide_False; [cbn; lia|].
      rewrite not_elem_of_cons. done.
Qed.

Lemma bind_length_const {A B} (f : A -> list B) (c : nat) (l : list A) :
  (forall x, x ∈ l -> length (f x) = c) -> length (l ≫= f) = (length l * c)%nat.
Proof.
  induction l as [|x l IH]; intros Hf; [done|].
  rewrite bind_cons, length_app, IH by (intros y Hy; apply Hf; by apply list_elem_of_further).
  rewrite Hf by apply list_elem_of_here. cbn. lia.
Qed.

(** [generateConnections] connects every stop of the node with every other
    one, in both directions: a node of [n] stops has [n * (n - 1)]
    connections, and a pair is a connection exactly when its two stops stand
    at two different positions of [node_stops]; so a stop is connected to
    itself only when the node lists it twice. *)
Theorem generateConnections_pairs (n : Node) :
  length (generateConnections n)
  = (length (node_stops n) * (length (node_stops n) - 1))%nat
  /\ (forall a b,
        (a, b) ∈ generateConnections n
        <-> exists i j, i <> j /\ node_stops n !! i = Some a /\ node_stops n !! j = Some b)
  /\ (NoDup (node_stops n) -> forall a, (a, a) ∉ generateConnections n).
Proof.
  assert (forall a b,
            (a, b) ∈ generateConnections n
            <-> exists i j, i <> j /\ node_stops n !! i = Some a
                            /\ node_stops n !! j = Some b) as Hmem.
  { intros a b. unfold generateConnections. cbn zeta. rewrite list_elem_of_bind. split.
    - intros ([i x] & Hin & Hx). apply list_elem_of_bind in Hin as ([j y] & Hin & Hy).
      apply elem_of_lookup_imap in Hx as (i' & x' & [= -> ->] & Hx).
      apply elem_of_lookup_imap in Hy as (j' & y' & [= -> ->] & Hy).
      destruct (decide (i' = j')); [by apply elem_of_nil in Hin|].
      apply list_elem_of_singleton in Hin as [= -> ->]. by exists i', j'.
    - intros (i & j & Hne & Ha & Hb). exists (i, a). split.
      + apply list_elem_of_bind. exists (j, b). split.
        * rewrite decide_False by done. apply list_elem_of_here.
        * by apply (elem_of_lookup_imap_2 (fun i x => (i, x))).
      + by apply (elem_of_lookup_imap_2 (fun i x => (i, x))). }
  split; [|split; [exact Hmem|]].
  - unfold generateConnections. cbn zeta.
    set (indexed := imap (fun i x => (i, x)) (node_stops n)).
    assert (indexed.*1 = seq 0 (length (node_stops n))) as Hidx
      by apply (imap_indexes (node_stops n) 0).
    rewrite (bind_length_const _ (length (node_stops n) - 1)).
    + unfold indexed. by rewrite length_imap.
    + intros [i x] Hin. rewrite pairs_with_length by (rewrite Hidx; apply NoDup_seq).
      rewrite decide_True.
      * unfold indexed. by rewrite length_imap.
      * apply list_elem_of_fmap. by exists (i, x).
  - intros Hnd a (i & j & Hne & Hi & Hj)%Hmem.
    apply Hne. by eapply NoDup_lookup.
Qed.

Lemma generateConnections_pairs_witness :
  length (generateConnections (mkNode "1" "Downtown" [("27", "A"); ("28", "A")])) = 2%nat
  /\ forall a, (a, a) ∉ generateConnections (mkNode "1" "Downtown" [("27", "A"); ("28", "A")]).
Proof.
  destruct (generateConnections_pairs (mkNode "1" "Downtown" [("27", "A"); ("28", "A")]))
    as (Hlen & _ & Hself).
  split; [exact Hlen|]. apply Hself.
  apply (bool_decide_unpack _). by vm_compute.
Defined.

(** ** A priority table that does not read as ranks *)

Lemma bucket_loop_app pre entries rest num : forall sp b,
  Forall2 priority_entry pre entries ->
  num ∉ dict_keys sp ->
  bucket_loop (pre ++ rest) num (sp ++ [(num, b)])
  = bucket_loop rest num (sp ++ [(num, foldl (add_to_bucket num) b entries)]).
Proof.
  intros sp b Hrows. revert b.
  induction Hrows as [|row e rows entries [H0 (s & H1 & Hs)] _ IH]; intros b Hnin; [done|].
  cbn [app bucket_loop foldl]. rewrite (getitem_Some _ _ _ H1). rbind.
  rewrite Hs. rbind. unfold add_to_bucket at 2.
  destruct (Z.eqb_spec e.2 num) as [Heq|Hne].
  - rewrite (getitem_Some _ _ _ H0). rbind.
    rewrite !(dict_getitem_Some num _ b) by (by apply dict_get_last). rbind.
    destruct (decide (e.1 ∈ b)) as [Hin|Hnotin].
    + rewrite decide_False by (intros [_ ?]; done). by apply IH.
    + rewrite decide_True by done. rewrite dict_set_last by done. by apply IH.
  - rewrite decide_False by (intros [? _]; done). by apply IH.
Qed.

(** [getOrderedRoutes] reads the rank of every row, for the first bucket
    already: at the first row without a second field it raises
    [IndexError], and at the first row whose second field does not read as
    an integer it raises [ValueError], as the header row of the priority
    table does. So [optimizeNodeConnections] on a table that still has such
    a row, as before [arrangeRoutes] has deleted the header, raises the same
    exception and changes nothing. *)
Theorem getOrderedRoutes_raises (fuel : nat) (pre : list (list string))
    (entries : list (string * Z)) (bad : list string) (post : list (list string)) (e : exn) :
  Forall2 priority_entry pre entries ->
  (bad !! 1%nat = None /\ e = IndexError)
  \/ (exists x, bad !! 1%nat = Some x /\ py_int x = Raise ValueError /\ e = ValueError) ->
  getOrderedRoutes (S fuel) (pre ++ bad :: post) = Raise e
  /\ forall s, priority s = pre ++ bad :: post ->
       optimizeNodeConnections (S fuel) s = (Raise e, s).
Proof.
  intros Hpre Hbad.
  assert (getOrderedRoutes (S fuel) (pre ++ bad :: post) = Raise e) as Hraise.
  { unfold getOrderedRoutes. cbn [ordered_routes_loop dict_set]. cbn zeta.
    pose proof (bucket_loop_app pre entries (bad :: post) 1 [] [] Hpre
                  (not_elem_of_nil _)) as Hloop.
    cbn [app] in Hloop. rewrite Hloop. cbn [bucket_loop].
    destruct Hbad as [[Hnone ->]|(x & Hsome & Hx & ->)].
    - assert (getitem bad 1 = Raise IndexError) as ->; [|done].
      unfold getitem. by rewrite Hnone.
    - rewrite (getitem_Some _ _ _ Hsome). rbind. by rewrite Hx. }
  split; [done|]. intros s Hs. unfold optimizeNodeConnections. cbn zeta.
  rewrite (bind_run calculateNodeNumber _ s _ s) by reflexivity. mstep.
  rewrite Hs, Hraise. by mstep.
Qed.

Lemma getOrderedRoutes_raises_witness :
  optimizeNodeConnections 19 three_routes = (Raise ValueError, three_routes).
Proof.
  destruct (getOrderedRoutes_raises 18 [] [] ["route"; "priority"]
              [["12"; "3"]; ["10"; "1"]; ["11"; "1"]] ValueError) as [_ H].
  - constructor.
  - right. exists "priority". split; [reflexivity|]. split; [by vm_compute | reflexivity].
  - by apply H.
Defined.

(** ** How [arrangeRoutes] fails *)

Lemma arrange_routes_run_ids rows ids :
  Forall2 (fun (row : list string) rid => row !! 0%nat = Some rid) rows ids ->
  forall s,
  Forall (fun rp : list string => (6 <= length rp)%nat) (routes s) ->
  for_each rows arrange_route s = (Done tt, foldl (register_route (routes s)) s ids).
Proof.
  induction 1 as [|row rid rows ids H0 _ IH]; intros s Hwf; [done|].
  cbn [for_each].
  rewrite (bind_run _ _ s tt (register_route (routes s) s rid)).
  - rewrite IH by done. reflexivity.
  - unfold arrange_route. mstep. rewrite (route_stops_of_run _ _ _ H0 Hwf). mstep.
    rewrite (getitem_Some _ _ _ H0). mstep. reflexivity.
Qed.

Lemma ranks_of_raises pre entries bad post e :
  Forall2 priority_entry pre entries ->
  (bad !! 1%nat = None /\ e = IndexError)
  \/ (exists x, bad !! 1%nat = Some x /\ py_int x = Raise ValueError /\ e = ValueError) ->
  ranks_of (pre ++ bad :: post) = Raise e.
Proof.
  intros Hpre Hbad.
  induction Hpre as [|row en pre entries [_ (p1 & H1 & Hrank)] _ IH].
  - cbn [app ranks_of]. destruct Hbad as [[Hnone ->]|(x & Hsome & Hx & ->)].
    + unfold getitem. by rewrite Hnone.
    + rewrite (getitem_Some _ _ _ Hsome). rbind. by rewrite Hx.
  - cbn [app ranks_of]. rewrite (getitem_Some _ _ _ H1). rbind. rewrite Hrank. rbind.
    by rewrite IH.
Qed.

(** [arrangeRoutes] is not all-or-nothing. On an empty priority table it
    raises [IndexError] and changes nothing. When a row under the header has
    no rank field, or a rank that does not read as an integer, it raises
    [IndexError] or [ValueError], but only once the header is deleted, every
    route of the table, the faulty row included, has its stops and an empty
    schedule registered, and [routes_order] is the empty list. *)
Theorem arrangeRoutes_raises (self : Self) :
  (priority self = [] -> arrangeRoutes self = (Raise IndexError, self))
  /\ (forall header pre entries bad rid post ids e,
        priority self = header :: pre ++ bad :: post ->
        Forall2 priority_entry pre entries ->
        bad !! 0%nat = Some rid ->
        (bad !! 1%nat = None /\ e = IndexError)
        \/ (exists x, bad !! 1%nat = Some x /\ py_int x = Raise ValueError
                      /\ e = ValueError) ->
        Forall2 (fun (row : list string) rid => row !! 0%nat = Some rid) post ids ->
        Forall (fun rp : list string => (6 <= length rp)%nat) (routes self) ->
        arrangeRoutes self
        = (Raise e,
           set_routes_order (Some [])
             (foldl (register_route (routes self))
                    (set_priority (pre ++ bad :: post) self)
                    (entries.*1 ++ rid :: ids)))).
Proof.
  split.
  - intros Hprio. unfold arrangeRoutes. mstep. by rewrite Hprio.
  - intros header pre entries bad rid post ids e Hprio Hpre H0 Hbad Hpost Hwf.
    unfold arrangeRoutes. mstep. rewrite Hprio. mstep.
    erewrite bind_run; cycle 1.
    { apply (arrange_routes_run_ids _ (entries.*1 ++ rid :: ids)); [|done].
      apply Forall2_app; [|by constructor].
      apply Forall2_fmap_r. eapply Forall2_impl; [exact Hpre|]. by intros ? ? [? _]. }
    cbn [routes set_priority]. mstep.
    by rewrite (ranks_of_raises _ _ _ _ _ Hpre Hbad).
Qed.

Lemma arrangeRoutes_raises_witness :
  exists self',
    arrangeRoutes rank_not_a_number = (Raise ValueError, self')
    /\ priority self' = [["27"; "high"]; ["28"; "2"]]
    /\ routes_stops self' !! "27" = Some [("A", "0")]
    /\ routes_schedules self' !! "28" = Some []
    /\ routes_order self' = Some [].
Proof.
  destruct (arrangeRoutes_raises rank_not_a_number) as [_ H].
  eexists. split.
  - apply (H ["route"; "priority"] [] [] ["27"; "high"] "27" [["28"; "2"]] ["28"] ValueError).
    + reflexivity.
    + constructor.
    + reflexivity.
    + right. exists "high". split; [reflexivity|]. split; [by vm_compute | reflexivity].
    + repeat constructor.
    + repeat constructor; cbn; lia.
  - by vm_compute.
Defined.

(** ** [calculateNodeNumber] *)

Lemma count_nodes (P : Node -> Prop) `{forall node, Decision (P node)} (node_list : list Node) :
  forall acc,
    foldl (fun node_num node => if decide (P node) then node_num + 1 else node_num)
          acc node_list
    = acc + Z.of_nat (length (filter P node_list)).
Proof.
  induction node_list as [|node node_list IH]; intros acc; cbn [foldl]; [cbn; lia|].
  rewrite IH, filter_cons. destruct (decide (P node)); cbn [length]; lia.
Qed.

Lemma count_node_visits (node_list : list Node) (stops : stop_list) : forall acc,
  foldl (fun node_num (stop : string * string) =>
           foldl (fun node_num node =>
                    if decide (stop.1 ∈ (node_stops node).*2) then node_num + 1 else node_num)
                 node_num node_list)
        acc stops
  = acc + Z.of_nat (length (node_visits stops node_list)).
Proof.
  induction stops as [|stop stops IH]; intros acc; cbn [foldl]; [cbn; lia|].
  rewrite IH, (count_nodes (fun node => stop.1 ∈ (node_stops node).*2)).
  unfold node_visits. rewrite bind_cons, length_app. lia.
Qed.

(** [calculateNodeNumber] changes nothing and returns, for exactly the
    routes that have a stop list, the number of pairs of a stop of the route
    and a node that lists the id of this stop: a node counts once for each
    of the stops of the route that it lists, whatever route the node gives
    for the stop. The number is between 0 and the number of stops times the
    number of nodes. *)
Theorem calculateNodeNumber_counts (s : Self) :
  exists numbers,
    calculateNodeNumber s = (Done numbers, s)
    /\ (forall route, numbers !! route = None <-> routes_stops s !! route = None)
    /\ (forall route stops,
          routes_stops s !! route = Some stops ->
          numbers !! route = Some (Z.of_nat (length (node_visits stops (nodes s))))
          /\ (length (node_visits stops (nodes s)) <= length stops * length (nodes s))%nat).
Proof.
  eexists. split; [reflexivity|]. split.
  - intros route. by rewrite lookup_fmap, fmap_None.
  - intros route stops Hstops. split.
    + rewrite lookup_fmap, Hstops. cbn [fmap option_fmap option_map]. f_equal.
      by rewrite count_node_visits.
    + clear Hstops. unfold node_visits.
      induction stops as [|stop stops IH]; [done|].
      rewrite bind_cons, length_app. cbn [length].
      pose proof (length_filter (fun node => stop.1 ∈ (node_stops node).*2) (nodes s)).
      lia.
Qed.

Lemma calculateNodeNumber_counts_witness :
  exists numbers,
    calculateNodeNumber two_routes_one_node = (Done numbers, two_routes_one_node)
    /\ numbers !! "27" = Some 1 /\ numbers !! "28" = Some 0.
Proof.
  destruct (calculateNodeNumber_counts two_routes_one_node) as (numbers & Hrun & _ & Hcount).
  exists numbers. split; [exact Hrun|]. split.
  - destruct (Hcount "27" [("A", "0"); ("B", "120")]) as [-> _]; [reflexivity|].
    by vm_compute.
  - destruct (Hcount "28" [("C", "0")]) as [-> _]; [reflexivity|].
    by vm_compute.
Defined.

(** * The claims that rest on the whole run *)

(** ** The stop lists that [arrangeRoutes] registers *)

Lemma order_loop_keeps_stops n L s :
  routes_stops (order_loop n L s).2 = routes_stops s.
Proof.
  apply (respects_order_loop (fun s s' => routes_stops s' = routes_stops s)); try done.
  intros s1 s2 s3 H12 H23. congruence.
Qed.

(** C1, amended. For a route table whose rows have their six fields and a
    priority table (a header, then rows that each hold a route id), the
    stop list that [arrangeRoutes] registers for every route id of the
    priority table is made of exactly the route-table rows of that route
    whose stop id (field 4) is not blank, as (stop id, travel time) pairs in
    table order. Rows with a blank stop id are left out; a blank travel time
    does not exclude a row. The stop lists are built before the ranks are
    read: they are as stated whatever the ranks hold, whether
    [arrangeRoutes] returns or raises while it orders the routes. *)
Theorem arrangeRoutes_routes_stops (self : Self) (header : list string)
    (rows : list (list string)) (ids : list string) :
  priority self = header :: rows ->
  Forall2 (fun (row : list string) rid => row !! 0%nat = Some rid) rows ids ->
  Forall (fun rp : list string => (6 <= length rp)%nat) (routes self) ->
  forall rid, rid ∈ ids ->
    routes_stops (arrangeRoutes self).2 !! rid
    = Some ((fun rp => (field 4 rp, field 5 rp))
              <$> filter (fun rp => field 0 rp = rid /\ field 4 rp <> EmptyString) (routes self)).
Proof.
  intros Hprio Hrows Hwf rid Hrid. unfold arrangeRoutes. mstep. rewrite Hprio. mstep.
  rewrite (bind_run _ _ _ _ _
             (arrange_routes_run_ids rows ids Hrows (set_priority rows self) Hwf)).
  cbn [routes set_priority]. mstep. rewrite bind_lift_case.
  set (s1 := foldl (register_route (routes self)) (set_priority rows self) ids).
  assert (routes_stops s1 !! rid
          = Some (stops_for (routes self) rid)) as Hs1 by (by apply register_route_stops).
  destruct (ranks_of rows) as [ranks| | |]; cbn [snd]; try exact Hs1.
  rewrite order_loop_keeps_stops. exact Hs1.
Qed.

Lemma arrangeRoutes_routes_stops_witness :
  routes_stops (arrangeRoutes blank_first_stop).2 !! "27" = Some [("A", EmptyString); ("B", "120")]
  /\ routes_stops (arrangeRoutes rank_not_a_number).2 !! "27" = Some [("A", "0")].
Proof.
  split.
  - rewrite (arrangeRoutes_routes_stops blank_first_stop ["route"; "priority"]
               [["27"; "1"]] ["27"]).
    + by vm_compute.
    + reflexivity.
    + repeat constructor.
    + repeat constructor; cbn; lia.
    + apply list_elem_of_here.
  - rewrite (arrangeRoutes_routes_stops rank_not_a_number ["route"; "priority"]
               [["27"; "high"]; ["28"; "2"]] ["27"; "28"]).
    + by vm_compute.
    + reflexivity.
    + repeat constructor.
    + repeat constructor; cbn; lia.
    + apply list_elem_of_here.
Defined.

(** ** The trip ids of a run *)








